(** * libosmium: random access to PBF files and the OSM object builders

    A shallow embedding of
    - [include/osmium/io/pbf_input_randomaccess.hpp]: the block index table
      over a PBF container file ([PbfBlockIndexTable]) with the helpers of
      [osmium::io::detail] it is built from, and
    - [osmium/builder/osm_object_builder.hpp]: the entity builders
      ([TagListBuilder], [RelationMemberListBuilder],
      [ChangesetDiscussionBuilder], [OSMObjectBuilder], [ChangesetBuilder]),
    together with the properties the specification states about them.

    Conventions.  A C++ integer of width w is a [Z] with the wrap-around
    written out; [size_t] has 64 bits.  A byte of a file or of a buffer is a
    [Byte.byte]; how a plain [char] converts to an integer depends on the
    platform and is a parameter [char_is_signed] of the functions that do
    it.  A function that can throw returns an error value; an object the
    code mutates is passed in and returned. *)

From Stdlib Require Import ZArith Lia List Bool.
From Stdlib.Strings Require Import Byte String.
From stdpp Require Import base list.

Local Open Scope Z_scope.

(** ** C++ integers and characters *)

Module Cxx.

(** The value of a byte read as [unsigned char]. *)
Definition uchar (b : byte) : Z := Z.of_N (Byte.to_N b).

(** The value of a byte read as plain [char]: [-128..127] where [char] is
    signed (x86, x86-64), [0..255] where it is unsigned (ARM, PowerPC). *)
Definition char_value (char_is_signed : bool) (b : byte) : Z :=
  if char_is_signed && (128 <=? uchar b) then uchar b - 256 else uchar b.

(** [static_cast<uint32_t>(x)] *)
Definition to_uint32 (x : Z) : Z := x mod 2 ^ 32.

(** [x << n] on [uint32_t] *)
Definition shl32 (x n : Z) : Z := Z.shiftl x n mod 2 ^ 32.

(** [static_cast<int32_t>(x)] *)
Definition to_int32 (x : Z) : Z := (x + 2 ^ 31) mod 2 ^ 32 - 2 ^ 31.

(** [static_cast<size_t>(x)], and [+] on [size_t] *)
Definition to_size_t (x : Z) : Z := x mod 2 ^ 64.
Definition size_t_add (a b : Z) : Z := (a + b) mod 2 ^ 64.

(** The byte with the given value (taken modulo 256). *)
Definition byte_of_Z (z : Z) : byte :=
  match Byte.of_N (Z.to_N (z mod 256)) with
  | Some b => b
  | None => x00
  end.

(** The four bytes of a 32-bit value, most significant first. *)
Definition be32 (v : Z) : list byte :=
  [byte_of_Z (v / 2 ^ 24); byte_of_Z (v / 2 ^ 16); byte_of_Z (v / 2 ^ 8); byte_of_Z v].

(** The big-endian unsigned reading of four bytes. *)
Definition big_endian_u32 (b0 b1 b2 b3 : byte) : Z :=
  uchar b0 * 2 ^ 24 + uchar b1 * 2 ^ 16 + uchar b2 * 2 ^ 8 + uchar b3.

(** An ASCII literal as bytes. *)
Definition bytes_of (s : string) : list byte := list_byte_of_string s.

End Cxx.

Import Cxx.

(** ** [osmium::io::detail] *)

Module detail.

(** The places where the indexing code throws [osmium::pbf_error], and the
    exception of the message reader (protozero), which is not a
    [pbf_error]. *)
Inductive pbf_error : Type :=
| HeaderSizeInvalid
| UnexpectedEOF_in_blob_header_size
| UnexpectedEOF_in_blob_header
| MissingDataSize
| UnexpectedType
| BlockTooLarge
| FileSizeMismatch
| UnexpectedEOF
| protozero_exception
| decoder_exception.

Definition what (e : pbf_error) : string :=
  match e with
  | HeaderSizeInvalid => "invalid small BlobHeader size (> max_small_blob_header_size)"
  | UnexpectedEOF_in_blob_header_size => "unexpected EOF in blob header size"
  | UnexpectedEOF_in_blob_header => "unexpected EOF in blob header"
  | MissingDataSize => "PBF format error: BlobHeader.datasize missing or zero."
  | UnexpectedType => "blob does not have expected type (OSMHeader in first blob, OSMData in following blobs)"
  | BlockTooLarge => "invalid Block size (> max_block_size)"
  | FileSizeMismatch => "file either grew, or otherwise did not have expected size (perhaps 32-bit truncation?)"
  | UnexpectedEOF => "unexpected EOF"
  | protozero_exception => "protozero::exception"
  | decoder_exception => "exception of the blob decoder"
  end.

Definition max_small_blob_header_size : Z := 64.

Definition max_block_size : Z := 20 * 1024 * 1024.

Definition check_small_size (size : Z) : pbf_error + Z :=
  if size >? to_uint32 max_small_blob_header_size then inl HeaderSizeInvalid
  else inr size.

(** [d] points to (at least) four [char]s. *)
Definition get_size_in_network_byte_order (char_is_signed : bool) (d : list byte) : Z :=
  let c i := char_value char_is_signed (nth i d x00) in
  Z.lor (Z.lor (Z.lor (to_uint32 (c 3%nat))
                      (shl32 (to_uint32 (c 2%nat)) 8))
               (shl32 (to_uint32 (c 1%nat)) 16))
        (shl32 (to_uint32 (c 0%nat)) 24).

End detail.

Import detail.

(** ** The file descriptor

    The raw file primitives ([open], [read], [lseek], [fstat]) are the
    operating system's.  An open descriptor is the contents of the file and
    the one offset that reads and seeks share. *)

Module util.

Record file : Type := { contents : list byte; pos : Z }.

Definition open_for_reading (file_contents : list byte) : file :=
  {| contents := file_contents; pos := 0 |}.

Definition file_size (fd : file) : Z := to_size_t (Z.of_nat (length (contents fd))).

(** [lseek(fd, offset, SEEK_SET)]: an offset that is not a valid [off_t]
    is refused and leaves the position where it was; a position past the
    end of the file is allowed. *)
Definition file_seek (fd : file) (offset : Z) : file :=
  if offset <? 2 ^ 63 then {| contents := contents fd; pos := offset |} else fd.

(** [reliable_read]: a read of a regular file returns the bytes that are
    left, at most [size] of them, and none at the end of the file. *)
Definition reliable_read (fd : file) (size : Z) : list byte * file :=
  let chunk := take (Z.to_nat size) (drop (Z.to_nat (pos fd)) (contents fd)) in
  (chunk, {| contents := contents fd; pos := pos fd + Z.of_nat (length chunk) |}).

End util.

Import util.

Module detail_read.

(** The loop of [read_exactly]; [buffer] holds what was read so far. *)
Fixpoint read_exactly_loop (fuel : nat) (fd : file) (buffer : list byte) (to_read : Z)
  : option (bool * list byte * file) :=
  if to_read >? 0 then
    match fuel with
    | O => None
    | S fuel' =>
        let '(chunk, fd') := reliable_read fd to_read in
        let read_size := Z.of_nat (length chunk) in
        if read_size =? 0 then Some (false, buffer, fd')
        else read_exactly_loop fuel' fd' (buffer ++ chunk) (to_read - read_size)
    end
  else Some (true, buffer, fd).

(** Every round of the loop reads at least one byte, so [size] rounds and
    one more are enough ([read_exactly_loop_total] below). *)
Definition read_exactly (fd : file) (size : Z) : bool * list byte * file :=
  match read_exactly_loop (S (Z.to_nat size)) fd [] size with
  | Some r => r
  | None => (false, [], fd)
  end.

Definition read_blob_header_size_from_file (char_is_signed : bool) (fd : file)
  : pbf_error + (Z * file) :=
  let '(ok, buffer, fd') := read_exactly fd 4 in
  if negb ok then inl UnexpectedEOF_in_blob_header_size
  else
    match check_small_size (get_size_in_network_byte_order char_is_signed buffer) with
    | inl e => inl e
    | inr size => inr (size, fd')
    end.

(** [std::strncmp(s1, s2, n)]: [s1] is a C string (the zero byte that ends
    it is the [x00] read past the list), of [s2] at most [n] bytes are
    read. *)
Fixpoint strncmp (s1 s2 : list byte) (n : nat) : Z :=
  match n with
  | O => 0
  | S n' =>
      let c1 := uchar (hd x00 s1) in
      let c2 := uchar (hd x00 s2) in
      if c1 =? c2 then (if c1 =? 0 then 0 else strncmp (tl s1) (tl s2) n')
      else c1 - c2
  end.

End detail_read.

Import detail_read.

(** ** The message reader (protozero)

    protozero is a library of its own.  A message is what its reader
    yields: the fields in the order they are stored, each with its tag and
    the value of its wire type. *)

Module protozero.

Inductive wire_value : Type :=
| varint (v : Z)
| fixed64 (bytes : list byte)
| length_delimited (view : list byte)
| fixed32 (bytes : list byte).

Record field : Type := { tag : Z; value : wire_value }.

(** [pbf_reader::get_int32]: the varint cut to 32 bits, signed. *)
Definition get_int32 (v : Z) : Z := to_int32 v.

(** The varint that starts at the head of [data]: its value and the rest.
    At most ten bytes belong to one varint. *)
Fixpoint decode_varint (fuel : nat) (data : list byte) (shift : Z) : option (Z * list byte) :=
  match fuel, data with
  | S fuel', b :: rest =>
      let low := Z.shiftl (Z.land (uchar b) 127) shift in
      if uchar b <? 128 then Some (low, rest)
      else match decode_varint fuel' rest (shift + 7) with
           | Some (v, rest') => Some ((Z.lor low v) mod 2 ^ 64, rest')
           | None => None
           end
  | _, _ => None
  end.

Definition split_exactly (n : nat) (data : list byte) : option (list byte * list byte) :=
  if (n <=? length data)%nat then Some (take n data, drop n data) else None.

(** The fields of a message in wire format; [None] is an exception of the
    reader (a cut varint, a length past the end, an unknown wire type). *)
Fixpoint pbf_message (fuel : nat) (data : list byte) : option (list field) :=
  match data with
  | [] => Some []
  | _ :: _ =>
      match fuel with
      | O => None
      | S fuel' =>
          match decode_varint 10 data 0 with
          | None => None
          | Some (key, rest) =>
              let t := Z.shiftr key 3 in
              let k v rest' :=
                match pbf_message fuel' rest' with
                | Some fs => Some ({| tag := t; value := v |} :: fs)
                | None => None
                end in
              match Z.land key 7 with
              | 0 => match decode_varint 10 rest 0 with
                     | Some (v, rest') => k (varint v) rest'
                     | None => None
                     end
              | 1 => match split_exactly 8 rest with
                     | Some (bs, rest') => k (fixed64 bs) rest'
                     | None => None
                     end
              | 2 => match decode_varint 10 rest 0 with
                     | Some (len, rest') =>
                         match split_exactly (Z.to_nat len) rest' with
                         | Some (bs, rest'') => k (length_delimited bs) rest''
                         | None => None
                         end
                     | None => None
                     end
              | 5 => match split_exactly 4 rest with
                     | Some (bs, rest') => k (fixed32 bs) rest'
                     | None => None
                     end
              | _ => None
              end
          end
      end
  end.

(** A reader for whole messages: every field takes at least one byte. *)
Definition wire_reader (data : list byte) : option (list field) :=
  pbf_message (length data) data.

End protozero.

Import protozero.

(** ** The item types and entity bits of [osmium]

    [osmium/osm/item_type.hpp] and [osmium/osm/entity_bits.hpp] declare
    them. *)

Inductive item_type : Type :=
| undefined
| node
| way
| relation
| area
| changeset
| tag_list
| way_node_list
| relation_member_list
| relation_member_list_with_full_members
| outer_ring
| inner_ring
| changeset_discussion.

Definition item_type_eqb (a b : item_type) : bool :=
  match a, b with
  | undefined, undefined | node, node | way, way | relation, relation
  | area, area | changeset, changeset | tag_list, tag_list
  | way_node_list, way_node_list | relation_member_list, relation_member_list
  | relation_member_list_with_full_members, relation_member_list_with_full_members
  | outer_ring, outer_ring | inner_ring, inner_ring
  | changeset_discussion, changeset_discussion => true
  | _, _ => false
  end.

Module osm_entity_bits.
(** A set of entity kinds as a bit mask. *)
Definition type : Type := Z.
Definition nothing : type := 0.
Definition node : type := 1.
Definition way : type := 2.
Definition relation : type := 4.
Definition area : type := 8.
Definition changeset : type := 16.
Definition all : type := 31.
End osm_entity_bits.

Inductive read_meta : Type := read_meta_no | read_meta_yes.

(** ** The decoded buffer

    [get_parsed_block] looks at the buffer a block decodes to through its
    item iterator only: an item is its type and, for an OSM object, its
    id. *)

Module memory.

Record Item : Type := { type : item_type; id : Z }.

Definition Buffer : Type := list Item.

(** [type_is_compatible<osmium::OSMObject>] of the item iterator. *)
Definition type_is_compatible_OSMObject (t : item_type) : bool :=
  match t with
  | node | way | relation | area => true
  | _ => false
  end.

(** [buffer.begin<osmium::OSMObject>()]: the first item that is an OSM
    object, [None] for [buffer.end<osmium::OSMObject>()]. *)
Fixpoint begin_OSMObject (buffer : Buffer) : option Item :=
  match buffer with
  | [] => None
  | it :: rest =>
      if type_is_compatible_OSMObject (type it) then Some it
      else begin_OSMObject rest
  end.

End memory.

(** ** [PbfBlockIndexTable] *)

Module FileFormat.
(** The tags of [BlobHeader] in the PBF file format. *)
Definition required_string_type : Z := 1.
Definition optional_bytes_indexdata : Z := 2.
Definition required_int32_datasize : Z := 3.
End FileFormat.

Record pbf_block_start : Type := {
  file_offset : Z;
  first_item_id_or_zero : Z;
  datasize : Z;
  first_item_type_or_zero : item_type
}.

Record PbfBlockIndexTable : Type := {
  m_block_starts : list pbf_block_start;
  m_fd : file
}.

(** The decoder object [PBFDataBlobDecoder] as it is constructed: the
    input, the kinds to decode and the metadata to read. *)
Record PBFDataBlobDecoder : Type := {
  input_buffer : list byte;
  read_types : osm_entity_bits.type;
  read_metadata : read_meta
}.

Definition bind_error {A B : Type} (x : pbf_error + A) (k : A -> pbf_error + B) : pbf_error + B :=
  match x with
  | inl e => inl e
  | inr a => k a
  end.

Notation "'let!' p := e 'in' k" := (bind_error e (fun p => k))
  (at level 10, p pattern, e at level 200, k at level 200).
Notation "'throw' e" := (inl e) (at level 10, only parsing).

Section RandomAccess.

(** Whether plain [char] is signed on the platform. *)
Variable char_is_signed : bool.

(** The message reader: the fields of a message, [None] where it throws. *)
Variable read_message : list byte -> option (list field).

(** [PBFDataBlobDecoder::operator()]: the decoded buffer, [None] where
    it throws. *)
Variable data_blob_parser : PBFDataBlobDecoder -> option memory.Buffer.

(** One round of the loop over the fields of a [BlobHeader]. *)
Definition blob_header_field (acc : list byte * Z) (f : field) : list byte * Z :=
  let '(blob_header_type, blob_header_datasize) := acc in
  match value f with
  | length_delimited view =>
      if tag f =? FileFormat.required_string_type then (view, blob_header_datasize) else acc
  | varint v =>
      if tag f =? FileFormat.required_int32_datasize then (blob_header_type, to_size_t (get_int32 v)) else acc
  | _ => acc
  end.

Definition decode_blob_header (data : list byte) (expected_type : list byte) : pbf_error + Z :=
  match read_message data with
  | None => throw protozero_exception
  | Some fields =>
      let '(blob_header_type, blob_header_datasize) :=
        fold_left blob_header_field fields ([], 0) in
      if blob_header_datasize =? 0 then throw MissingDataSize
      else if negb (strncmp expected_type blob_header_type (length blob_header_type) =? 0)
           then throw UnexpectedType
           else inr blob_header_datasize
  end.

Definition digest_and_skip_block (this : PbfBlockIndexTable)
    (current_offset file_size : Z) (should_index_block : bool)
  : pbf_error + (Z * PbfBlockIndexTable) :=
  let! (blob_header_size, fd1) := read_blob_header_size_from_file char_is_signed (m_fd this) in
  let current_offset := size_t_add current_offset 4 in
  let '(ok, buffer, fd2) := read_exactly fd1 blob_header_size in
  if negb ok then throw UnexpectedEOF_in_blob_header
  else
    let current_offset := size_t_add current_offset blob_header_size in
    let expected_type := if should_index_block then bytes_of "OSMData" else bytes_of "OSMHeader" in
    let! blob_body_size := decode_blob_header buffer expected_type in
    if blob_body_size >? max_block_size then throw BlockTooLarge
    else
      let block_starts :=
        if should_index_block
        then m_block_starts this ++
             [{| file_offset := current_offset;
                 first_item_id_or_zero := 0;
                 datasize := to_uint32 blob_body_size;
                 first_item_type_or_zero := undefined |}]
        else m_block_starts this in
      let current_offset := size_t_add current_offset blob_body_size in
      inr (current_offset,
           {| m_block_starts := block_starts;
              m_fd := file_seek fd2 current_offset |}).

(** The loop over the data blocks in the constructor. *)
Fixpoint index_data_blocks (fuel : nat) (this : PbfBlockIndexTable) (offset file_size : Z)
  : option (pbf_error + (Z * PbfBlockIndexTable)) :=
  if offset <? file_size then
    match fuel with
    | O => None
    | S fuel' =>
        match digest_and_skip_block this offset file_size true with
        | inl e => Some (throw e)
        | inr (offset', this') => index_data_blocks fuel' this' offset' file_size
        end
    end
  else Some (inr (offset, this)).

(** The constructor, on the contents of the file that [filename] names.
    An exception leaves no object.  [None] would be a loop that does not
    end within [fuel] rounds. *)
Definition PbfBlockIndexTable_new_with (fuel : nat) (file_contents : list byte)
  : option (pbf_error + PbfBlockIndexTable) :=
  let this := {| m_block_starts := []; m_fd := open_for_reading file_contents |} in
  let file_size := file_size (m_fd this) in
  match digest_and_skip_block this 0 file_size false with
  | inl e => Some (throw e)
  | inr (offset, this) =>
      match index_data_blocks fuel this offset file_size with
      | None => None
      | Some (inl e) => Some (throw e)
      | Some (inr (offset, this)) =>
          if offset >? file_size then Some (throw FileSizeMismatch)
          else Some (inr this)
      end
  end.

(** A block takes at least five bytes of the file, so one round for every
    byte is more than enough ([PbfBlockIndexTable_new_total] below). *)
Definition PbfBlockIndexTable_new (file_contents : list byte)
  : option (pbf_error + PbfBlockIndexTable) :=
  PbfBlockIndexTable_new_with (length file_contents) file_contents.

Definition block_starts (this : PbfBlockIndexTable) : list pbf_block_start :=
  m_block_starts this.

(** What a call of [get_parsed_block] comes to. *)
Inductive parsed_block : Type :=
| returned (buffer : memory.Buffer)
| thrown (e : pbf_error)
| invalid_index.

(** [get_parsed_block] up to the construction of the decoder object. *)
Definition read_block (this : PbfBlockIndexTable) (block_start : pbf_block_start)
    (read_metadata : read_meta) : (pbf_error + PBFDataBlobDecoder) * file :=
  let read_types := osm_entity_bits.all in
  let fd := file_seek (m_fd this) (file_offset block_start) in
  let '(ok, input_buffer, fd) := read_exactly fd (datasize block_start) in
  if negb ok then (throw UnexpectedEOF, fd)
  else (inr {| input_buffer := input_buffer;
               read_types := read_types;
               read_metadata := read_metadata |}, fd).

(** [get_parsed_block]: the result and the table after the call.  An index
    that is not valid breaks the precondition; the model leaves the table
    as it is. *)
Definition get_parsed_block (this : PbfBlockIndexTable) (block_index : nat)
    (read_metadata : read_meta) : parsed_block * PbfBlockIndexTable :=
  match m_block_starts this !! block_index with
  | None => (invalid_index, this)
  | Some block_start =>
      match read_block this block_start read_metadata with
      | (inl e, fd) => (thrown e, {| m_block_starts := m_block_starts this; m_fd := fd |})
      | (inr decoder, fd) =>
          let this := {| m_block_starts := m_block_starts this; m_fd := fd |} in
          match data_blob_parser decoder with
          | None => (thrown decoder_exception, this)
          | Some buffer =>
              if item_type_eqb (first_item_type_or_zero block_start) undefined then
                match memory.begin_OSMObject buffer with
                | Some it =>
                    (returned buffer,
                     {| m_block_starts :=
                          <[block_index :=
                              {| file_offset := file_offset block_start;
                                 first_item_id_or_zero := memory.id it;
                                 datasize := datasize block_start;
                                 first_item_type_or_zero := memory.type it |}]>
                            (m_block_starts this);
                        m_fd := m_fd this |})
                | None => (returned buffer, this)
                end
              else (returned buffer, this)
          end
      end
  end.

End RandomAccess.

(** ** Container files, for the statements

    A block of a container file is a header message and a body; in the file
    it is the length of the header in four bytes, most significant first,
    the header and the body. *)

Record block : Type := { header : list byte; body : list byte }.

Definition block_bytes (b : block) : list byte :=
  be32 (Z.of_nat (length (header b))) ++ header b ++ body b.

Definition container_file (first : block) (data : list block) : list byte :=
  block_bytes first ++ concat (map block_bytes data).

(** The values of the [type] fields and of the [datasize] fields of a
    message. *)
Definition type_fields (fields : list field) : list (list byte) :=
  flat_map (fun f => match value f with
                     | length_delimited view =>
                         if tag f =? FileFormat.required_string_type then [view] else []
                     | _ => []
                     end) fields.

Definition datasize_fields (fields : list field) : list Z :=
  flat_map (fun f => match value f with
                     | varint v =>
                         if tag f =? FileFormat.required_int32_datasize then [v] else []
                     | _ => []
                     end) fields.

Section ContainerFiles.

Variable read_message : list byte -> option (list field).

(** A well-formed block of type [ty]: a header within the bound for small
    headers whose message states the type [ty] and, as [datasize], the
    length of the body, which is not empty and within the block size
    bound. *)
Definition well_formed_block (ty : list byte) (b : block) : Prop :=
  Z.of_nat (length (header b)) <= max_small_blob_header_size /\
  1 <= Z.of_nat (length (body b)) <= max_block_size /\
  exists fields,
    read_message (header b) = Some fields /\
    type_fields fields = [ty] /\
    datasize_fields fields = [Z.of_nat (length (body b))].

Definition well_formed_container (first : block) (data : list block) : Prop :=
  well_formed_block (bytes_of "OSMHeader") first /\
  Forall (well_formed_block (bytes_of "OSMData")) data /\
  Z.of_nat (length (container_file first data)) < 2 ^ 63.

End ContainerFiles.

(** The entry of the data block [b] that starts at [offset]: the offset
    and length of its body, the first item not known yet. *)
Definition block_start_at (offset : Z) (b : block) : pbf_block_start :=
  {| file_offset := offset + 4 + Z.of_nat (length (header b));
     first_item_id_or_zero := 0;
     datasize := Z.of_nat (length (body b));
     first_item_type_or_zero := undefined |}.

(** The index a container stands for: one entry for every data block, in
    the order of the file.  [offset] is where the first of the blocks
    starts. *)
Fixpoint expected_block_starts (offset : Z) (data : list block) : list pbf_block_start :=
  match data with
  | [] => []
  | b :: rest =>
      block_start_at offset b
      :: expected_block_starts (offset + Z.of_nat (length (block_bytes b))) rest
  end.

(** The offset of the body of the data block [b] at position [i]: the
    length prefixes, headers and bodies of all blocks before it, and its
    own prefix and header. *)
Definition body_offset (first : block) (data : list block) (i : nat) (b : block) : Z :=
  Z.of_nat (length (block_bytes first))
  + Z.of_nat (length (concat (map block_bytes (take i data))))
  + 4 + Z.of_nat (length (header b)).

Section AcceptedBlocks.

Variable read_message : list byte -> option (list field).

(** A block as the constructor takes it: a header within the bound for
    small headers that decodes, for the expected type [ty], to the length
    of the body, which is within the block size bound. *)
Definition accepted_block (ty : list byte) (b : block) : Prop :=
  Z.of_nat (length (header b)) <= max_small_blob_header_size /\
  decode_blob_header read_message (header b) ty = inr (Z.of_nat (length (body b))) /\
  1 <= Z.of_nat (length (body b)) <= max_block_size.

End AcceptedBlocks.

Section Headers.

Variable read_message : list byte -> option (list field).

(** A header within the bound for small headers whose message states the
    type [ty] and the datasize [v]. *)
Definition header_states (ty : list byte) (v : Z) (hdr : list byte) : Prop :=
  Z.of_nat (length hdr) <= max_small_blob_header_size /\
  exists fields,
    read_message hdr = Some fields /\
    type_fields fields = [ty] /\
    datasize_fields fields = [v].

End Headers.

(** The errors of a file that ends before a block does. *)
Definition truncation_error (e : pbf_error) : Prop :=
  e = UnexpectedEOF_in_blob_header_size \/
  e = UnexpectedEOF_in_blob_header \/
  e = FileSizeMismatch.

(** ** Sequences of calls of [get_parsed_block] *)

Section Calls.

Variable data_blob_parser : PBFDataBlobDecoder -> option memory.Buffer.

(** A call: the block index and the metadata flag. *)
Definition call : Type := nat * read_meta.

(** The calls one after the other on the same table; a caller that
    catches an exception goes on with the table as the call left it.
    The result is the table at the end and what every call came to. *)
Fixpoint run_calls (this : PbfBlockIndexTable) (calls : list call)
  : PbfBlockIndexTable * list (call * parsed_block) :=
  match calls with
  | [] => (this, [])
  | c :: rest =>
      let '(r, this') := get_parsed_block data_blob_parser this (fst c) (snd c) in
      let '(this'', trace) := run_calls this' rest in
      (this'', (c, r) :: trace)
  end.

End Calls.

(** The first OSM object of what a call for block [k] returned, if the call
    was for block [k], returned a buffer and the buffer has one. *)
Definition decoded_first_item (k : nat) (step : call * parsed_block) : option memory.Item :=
  if Nat.eqb (fst (fst step)) k then
    match snd step with
    | returned buffer => memory.begin_OSMObject buffer
    | _ => None
    end
  else None.

(** The first call in a trace that decoded an item for block [k]. *)
Fixpoint first_decoded_item (k : nat) (trace : list (call * parsed_block)) : option memory.Item :=
  match trace with
  | [] => None
  | step :: rest =>
      match decoded_first_item k step with
      | Some it => Some it
      | None => first_decoded_item k rest
      end
  end.

(** An entry with its first item fields filled once: an entry that has
    them keeps them, one that has not takes them from the item. *)
Definition fill_first_item (e : pbf_block_start) (o : option memory.Item) : pbf_block_start :=
  match first_item_type_or_zero e, o with
  | undefined, Some it =>
      {| file_offset := file_offset e;
         first_item_id_or_zero := memory.id it;
         datasize := datasize e;
         first_item_type_or_zero := memory.type it |}
  | _, _ => e
  end.

(** The decoder with the kinds to decode set to all kinds, whatever it was
    asked for. *)
Definition decoding_all_kinds (data_blob_parser : PBFDataBlobDecoder -> option memory.Buffer)
    (decoder : PBFDataBlobDecoder) : option memory.Buffer :=
  data_blob_parser {| input_buffer := input_buffer decoder;
                      read_types := osm_entity_bits.all;
                      read_metadata := read_metadata decoder |}.

(** * The builders

    [osmium/builder/builder.hpp] (the class [Builder]),
    [osmium/memory/buffer.hpp] and the headers that declare the items are
    not part of the sources at hand; what the builders of
    [osm_object_builder.hpp] use of them is modelled here. *)

Module builder.

Local Open Scope nat_scope.

(** Modelled from the spec: the alignment unit, to which the physical
    extent of every item is padded, is 8 bytes ([osmium/memory/item.hpp]
    is missing). *)
Definition align_bytes : nat := 8.

Definition padded_length (length : nat) : nat :=
  (length + (align_bytes - 1)) / align_bytes * align_bytes.

(** [sizeof(string_size_type)], a 16-bit unsigned integer. *)
Definition sizeof_string_size_type : nat := 2.

(** An unsigned integer of [width] bytes as it lies in memory, least
    significant byte first, and back. *)
Definition le_bytes (width : nat) (v : Z) : list byte :=
  map (fun i => byte_of_Z (v / 2 ^ (8 * Z.of_nat i))) (seq 0 width).

Fixpoint le_value (bytes : list byte) : Z :=
  match bytes with
  | [] => 0%Z
  | b :: rest => (uchar b + 256 * le_value rest)%Z
  end.

(** Modelled from the spec: the arena buffer (class [Buffer] is missing).
    An append-only sequence of bytes; [m_data] holds the bytes up to the
    written position, of which the first [m_committed] are committed. *)
Record Buffer : Type := { m_data : list byte; m_committed : nat }.

Definition written (buffer : Buffer) : nat := length (m_data buffer).

(** The bytes [pos .. pos + n) of the buffer. *)
Definition read_bytes (pos n : nat) (data : list byte) : list byte :=
  take n (drop pos data).

(** Memory that was reserved is written in place. *)
Definition write_bytes (pos : nat) (bytes : list byte) (data : list byte) : list byte :=
  take pos data ++ bytes ++ drop (pos + length bytes) data.

Definition with_data (buffer : Buffer) (data : list byte) : Buffer :=
  {| m_data := data; m_committed := m_committed buffer |}.

Definition load (width pos : nat) (buffer : Buffer) : Z :=
  le_value (read_bytes pos width (m_data buffer)).

Definition store (width pos : nat) (v : Z) (buffer : Buffer) : Buffer :=
  with_data buffer (write_bytes pos (le_bytes width v) (m_data buffer)).

(** The C string at [pos]: the bytes up to the first zero byte. *)
Fixpoint c_str_of (bytes : list byte) : list byte :=
  match bytes with
  | [] => []
  | b :: rest => if Byte.eqb b x00 then [] else b :: c_str_of rest
  end.

Definition c_str (pos : nat) (buffer : Buffer) : list byte :=
  c_str_of (drop pos (m_data buffer)).

(** Modelled from the spec: a builder (class [Builder] is missing) is
    bound to the item it builds, by the offset of the item in the buffer,
    and to the builder of the enclosing item if there is one. *)
Inductive Builder : Type :=
| top_level (m_item_offset : nat)
| nested (m_item_offset : nat) (m_parent : Builder).

Definition Builder_at (m_item_offset : nat) (m_parent : option Builder) : Builder :=
  match m_parent with
  | Some parent => nested m_item_offset parent
  | None => top_level m_item_offset
  end.

Definition item_pos (this : Builder) : nat :=
  match this with top_level pos | nested pos _ => pos end.

Definition m_parent (this : Builder) : option Builder :=
  match this with top_level _ => None | nested _ parent => Some parent end.

(** The offsets of the items of a builder and of all its ancestors. *)
Fixpoint open_items (this : Builder) : list nat :=
  match this with
  | top_level pos => [pos]
  | nested pos parent => pos :: open_items parent
  end.

(** The items of the ancestors of a builder that is about to be made. *)
Definition open_items_of (parent : option Builder) : list nat :=
  match parent with Some p => open_items p | None => [] end.

(** What the object that [T{}] constructs holds after its size field;
    the size field itself holds [sizeof(T)]. *)
Record object_layout : Type := {
  sizeof_T : nat;
  T_fields : list byte;
  T_fields_length : 4 + length T_fields = sizeof_T
}.

(** [Changeset] has its [m_user_size] among its members. *)
Record changeset_layout : Type := {
  Changeset_object : object_layout;
  offsetof_m_user_size : nat;
  m_user_size_inside :
    4 <= offsetof_m_user_size /\ offsetof_m_user_size + 2 <= sizeof_T Changeset_object
}.

(** What a member function of a builder comes to: it returns, it throws
    [std::length_error], or an assertion fails.  The state of the builder
    and the buffer stay as they are when the exception is thrown. *)
Inductive outcome (S : Type) : Type :=
| returns (s : S)
| length_error (what : string) (s : S)
| assertion_failed (what : string).

Arguments returns {S} s.
Arguments length_error {S} what s.
Arguments assertion_failed {S} what.

Section Builders.

(** What reserved memory holds before it is written: anything. *)
Variable uninitialized : nat -> byte.

(** [osmium::max_osm_string_length], a constant of
    [osmium/osm/types.hpp]. *)
Variable max_osm_string_length : nat.

(** Modelled from the spec: [reserve(n)] makes room for the next [n]
    bytes and returns where they are. *)
Definition reserve_space (size : nat) (buffer : Buffer) : nat * Buffer :=
  (written buffer,
   with_data buffer (m_data buffer ++ map uninitialized (seq (written buffer) size))).

(** The content length of the item at [pos], the first field of its
    header, a 32-bit unsigned integer. *)
Definition Item_byte_size (pos : nat) (buffer : Buffer) : Z := load 4 pos buffer.

Definition Item_add_size (pos : nat) (size : Z) (buffer : Buffer) : Buffer :=
  store 4 pos ((Item_byte_size pos buffer + size) mod 2 ^ 32) buffer.

(** Modelled from the spec: [grow(n)] adds [n] to the content length of
    the item and of the item of every ancestor. *)
Fixpoint add_size (this : Builder) (size : nat) (buffer : Buffer) : Buffer :=
  match this with
  | top_level pos => Item_add_size pos (Z.of_nat size) buffer
  | nested pos parent => add_size parent size (Item_add_size pos (Z.of_nat size) buffer)
  end.

Definition size (this : Builder) (buffer : Buffer) : Z :=
  Item_byte_size (item_pos this) buffer.

(** Modelled from the spec: the constructor of [Builder] reserves the
    space for the fixed part of the item, fills it with zero bytes and
    records where the item starts and the parent; the space counts for
    the items of the ancestors. *)
Definition Builder_new (buffer : Buffer) (parent : option Builder) (size : nat)
  : Builder * Buffer :=
  let '(pos, buffer) := reserve_space size buffer in
  let buffer := with_data buffer (write_bytes pos (repeat x00 size) (m_data buffer)) in
  let buffer := match parent with
                | Some p => add_size p size buffer
                | None => buffer
                end in
  (Builder_at pos parent, buffer).

(** Modelled from the spec: [append_bytes(data)] reserves the bytes and
    copies [data] there; it returns the number of bytes. *)
Definition append (data : list byte) (buffer : Buffer) : nat * Buffer :=
  let '(target, buffer) := reserve_space (length data) buffer in
  (length data, with_data buffer (write_bytes target data (m_data buffer))).

(** [append_with_zero(data, length)]: the bytes and a zero byte. *)
Definition append_with_zero (data : list byte) (buffer : Buffer) : nat * Buffer :=
  let '(target, buffer) := reserve_space (length data + 1) buffer in
  let buffer := with_data buffer (write_bytes target data (m_data buffer)) in
  (length data + 1,
   with_data buffer (write_bytes (target + length data) [x00] (m_data buffer))).

(** Modelled from the spec: padding brings the extent of the item up to
    the next alignment boundary with zero bytes; [add_padding(true)]
    counts them for the item itself and its ancestors, [add_padding()]
    for the ancestors only. *)
Definition add_padding (this : Builder) (self : bool) (buffer : Buffer) : Buffer :=
  let padding := align_bytes - Z.to_nat (size this buffer mod Z.of_nat align_bytes) in
  if Nat.eqb padding align_bytes then buffer
  else
    let '(target, buffer) := reserve_space padding buffer in
    let buffer := with_data buffer (write_bytes target (repeat x00 padding) (m_data buffer)) in
    if self then add_size this padding buffer
    else match m_parent this with
         | Some p => add_size p padding buffer
         | None => buffer
         end.

(** [add_item(item)]: a copy of a whole item, padding included. *)
Definition add_item (this : Builder) (item : list byte) (buffer : Buffer) : Buffer :=
  let '(target, buffer) := reserve_space (length item) buffer in
  let buffer := with_data buffer (write_bytes target item (m_data buffer)) in
  add_size this (length item) buffer.

(** *** [TagListBuilder] *)

(** [add_tag(const char* key, const char* value)]; a C string is given
    by its bytes before the zero byte. *)
Definition add_tag (this : Builder) (key value : list byte) (buffer : Buffer)
  : outcome Buffer :=
  if max_osm_string_length <? length key
  then length_error "OSM tag key is too long" buffer
  else if max_osm_string_length <? length value
  then length_error "OSM tag value is too long" buffer
  else
    let '(n, buffer) := append (key ++ [x00]) buffer in
    let buffer := add_size this n buffer in
    let '(n, buffer) := append (value ++ [x00]) buffer in
    returns (add_size this n buffer).

(** [add_tag(key, key_length, value, value_length)] *)
Definition add_tag_with_length (this : Builder) (key value : list byte) (buffer : Buffer)
  : outcome Buffer :=
  if max_osm_string_length <? length key
  then length_error "OSM tag key is too long" buffer
  else if max_osm_string_length <? length value
  then length_error "OSM tag value is too long" buffer
  else
    let '(n, buffer) := append_with_zero key buffer in
    let buffer := add_size this n buffer in
    let '(n, buffer) := append_with_zero value buffer in
    returns (add_size this n buffer).

(** [add_tag(const std::string& key, const std::string& value)]:
    [key.data()] ends with a zero byte, which is copied with it. *)
Definition add_tag_string (this : Builder) (key value : list byte) (buffer : Buffer)
  : outcome Buffer :=
  if max_osm_string_length <? length key
  then length_error "OSM tag key is too long" buffer
  else if max_osm_string_length <? length value
  then length_error "OSM tag value is too long" buffer
  else
    let '(n, buffer) := append (key ++ [x00]) buffer in
    let buffer := add_size this n buffer in
    let '(n, buffer) := append (value ++ [x00]) buffer in
    returns (add_size this n buffer).

(** [add_tag(const osmium::Tag& tag)]: the key and the value of a tag
    that is in a buffer already; no length is checked. *)
Definition add_tag_Tag (this : Builder) (tag_key tag_value : list byte) (buffer : Buffer)
  : outcome Buffer :=
  let '(n, buffer) := append (tag_key ++ [x00]) buffer in
  let buffer := add_size this n buffer in
  let '(n, buffer) := append (tag_value ++ [x00]) buffer in
  returns (add_size this n buffer).

(** *** [RelationMemberListBuilder] *)

(** [RelationMember] as it lies in memory: its size, the bytes of a
    member as constructed and where its [role_size] field is. *)
Variable sizeof_RelationMember : nat.
Variable RelationMember_new : Z -> item_type -> bool -> list byte.
Variable offsetof_role_size : nat.

Definition add_role (this : Builder) (member : nat) (role : list byte) (buffer : Buffer)
  : outcome Buffer :=
  if max_osm_string_length <? length role
  then length_error "OSM relation member role is too long" buffer
  else
    let buffer := store 2 (member + offsetof_role_size)
                    ((Z.of_nat (length role) mod 2 ^ 16 + 1) mod 2 ^ 16) buffer in
    let '(n, buffer) := append_with_zero role buffer in
    let buffer := add_size this n buffer in
    returns (add_padding this true buffer).

(** [add_member(type, ref, role, role_length, full_member)];
    [full_member] is the item to copy, if there is one. *)
Definition add_member (this : Builder) (type : item_type) (ref : Z) (role : list byte)
    (full_member : option (list byte)) (buffer : Buffer) : outcome Buffer :=
  let '(member, buffer) := reserve_space sizeof_RelationMember buffer in
  let buffer :=
    with_data buffer
      (write_bytes member
         (RelationMember_new ref type (bool_decide (full_member <> None)))
         (m_data buffer)) in
  let buffer := add_size this sizeof_RelationMember buffer in
  match add_role this member role buffer with
  | returns buffer =>
      match full_member with
      | Some item => returns (add_item this item buffer)
      | None => returns buffer
      end
  | other => other
  end.

(** *** [ChangesetDiscussionBuilder] *)

Variable sizeof_ChangesetComment : nat.
Variable ChangesetComment_new : Z -> Z -> list byte.
Variable offsetof_user_size : nat.
Variable offsetof_text_size : nat.

(** The builder with its member [m_comment], the comment whose text is
    still to come. *)
Record ChangesetDiscussionBuilder : Type := {
  discussion_builder : Builder;
  m_comment : option nat
}.

Definition comment_assertion : string :=
  "You have to always call both add_comment() and then add_comment_text() in that order for each comment!".

Definition add_user (this : Builder) (comment : nat) (user : list byte) (buffer : Buffer)
  : outcome Buffer :=
  if max_osm_string_length <? length user
  then length_error "OSM user name is too long" buffer
  else
    let buffer := store 2 (comment + offsetof_user_size)
                    ((Z.of_nat (length user) mod 2 ^ 16 + 1) mod 2 ^ 16) buffer in
    let '(n, buffer) := append_with_zero user buffer in
    returns (add_size this n buffer).

Definition add_text (this : Builder) (comment : nat) (text : list byte) (buffer : Buffer)
  : outcome Buffer :=
  if (2 ^ 32 - 1 - 1 <? Z.of_nat (length text))%Z
  then length_error "OSM changeset comment is too long" buffer
  else
    let buffer := store 4 (comment + offsetof_text_size)
                    ((Z.of_nat (length text) mod 2 ^ 32 + 1) mod 2 ^ 32) buffer in
    let '(n, buffer) := append_with_zero text buffer in
    let buffer := add_size this n buffer in
    returns (add_padding this true buffer).

Definition with_comment (this : ChangesetDiscussionBuilder) (comment : option nat)
  : ChangesetDiscussionBuilder :=
  {| discussion_builder := discussion_builder this; m_comment := comment |}.

Definition add_comment (this : ChangesetDiscussionBuilder) (date uid : Z) (user : list byte)
    (buffer : Buffer) : outcome (ChangesetDiscussionBuilder * Buffer) :=
  match m_comment this with
  | Some _ => assertion_failed comment_assertion
  | None =>
      let '(comment, buffer) := reserve_space sizeof_ChangesetComment buffer in
      let this := with_comment this (Some comment) in
      let buffer :=
        with_data buffer (write_bytes comment (ChangesetComment_new date uid) (m_data buffer)) in
      let buffer := add_size (discussion_builder this) sizeof_ChangesetComment buffer in
      match add_user (discussion_builder this) comment user buffer with
      | returns buffer => returns (this, buffer)
      | length_error what buffer => length_error what (this, buffer)
      | assertion_failed what => assertion_failed what
      end
  end.

Definition add_comment_text (this : ChangesetDiscussionBuilder) (text : list byte)
    (buffer : Buffer) : outcome (ChangesetDiscussionBuilder * Buffer) :=
  match m_comment this with
  | None => assertion_failed comment_assertion
  | Some comment =>
      let this := with_comment this None in
      match add_text (discussion_builder this) comment text buffer with
      | returns buffer => returns (this, buffer)
      | length_error what buffer => length_error what (this, buffer)
      | assertion_failed what => assertion_failed what
      end
  end.

(** The destructor. *)
Definition ChangesetDiscussionBuilder_delete (this : ChangesetDiscussionBuilder)
    (buffer : Buffer) : outcome Buffer :=
  match m_comment this with
  | Some _ => assertion_failed comment_assertion
  | None => returns (add_padding (discussion_builder this) false buffer)
  end.

(** The calls of a discussion builder, and a sequence of them followed
    by the destructor.  A caller that catches [std::length_error] goes
    on; a failed assertion ends the program. *)
Inductive discussion_call : Type :=
| call_add_comment (date uid : Z) (user : list byte)
| call_add_comment_text (text : list byte).

Definition discussion_step (c : discussion_call) (this : ChangesetDiscussionBuilder)
    (buffer : Buffer) : outcome (ChangesetDiscussionBuilder * Buffer) :=
  match c with
  | call_add_comment date uid user => add_comment this date uid user buffer
  | call_add_comment_text text => add_comment_text this text buffer
  end.

Fixpoint discussion_run (calls : list discussion_call) (this : ChangesetDiscussionBuilder)
    (buffer : Buffer) : outcome Buffer :=
  match calls with
  | [] => ChangesetDiscussionBuilder_delete this buffer
  | c :: rest =>
      match discussion_step c this buffer with
      | returns (this, buffer) => discussion_run rest this buffer
      | length_error _ (this, buffer) => discussion_run rest this buffer
      | assertion_failed what => assertion_failed what
      end
  end.

(** *** [OSMObjectBuilder<TDerived, T>] *)

(** [T{}] in memory. *)
Definition T_new (T : object_layout) : list byte :=
  le_bytes 4 (Z.of_nat (sizeof_T T)) ++ T_fields T.

Definition min_size_for_user : nat := padded_length (sizeof_string_size_type + 1).

(** The user size of an OSM object follows its fixed part, and the user
    name follows the user size. *)
Definition user_position (T : object_layout) (this : Builder) : nat :=
  item_pos this + sizeof_T T.

Definition user_size (T : object_layout) (this : Builder) (buffer : Buffer) : Z :=
  load 2 (user_position T this) buffer.

Definition set_user_size (T : object_layout) (this : Builder) (size : Z) (buffer : Buffer)
  : Buffer :=
  store 2 (user_position T this) (size mod 2 ^ 16) buffer.

Definition user (T : object_layout) (this : Builder) (buffer : Buffer) : list byte :=
  c_str (user_position T this + sizeof_string_size_type) buffer.

Definition OSMObjectBuilder_new (T : object_layout) (buffer : Buffer)
    (parent : option Builder) : Builder * Buffer :=
  let '(this, buffer) := Builder_new buffer parent (sizeof_T T + min_size_for_user) in
  let buffer := with_data buffer (write_bytes (item_pos this) (T_new T) (m_data buffer)) in
  let buffer := add_size this min_size_for_user buffer in
  let buffer :=
    with_data buffer
      (write_bytes (item_pos this + sizeof_T T) (repeat x00 min_size_for_user)
         (m_data buffer)) in
  (this, set_user_size T this 1 buffer).

Definition set_user_assertion : string :=
  "set_user() must be called at most once and before any sub-builders".

(** [set_user(const char* user, const string_size_type length)]; the
    bytes of [user] are the [length] bytes at the pointer. *)
Definition set_user (T : object_layout) (this : Builder) (user : list byte)
    (buffer : Buffer) : outcome Buffer :=
  let length := length user in
  let size_of_object := sizeof_T T + sizeof_string_size_type in
  if negb ((user_size T this buffer =? 1)%Z
           && (size this buffer <=? Z.of_nat (size_of_object + padded_length 1))%Z)
  then assertion_failed set_user_assertion
  else
    let available_space := min_size_for_user - sizeof_string_size_type - 1 in
    let buffer :=
      if available_space <? length then
        let space_needed := padded_length (length - available_space) in
        let '(target, buffer) := reserve_space space_needed buffer in
        let buffer :=
          with_data buffer (write_bytes target (repeat x00 space_needed) (m_data buffer)) in
        add_size this space_needed buffer
      else buffer in
    let buffer :=
      with_data buffer
        (write_bytes (item_pos this + size_of_object) user (m_data buffer)) in
    returns (set_user_size T this (Z.of_nat length + 1) buffer).

(** *** [ChangesetBuilder] *)

Definition Changeset_min_size_for_user : nat := padded_length 1.

Definition Changeset_user_size (C : changeset_layout) (this : Builder) (buffer : Buffer)
  : Z :=
  load 2 (item_pos this + offsetof_m_user_size C) buffer.

Definition Changeset_set_user_size (C : changeset_layout) (this : Builder) (size : Z)
    (buffer : Buffer) : Buffer :=
  store 2 (item_pos this + offsetof_m_user_size C) (size mod 2 ^ 16) buffer.

Definition Changeset_user (C : changeset_layout) (this : Builder) (buffer : Buffer)
  : list byte :=
  c_str (item_pos this + sizeof_T (Changeset_object C)) buffer.

Definition ChangesetBuilder_new (C : changeset_layout) (buffer : Buffer)
    (parent : option Builder) : Builder * Buffer :=
  let sizeof_Changeset := sizeof_T (Changeset_object C) in
  let '(this, buffer) :=
    Builder_new buffer parent (sizeof_Changeset + Changeset_min_size_for_user) in
  let buffer :=
    with_data buffer
      (write_bytes (item_pos this) (T_new (Changeset_object C)) (m_data buffer)) in
  let buffer := add_size this Changeset_min_size_for_user buffer in
  let buffer :=
    with_data buffer
      (write_bytes (item_pos this + sizeof_Changeset)
         (repeat x00 Changeset_min_size_for_user) (m_data buffer)) in
  (this, Changeset_set_user_size C this 1 buffer).

Definition Changeset_set_user (C : changeset_layout) (this : Builder) (user : list byte)
    (buffer : Buffer) : outcome Buffer :=
  let length := length user in
  let sizeof_Changeset := sizeof_T (Changeset_object C) in
  if negb ((Changeset_user_size C this buffer =? 1)%Z
           && (size this buffer <=? Z.of_nat (sizeof_Changeset + padded_length 1))%Z)
  then assertion_failed set_user_assertion
  else
    let available_space := Changeset_min_size_for_user - 1 in
    let buffer :=
      if available_space <? length then
        let space_needed := padded_length (length - available_space) in
        let '(target, buffer) := reserve_space space_needed buffer in
        let buffer :=
          with_data buffer (write_bytes target (repeat x00 space_needed) (m_data buffer)) in
        add_size this space_needed buffer
      else buffer in
    let buffer :=
      with_data buffer
        (write_bytes (item_pos this + sizeof_Changeset) user (m_data buffer)) in
    returns (Changeset_set_user_size C this (Z.of_nat length + 1) buffer).

(** What the two [set_user] have in common, for the proofs: where the
    user size and the name are, how much room the constructor left for
    the name and the bound of the assertion. *)
Definition set_user_at (this : Builder)
    (user_size_pos name_pos available_space assert_bound : nat)
    (user : list byte) (buffer : Buffer) : outcome Buffer :=
  let length := length user in
  if negb ((load 2 user_size_pos buffer =? 1)%Z
           && (size this buffer <=? Z.of_nat assert_bound)%Z)
  then assertion_failed set_user_assertion
  else
    let buffer :=
      if available_space <? length then
        let space_needed := padded_length (length - available_space) in
        let '(target, buffer) := reserve_space space_needed buffer in
        let buffer :=
          with_data buffer (write_bytes target (repeat x00 space_needed) (m_data buffer)) in
        add_size this space_needed buffer
      else buffer in
    let buffer := with_data buffer (write_bytes name_pos user (m_data buffer)) in
    returns (store 2 user_size_pos ((Z.of_nat length + 1) mod 2 ^ 16) buffer).

(** The state in which [set_user] may be called: it was not called
    before, so the user size is 1 and the room for the name holds zero
    bytes, and no sub-builder was opened, so the object ends where the
    buffer ends; the items of the ancestors lie before the object. *)
Definition before_set_user (T : object_layout) (this : Builder) (buffer : Buffer) : Prop :=
  user_size T this buffer = 1%Z /\
  size this buffer = Z.of_nat (sizeof_T T + min_size_for_user) /\
  written buffer = item_pos this + sizeof_T T + min_size_for_user /\
  read_bytes (user_position T this + sizeof_string_size_type)
    (min_size_for_user - sizeof_string_size_type) (m_data buffer)
    = repeat x00 (min_size_for_user - sizeof_string_size_type) /\
  Forall (fun h => h + 4 <= item_pos this) (open_items_of (m_parent this)).

Definition Changeset_before_set_user (C : changeset_layout) (this : Builder)
    (buffer : Buffer) : Prop :=
  let sizeof_Changeset := sizeof_T (Changeset_object C) in
  Changeset_user_size C this buffer = 1%Z /\
  size this buffer = Z.of_nat (sizeof_Changeset + Changeset_min_size_for_user) /\
  written buffer = item_pos this + sizeof_Changeset + Changeset_min_size_for_user /\
  read_bytes (item_pos this + sizeof_Changeset) Changeset_min_size_for_user (m_data buffer)
    = repeat x00 Changeset_min_size_for_user /\
  Forall (fun h => h + 4 <= item_pos this) (open_items_of (m_parent this)).

(** What [set_user] leaves: the user size, the name in the buffer
    followed by zero bytes up to the end of the buffer, and the
    [extra] bytes by which the buffer grew. *)
Definition user_stored (user_size_pos name_pos : nat) (user : list byte) (extra : nat)
    (buffer buffer' : Buffer) : Prop :=
  load 2 user_size_pos buffer' = (Z.of_nat (length user) + 1)%Z /\
  read_bytes name_pos (length user) (m_data buffer') = user /\
  name_pos + length user < written buffer' /\
  drop (name_pos + length user) (m_data buffer')
    = repeat x00 (written buffer' - (name_pos + length user)) /\
  written buffer' = written buffer + extra /\
  m_committed buffer' = m_committed buffer.

(** *** The other overloads of [set_user] *)

(** [std::numeric_limits<string_size_type>::max()] *)
Definition string_size_type_max : Z := 65535.

(** [static_cast<string_size_type>(len)] *)
Definition to_string_size_type (len : nat) : nat := Z.to_nat (Z.of_nat len mod 2 ^ 16).

(** [set_user(const char* user)] of an object builder; [user] are the
    bytes before the zero byte, of which [set_user(user, length)] takes
    the first [length]. *)
Definition set_user_c_str (T : object_layout) (this : Builder) (user : list byte)
    (buffer : Buffer) : outcome Buffer :=
  let len := length user in
  if negb (Z.of_nat len <? string_size_type_max)%Z
  then assertion_failed "len < std::numeric_limits<string_size_type>::max()"
  else set_user T this (take (to_string_size_type len) user) buffer.

(** [set_user(const std::string& user)] of an object builder *)
Definition set_user_string (T : object_layout) (this : Builder) (user : list byte)
    (buffer : Buffer) : outcome Buffer :=
  if negb (Z.of_nat (length user) <? string_size_type_max)%Z
  then assertion_failed "user.size() < std::numeric_limits<string_size_type>::max()"
  else set_user T this (take (to_string_size_type (length user)) user) buffer.

(** [set_user(const char* user)] of a changeset builder *)
Definition Changeset_set_user_c_str (C : changeset_layout) (this : Builder)
    (user : list byte) (buffer : Buffer) : outcome Buffer :=
  let len := length user in
  if negb (Z.of_nat len <=? string_size_type_max)%Z
  then assertion_failed "len <= std::numeric_limits<string_size_type>::max()"
  else Changeset_set_user C this (take (to_string_size_type len) user) buffer.

(** [set_user(const std::string& user)] of a changeset builder *)
Definition Changeset_set_user_string (C : changeset_layout) (this : Builder)
    (user : list byte) (buffer : Buffer) : outcome Buffer :=
  if negb (Z.of_nat (length user) <? string_size_type_max)%Z
  then assertion_failed "user.size() < std::numeric_limits<string_size_type>::max()"
  else Changeset_set_user C this (take (to_string_size_type (length user)) user) buffer.

(** *** The builders of the lists *)

(** The constructor of [TagListBuilder], of [NodeRefListBuilder<T>], of
    [RelationMemberListBuilder] and of [ChangesetDiscussionBuilder]:
    [Builder(buffer, parent, sizeof(L))] and [new (&item()) L{}], where
    [L] is the list. *)
Definition list_builder_new (L : object_layout) (buffer : Buffer)
    (parent : option Builder) : Builder * Buffer :=
  let '(this, buffer) := Builder_new buffer parent (sizeof_T L) in
  (this, with_data buffer (write_bytes (item_pos this) (T_new L) (m_data buffer))).

Definition TagListBuilder_new (TagList : object_layout) (buffer : Buffer)
    (parent : option Builder) : Builder * Buffer :=
  list_builder_new TagList buffer parent.

Definition NodeRefListBuilder_new (T : object_layout) (buffer : Buffer)
    (parent : option Builder) : Builder * Buffer :=
  list_builder_new T buffer parent.

Definition RelationMemberListBuilder_new (RelationMemberList : object_layout)
    (buffer : Buffer) (parent : option Builder) : Builder * Buffer :=
  list_builder_new RelationMemberList buffer parent.

Definition ChangesetDiscussionBuilder_new (ChangesetDiscussion : object_layout)
    (buffer : Buffer) (parent : option Builder) : ChangesetDiscussionBuilder * Buffer :=
  let '(this, buffer) := list_builder_new ChangesetDiscussion buffer parent in
  ({| discussion_builder := this; m_comment := None |}, buffer).

(** The destructor of [TagListBuilder], of [NodeRefListBuilder<T>] and of
    [RelationMemberListBuilder]: [add_padding()]. *)
Definition list_builder_delete (this : Builder) (buffer : Buffer) : Buffer :=
  add_padding this false buffer.

(** [OSMObjectBuilder::add_tags]: a tag list builder with this builder as
    its parent, a tag for every pair, and the destructor of the tag list
    builder, which also runs when [add_tag] throws. *)
Fixpoint add_tags_loop (tl_builder : Builder) (tags : list (list byte * list byte))
    (buffer : Buffer) : outcome Buffer :=
  match tags with
  | [] => returns (list_builder_delete tl_builder buffer)
  | p :: rest =>
      match add_tag tl_builder (fst p) (snd p) buffer with
      | returns buffer => add_tags_loop tl_builder rest buffer
      | length_error what buffer =>
          length_error what (list_builder_delete tl_builder buffer)
      | assertion_failed what => assertion_failed what
      end
  end.

Definition add_tags (TagList : object_layout) (this : Builder)
    (tags : list (list byte * list byte)) (buffer : Buffer) : outcome Buffer :=
  let '(tl_builder, buffer) := TagListBuilder_new TagList buffer (Some this) in
  add_tags_loop tl_builder tags buffer.

(** [NodeRefListBuilder<T>::add_node_ref(const NodeRef&)]: a copy of the
    node reference, given by its [sizeof(NodeRef)] bytes. *)
Variable sizeof_NodeRef : nat.

Definition add_node_ref (this : Builder) (node_ref : list byte) (buffer : Buffer)
  : Buffer :=
  let '(target, buffer) := reserve_space sizeof_NodeRef buffer in
  let buffer := with_data buffer (write_bytes target node_ref (m_data buffer)) in
  add_size this sizeof_NodeRef buffer.

(** [WayBuilder::add_node_refs]: a way node list builder with this builder
    as its parent, the node references one after the other, and the
    destructor of the list builder. *)
Definition add_node_refs (WayNodeList : object_layout) (this : Builder)
    (nodes : list (list byte)) (buffer : Buffer) : Buffer :=
  let '(builder, buffer) := NodeRefListBuilder_new WayNodeList buffer (Some this) in
  let buffer := fold_left (fun buffer node_ref => add_node_ref builder node_ref buffer)
                  nodes buffer in
  list_builder_delete builder buffer.

End Builders.

(** The bytes that [set_user] reserves for a name of [length] bytes when
    the constructor left room for [available_space] bytes. *)
Definition reserved_for_user (available_space length : nat) : nat :=
  if available_space <? length then padded_length (length - available_space) else 0.

(** [untouched n0 hs d d']: every byte of [d] below [n0] that is not in
    the size field of one of the items at [hs] is the same in [d']. *)
Definition untouched (n0 : nat) (hs : list nat) (d d' : list byte) : Prop :=
  length d <= length d' /\
  forall p, p < n0 -> (forall h, In h hs -> p < h \/ h + 4 <= p) -> d' !! p = d !! p.

(** The items written before a call are byte for byte what they were:
    every range of bytes of the buffer before the call that leaves out
    the size fields of the item under construction and of its ancestors
    reads the same after the call, and what is committed stays
    committed. *)
Definition siblings_identical (this : Builder) (buffer buffer' : Buffer) : Prop :=
  m_committed buffer' = m_committed buffer /\
  forall pos n,
    pos + n <= written buffer ->
    (forall h, In h (open_items this) -> pos + n <= h \/ h + 4 <= pos) ->
    read_bytes pos n (m_data buffer') = read_bytes pos n (m_data buffer).

(** Calls that alternate: begin, end, begin, end, ... *)
Fixpoint alternates (pending : bool) (calls : list discussion_call) : bool :=
  match calls with
  | [] => negb pending
  | call_add_comment _ _ _ :: rest => negb pending && alternates true rest
  | call_add_comment_text _ :: rest => pending && alternates false rest
  end.

(** The items of a builder and of its ancestors lie one inside the other:
    each starts after the size field of its parent, and the size field of
    the innermost ends at [bound] at the latest. *)
Fixpoint nested_items (this : Builder) (bound : nat) : Prop :=
  match this with
  | top_level pos => pos + 4 <= bound
  | nested pos parent => pos + 4 <= bound /\ nested_items parent pos
  end.

(** [extended counted buffer bytes buffer']: [buffer'] is [buffer] with
    [bytes] appended at its end and counted in the size of the items at
    [counted]; what is committed stays committed, and every byte written
    before that is not in the size field of one of these items is what it
    was. *)
Definition extended (counted : list nat) (buffer : Buffer) (bytes : list byte)
    (buffer' : Buffer) : Prop :=
  m_committed buffer' = m_committed buffer /\
  drop (written buffer) (m_data buffer') = bytes /\
  untouched (written buffer) counted (m_data buffer) (m_data buffer') /\
  Forall (fun h => Item_byte_size h buffer'
                   = ((Item_byte_size h buffer + Z.of_nat (length bytes)) mod 2 ^ 32)%Z)
    counted.

End builder.

(** * Example inputs *)

(** ** Container files *)

Definition osm_header_message (datasize : Z) : list byte :=
  [x0a; x09] ++ bytes_of "OSMHeader" ++ [x18; byte_of_Z datasize].

Definition osm_data_message (datasize : Z) : list byte :=
  [x0a; x07] ++ bytes_of "OSMData" ++ [x18; byte_of_Z datasize].

Definition example_first : block :=
  {| header := osm_header_message 3; body := [x01; x02; x03] |}.

Definition example_data : list block :=
  [ {| header := osm_data_message 2; body := [x11; x12] |};
    {| header := osm_data_message 1; body := [x21] |};
    {| header := osm_data_message 4; body := [x31; x32; x33; x34] |} ].

Definition example_file : list byte := container_file example_first example_data.


(** The table the constructor builds for [example_file]. *)
Definition example_table : PbfBlockIndexTable :=
  {| m_block_starts :=
       [ {| file_offset := 35; first_item_id_or_zero := 0; datasize := 2;
            first_item_type_or_zero := undefined |};
         {| file_offset := 52; first_item_id_or_zero := 0; datasize := 1;
            first_item_type_or_zero := undefined |};
         {| file_offset := 68; first_item_id_or_zero := 0; datasize := 4;
            first_item_type_or_zero := undefined |} ];
     m_fd := {| contents := example_file; pos := 72 |} |}.

(** A decoder to run the examples with: every byte of the body is a node
    with that id, unless nodes are not asked for. *)
Definition example_decoder (decoder : PBFDataBlobDecoder) : option memory.Buffer :=
  if Z.land (read_types decoder) osm_entity_bits.node =? 0 then Some []
  else Some (map (fun b => {| memory.type := node; memory.id := uchar b |})
               (input_buffer decoder)).

(** A file whose header block has an empty type and whose data block has
    the type [OSM]. *)
Definition short_type_file : list byte :=
  container_file
    {| header := [x0a; x00; x18; x03]; body := [x01; x02; x03] |}
    [ {| header := [x0a; x03] ++ bytes_of "OSM" ++ [x18; x02]; body := [x11; x12] |} ].

(** A file whose data block has no type field at all. *)
Definition no_type_file : list byte :=
  container_file
    {| header := osm_header_message 3; body := [x01; x02; x03] |}
    [ {| header := [x18; x02]; body := [x11; x12] |} ].

(** ** Builders *)

Module builder_examples.

Import builder.
Local Open Scope nat_scope.

(** Reserved memory that was not written shows as [0xcd]. *)
Definition uninitialized (pos : nat) : byte := xcd.

(** [256 * 4], the value of [osmium::max_osm_string_length]. *)
Definition max_osm_string_length : nat := 1024.

(** A node of 40 bytes: the size, the item type, and fields at zero. *)
Definition Node : object_layout :=
  {| sizeof_T := 40;
     T_fields := [x01; x00; x00; x00] ++ repeat x00 32;
     T_fields_length := eq_refl |}.

(** A changeset of 56 bytes with its user size at offset 52. *)
Definition Changeset : changeset_layout :=
  {| Changeset_object :=
       {| sizeof_T := 56;
          T_fields := [x05; x00; x00; x00] ++ repeat x00 48;
          T_fields_length := eq_refl |};
     offsetof_m_user_size := 52;
     m_user_size_inside := ltac:(cbn; lia) |}.

Definition sizeof_RelationMember : nat := 16.

Definition RelationMember_new (ref : Z) (type : item_type) (full : bool) : list byte :=
  le_bytes 8 ref ++ repeat x00 8.

Definition offsetof_role_size : nat := 10.

Definition sizeof_ChangesetComment : nat := 16.

Definition ChangesetComment_new (date uid : Z) : list byte :=
  le_bytes 4 date ++ le_bytes 4 uid ++ repeat x00 8.

Definition offsetof_user_size : nat := 12.

Definition offsetof_text_size : nat := 8.

(** A buffer with one committed item of 16 bytes and, under
    construction at offset 16, a list item that has its header only. *)
Definition list_under_construction : Buffer :=
  {| m_data := le_bytes 4 12 ++ [x11; x00; x00; x00] ++ bytes_of "k" ++ [x00]
               ++ bytes_of "v" ++ [x00] ++ repeat x00 4
               ++ le_bytes 4 8 ++ [x13; x00; x00; x00];
     m_committed := 16 |}.

Definition list_builder : Builder := top_level 16.

Definition empty_buffer : Buffer := {| m_data := []; m_committed := 0 |}.

(** A string of 1025 bytes. *)
Definition long_string : list byte := repeat x61 1025.

(** A tag list and a way node list as constructed: 8 bytes, the size and
    the item type. *)
Definition TagList : object_layout :=
  {| sizeof_T := 8; T_fields := [x11; x00; x00; x00]; T_fields_length := eq_refl |}.

Definition WayNodeList : object_layout :=
  {| sizeof_T := 8; T_fields := [x12; x00; x00; x00]; T_fields_length := eq_refl |}.

(** A node reference of 16 bytes: the id and the location. *)
Definition sizeof_NodeRef : nat := 16.

Definition NodeRef_new (ref : Z) : list byte := le_bytes 8 ref ++ repeat xff 8.

(** A node under construction in an empty buffer, and its builder. *)
Definition node_under_construction : Buffer :=
  snd (OSMObjectBuilder_new uninitialized Node empty_buffer None).

Definition node_builder : Builder := top_level 0.

(** A changeset under construction in an empty buffer, and its builder. *)
Definition changeset_under_construction : Buffer :=
  snd (ChangesetBuilder_new uninitialized Changeset empty_buffer None).

Definition changeset_builder : Builder := top_level 0.

(** A name of [2^16 - 1] bytes. *)
Definition longest_name : list byte := repeat x61 (Z.to_nat 65535).

End builder_examples.

(** * Properties of the random access layer *)

(** ** Bytes and the length prefix *)

Lemma uchar_range (b : byte) : 0 <= uchar b < 256.
Proof.
  unfold uchar. pose proof (Byte.to_N_bounded b). lia.
Qed.

Lemma uchar_byte_of_Z (z : Z) : uchar (byte_of_Z z) = z mod 256.
Proof.
  unfold byte_of_Z, uchar.
  assert (Hr : 0 <= z mod 256 < 256) by (apply Z.mod_pos_bound; lia).
  destruct (Byte.of_N (Z.to_N (z mod 256))) as [b|] eqn:E.
  - apply Byte.to_of_N in E. rewrite E. lia.
  - apply Byte.of_N_None_iff in E. lia.
Qed.

Lemma land_shiftl_low (hi lo k : Z) :
  0 <= k -> 0 <= lo < 2 ^ k -> Z.land (Z.shiftl hi k) lo = 0.
Proof.
  intros Hk Hlo. apply Z.bits_inj'. intros n Hn.
  rewrite Z.land_spec, Z.bits_0.
  destruct (Z.ltb_spec n k) as [Hlt|Hge].
  - rewrite Z.shiftl_spec_low by lia. reflexivity.
  - rewrite <- (Z.mod_small lo (2 ^ k)) by lia.
    rewrite Z.mod_pow2_bits_high by lia. apply andb_false_r.
Qed.

Lemma lor_shiftl_add (hi lo k : Z) :
  0 <= k -> 0 <= lo < 2 ^ k -> Z.lor lo (Z.shiftl hi k) = lo + hi * 2 ^ k.
Proof.
  intros Hk Hlo.
  rewrite Z.lor_comm, <- Z.lxor_lor by (apply land_shiftl_low; lia).
  rewrite <- Z.add_nocarry_lxor by (apply land_shiftl_low; lia).
  rewrite Z.shiftl_mul_pow2 by lia. lia.
Qed.

Lemma get_size_unsigned (b0 b1 b2 b3 : byte) :
  get_size_in_network_byte_order false [b0; b1; b2; b3] = big_endian_u32 b0 b1 b2 b3.
Proof.
  pose proof (uchar_range b0). pose proof (uchar_range b1).
  pose proof (uchar_range b2). pose proof (uchar_range b3).
  unfold get_size_in_network_byte_order, big_endian_u32, char_value, shl32, to_uint32.
  cbn [nth andb].
  rewrite !(Z.mod_small (uchar _) (2 ^ 32)) by lia.
  rewrite !Z.shiftl_mul_pow2 by lia.
  rewrite !(Z.mod_small (uchar _ * _) (2 ^ 32)) by lia.
  rewrite <- !Z.shiftl_mul_pow2 by lia.
  rewrite (lor_shiftl_add (uchar b2) (uchar b3) 8) by lia.
  rewrite (lor_shiftl_add (uchar b1) _ 16) by lia.
  rewrite (lor_shiftl_add (uchar b0) _ 24) by lia.
  rewrite !Z.shiftl_mul_pow2 by lia. lia.
Qed.

Lemma char_value_low (sgn : bool) (b : byte) : uchar b < 128 -> char_value sgn b = uchar b.
Proof.
  intros H. unfold char_value.
  destruct (Z.leb_spec 128 (uchar b)); [lia|]. now rewrite andb_false_r.
Qed.

Lemma get_size_low_bytes (sgn : bool) (b0 b1 b2 b3 : byte) :
  uchar b0 < 128 -> uchar b1 < 128 -> uchar b2 < 128 -> uchar b3 < 128 ->
  get_size_in_network_byte_order sgn [b0; b1; b2; b3] = big_endian_u32 b0 b1 b2 b3.
Proof.
  intros H0 H1 H2 H3. rewrite <- get_size_unsigned.
  unfold get_size_in_network_byte_order. cbn [nth].
  now rewrite !char_value_low by assumption.
Qed.

Lemma get_size_be32 (sgn : bool) (h : Z) :
  0 <= h < 128 -> get_size_in_network_byte_order sgn (be32 h) = h.
Proof.
  intros Hh. unfold be32.
  assert (E24 : h / 2 ^ 24 = 0) by (apply Z.div_small; lia).
  assert (E16 : h / 2 ^ 16 = 0) by (apply Z.div_small; lia).
  assert (E8 : h / 2 ^ 8 = 0) by (apply Z.div_small; lia).
  rewrite E24, E16, E8.
  rewrite get_size_low_bytes; unfold big_endian_u32;
    rewrite ?uchar_byte_of_Z, ?Z.mod_0_l, ?Z.mod_small by lia; lia.
Qed.

(** ** Reading from the file *)

Lemma read_exactly_loop_total (fuel : nat) (fd : file) (buffer : list byte) (to_read : Z) :
  to_read < Z.of_nat fuel -> is_Some (read_exactly_loop fuel fd buffer to_read).
Proof.
  revert fd buffer to_read.
  induction fuel as [|fuel IH]; intros fd buffer to_read Hlt; cbn [read_exactly_loop].
  - destruct (Z.gtb_spec to_read 0); [lia | eauto].
  - destruct (Z.gtb_spec to_read 0); [| eauto].
    destruct (reliable_read fd to_read) as [chunk fd'].
    destruct (Z.eqb_spec (Z.of_nat (length chunk)) 0); [eauto |].
    apply IH. lia.
Qed.

Lemma read_exactly_all (fd : file) (size : Z) :
  0 <= size -> 0 <= pos fd ->
  pos fd + size <= Z.of_nat (length (contents fd)) ->
  read_exactly fd size =
    (true, take (Z.to_nat size) (drop (Z.to_nat (pos fd)) (contents fd)),
     {| contents := contents fd; pos := pos fd + size |}).
Proof.
  intros Hs Hp Hfit. unfold read_exactly.
  cbn [read_exactly_loop].
  destruct (Z.gtb_spec size 0) as [Hgt|Hle].
  - unfold reliable_read.
    assert (Hlen : length (take (Z.to_nat size) (drop (Z.to_nat (pos fd)) (contents fd)))
                   = Z.to_nat size).
    { rewrite length_take, length_drop. lia. }
    rewrite Hlen.
    destruct (Z.eqb_spec (Z.of_nat (Z.to_nat size)) 0); [lia|].
    replace (size - Z.of_nat (Z.to_nat size)) with 0 by lia.
    destruct (Z.to_nat size) eqn:E; [lia|]. cbn [read_exactly_loop].
    cbn. repeat f_equal. lia.
  - assert (size = 0) by lia. subst size. cbn.
    destruct fd as [c p]. cbn. repeat f_equal. lia.
Qed.

Lemma read_exactly_short (fd : file) (size : Z) :
  0 < size -> 0 <= pos fd ->
  Z.of_nat (length (contents fd)) < pos fd + size ->
  fst (fst (read_exactly fd size)) = false.
Proof.
  intros Hpos Hp Hshort. unfold read_exactly.
  cbn [read_exactly_loop].
  destruct (Z.gtb_spec size 0) as [_|]; [|lia].
  unfold reliable_read.
  set (chunk := take (Z.to_nat size) (drop (Z.to_nat (pos fd)) (contents fd))).
  assert (Hlen : Z.of_nat (length chunk) = Z.max 0 (Z.of_nat (length (contents fd)) - pos fd)).
  { unfold chunk. rewrite length_take, length_drop. lia. }
  destruct (Z.eqb_spec (Z.of_nat (length chunk)) 0) as [|Hne]; [reflexivity|].
  destruct (Z.to_nat size) as [|fuel] eqn:E; [lia|].
  cbn [read_exactly_loop].
  destruct (Z.gtb_spec (size - Z.of_nat (length chunk)) 0) as [_|]; [|lia].
  destruct fuel as [|fuel]; [lia|].
  assert (Hnil : take (Z.to_nat (size - Z.of_nat (length chunk)))
                   (drop (Z.to_nat (pos fd + Z.of_nat (length chunk))) (contents fd)) = []).
  { rewrite drop_ge by lia. apply take_nil. }
  unfold reliable_read. cbn [contents pos]. rewrite Hnil. reflexivity.
Qed.

Lemma read_exactly_true (fd : file) (size : Z) (buffer : list byte) (fd' : file) :
  0 <= size -> 0 <= pos fd ->
  read_exactly fd size = (true, buffer, fd') ->
  (0 < size -> pos fd + size <= Z.of_nat (length (contents fd))) /\
  buffer = take (Z.to_nat size) (drop (Z.to_nat (pos fd)) (contents fd)) /\
  fd' = {| contents := contents fd; pos := pos fd + size |}.
Proof.
  intros Hs Hp E.
  destruct (Z.eq_dec size 0) as [->|Hne].
  - unfold read_exactly in E. cbn in E. inversion E; subst.
    split; [lia|]. split; [reflexivity|].
    destruct fd'; cbn; f_equal; lia.
  - destruct (Z.le_gt_cases (pos fd + size) (Z.of_nat (length (contents fd)))) as [Hfit|Hshort].
    + rewrite read_exactly_all in E by assumption. inversion E. auto.
    + pose proof (read_exactly_short fd size ltac:(lia) Hp ltac:(lia)) as F.
      rewrite E in F. discriminate.
Qed.

(** ** Decoding a blob header *)

Lemma last_cons_default {A : Type} (a d : A) (l : list A) :
  List.last (a :: l) d = List.last l a.
Proof.
  revert a d. induction l as [|x l IH]; intros a d; [reflexivity|].
  change (List.last (a :: x :: l) d) with (List.last (x :: l) d).
  rewrite !IH. reflexivity.
Qed.

Lemma fold_blob_header_fields (fields : list field) (ty : list byte) (ds : Z) :
  fold_left blob_header_field fields (ty, ds) =
  (List.last (type_fields fields) ty,
   List.last (map (fun v => to_size_t (get_int32 v)) (datasize_fields fields)) ds).
Proof.
  revert ty ds. induction fields as [|f fields IH]; intros ty ds; [reflexivity|].
  cbn [fold_left]. unfold type_fields, datasize_fields in *. cbn [flat_map].
  unfold blob_header_field at 2.
  destruct (value f) as [v|bs|view|bs]; cbn [app map]; try apply IH.
  - destruct (tag f =? FileFormat.required_int32_datasize); rewrite IH; cbn [app map];
      [rewrite last_cons_default|]; reflexivity.
  - destruct (tag f =? FileFormat.required_string_type); rewrite IH; cbn [app map];
      [rewrite last_cons_default|]; reflexivity.
Qed.

Lemma strncmp_refl (s : list byte) (n : nat) : strncmp s s n = 0.
Proof.
  revert s. induction n as [|n IH]; intros s; cbn [strncmp]; [reflexivity|].
  rewrite Z.eqb_refl. destruct (uchar (hd x00 s) =? 0); [reflexivity | apply IH].
Qed.

Lemma to_size_t_get_int32_small (n : Z) :
  0 <= n < 2 ^ 31 -> to_size_t (get_int32 n) = n.
Proof.
  intros Hn. unfold to_size_t, get_int32, to_int32.
  rewrite (Z.mod_small (n + 2 ^ 31)) by lia.
  rewrite Z.mod_small by lia. lia.
Qed.

Lemma decode_blob_header_well_formed
    (read_message : list byte -> option (list field)) (ty : list byte) (b : block) :
  well_formed_block read_message ty b ->
  decode_blob_header read_message (header b) ty = inr (Z.of_nat (length (body b))).
Proof.
  intros (Hh & Hb & fields & Hread & Hty & Hds).
  unfold decode_blob_header. rewrite Hread, fold_blob_header_fields, Hty, Hds.
  cbn [map List.last]. unfold max_block_size in Hb.
  rewrite to_size_t_get_int32_small by lia.
  destruct (Z.eqb_spec (Z.of_nat (length (body b))) 0); [lia|].
  rewrite strncmp_refl. reflexivity.
Qed.

(** ** One block of a well-formed file *)

Lemma length_be32 (v : Z) : length (be32 v) = 4%nat.
Proof. reflexivity. Qed.

Lemma take_drop_middle {A : Type} (pre mid post : list A) (n p : nat) :
  p = length pre -> n = length mid -> take n (drop p (pre ++ mid ++ post)) = mid.
Proof.
  intros -> ->. rewrite drop_app_length. apply take_app_length.
Qed.

Lemma digest_well_formed_header
    (sgn : bool) (read_message : list byte -> option (list field))
    (pre tail : list byte) (b : block) (starts : list pbf_block_start)
    (should_index_block : bool) (file_size : Z) :
  let file := pre ++ be32 (Z.of_nat (length (header b))) ++ header b ++ tail in
  well_formed_block read_message
    (if should_index_block then bytes_of "OSMData" else bytes_of "OSMHeader") b ->
  Z.of_nat (length pre) + Z.of_nat (length (block_bytes b)) < 2 ^ 63 ->
  digest_and_skip_block sgn read_message
    {| m_block_starts := starts;
       m_fd := {| contents := file; pos := Z.of_nat (length pre) |} |}
    (Z.of_nat (length pre)) file_size should_index_block
  = inr (Z.of_nat (length pre) + Z.of_nat (length (block_bytes b)),
         {| m_block_starts :=
              if should_index_block
              then starts ++ [block_start_at (Z.of_nat (length pre)) b]
              else starts;
            m_fd := {| contents := file;
                       pos := Z.of_nat (length pre) + Z.of_nat (length (block_bytes b)) |} |}).
Proof.
  intros file Hwf Hlen.
  pose proof (decode_blob_header_well_formed _ _ _ Hwf) as Hdec.
  destruct Hwf as (Hh & Hb & _).
  unfold max_small_blob_header_size in Hh. unfold max_block_size in Hb.
  set (h := length (header b)) in *. set (n := length (body b)) in *.
  assert (Hfile : Z.of_nat (length file)
                  = Z.of_nat (length pre) + 4 + Z.of_nat h + Z.of_nat (length tail)).
  { unfold file. rewrite !length_app, length_be32. fold h. lia. }
  assert (Hbl : Z.of_nat (length (block_bytes b)) = 4 + Z.of_nat h + Z.of_nat n).
  { unfold block_bytes. rewrite !length_app, length_be32. fold h n. lia. }
  unfold digest_and_skip_block, read_blob_header_size_from_file. cbn [m_fd m_block_starts].
  rewrite read_exactly_all by (cbn [pos contents]; lia).
  cbn [pos contents negb].
  assert (E1 : take (Z.to_nat 4) (drop (Z.to_nat (Z.of_nat (length pre))) file)
               = be32 (Z.of_nat h)).
  { rewrite Nat2Z.id. unfold file. apply take_drop_middle; reflexivity. }
  rewrite E1, get_size_be32 by lia.
  unfold check_small_size, max_small_blob_header_size, to_uint32.
  destruct (Z.gtb_spec (Z.of_nat h) (64 mod 2 ^ 32)) as [Hgt|_];
    [rewrite Z.mod_small in Hgt by lia; lia|].
  cbn [bind_error].
  rewrite read_exactly_all by (cbn [pos contents]; lia).
  cbn [pos contents negb].
  assert (E2 : take (Z.to_nat (Z.of_nat h)) (drop (Z.to_nat (Z.of_nat (length pre) + 4)) file)
               = header b).
  { unfold file. rewrite (app_assoc pre (be32 _)).
    apply take_drop_middle; [rewrite length_app, length_be32; lia | fold h; lia]. }
  rewrite E2.
  replace (decode_blob_header read_message (header b)
             (if should_index_block then bytes_of "OSMData" else bytes_of "OSMHeader"))
    with (inr (Z.of_nat n) : pbf_error + Z)
    by (symmetry; destruct should_index_block; exact Hdec).
  cbn [bind_error].
  destruct (Z.gtb_spec (Z.of_nat n) max_block_size) as [Hgt|_];
    [unfold max_block_size in Hgt; lia|].
  unfold size_t_add, to_uint32, file_seek.
  rewrite (Z.mod_small (Z.of_nat (length pre) + 4)) by lia.
  rewrite (Z.mod_small (Z.of_nat (length pre) + 4 + Z.of_nat h)) by lia.
  rewrite (Z.mod_small (Z.of_nat (length pre) + 4 + Z.of_nat h + Z.of_nat n)) by lia.
  rewrite (Z.mod_small _ (2 ^ 32)) by lia.
  destruct (Z.ltb_spec (Z.of_nat (length pre) + 4 + Z.of_nat h + Z.of_nat n) (2 ^ 63)); [|lia].
  cbn [contents]. rewrite Hbl. unfold block_start_at. fold h n.
  replace (Z.of_nat (length pre) + (4 + Z.of_nat h + Z.of_nat n))
    with (Z.of_nat (length pre) + 4 + Z.of_nat h + Z.of_nat n) by lia.
  reflexivity.
Qed.

Lemma digest_well_formed_block
    (sgn : bool) (read_message : list byte -> option (list field))
    (pre post : list byte) (b : block) (starts : list pbf_block_start)
    (should_index_block : bool) (file_size : Z) :
  well_formed_block read_message
    (if should_index_block then bytes_of "OSMData" else bytes_of "OSMHeader") b ->
  Z.of_nat (length (pre ++ block_bytes b ++ post)) < 2 ^ 63 ->
  digest_and_skip_block sgn read_message
    {| m_block_starts := starts;
       m_fd := {| contents := pre ++ block_bytes b ++ post; pos := Z.of_nat (length pre) |} |}
    (Z.of_nat (length pre)) file_size should_index_block
  = inr (Z.of_nat (length pre) + Z.of_nat (length (block_bytes b)),
         {| m_block_starts :=
              if should_index_block
              then starts ++ [block_start_at (Z.of_nat (length pre)) b]
              else starts;
            m_fd := {| contents := pre ++ block_bytes b ++ post;
                       pos := Z.of_nat (length pre) + Z.of_nat (length (block_bytes b)) |} |}).
Proof.
  intros Hwf Hlen.
  pose proof (digest_well_formed_header sgn read_message pre (body b ++ post) b starts
                should_index_block file_size) as H.
  cbv zeta in H. unfold block_bytes at 1 3. rewrite <- !app_assoc.
  apply H; [assumption|]. rewrite !length_app in Hlen. lia.
Qed.

(** ** The index of a well-formed file *)

Lemma index_well_formed_blocks
    (sgn : bool) (read_message : list byte -> option (list field))
    (data : list block) (rest : list byte) :
  forall (pre : list byte) (starts : list pbf_block_start) (fuel : nat),
  let file := pre ++ concat (map block_bytes data) ++ rest in
  let done := pre ++ concat (map block_bytes data) in
  Forall (well_formed_block read_message (bytes_of "OSMData")) data ->
  Z.of_nat (length file) < 2 ^ 63 ->
  index_data_blocks sgn read_message (length data + fuel)
    {| m_block_starts := starts;
       m_fd := {| contents := file; pos := Z.of_nat (length pre) |} |}
    (Z.of_nat (length pre)) (Z.of_nat (length file))
  = index_data_blocks sgn read_message fuel
      {| m_block_starts := starts ++ expected_block_starts (Z.of_nat (length pre)) data;
         m_fd := {| contents := file; pos := Z.of_nat (length done) |} |}
      (Z.of_nat (length done)) (Z.of_nat (length file)).
Proof.
  induction data as [|b data IH]; intros pre starts fuel file done Hwf Hlen.
  - subst file done. cbn [map concat expected_block_starts length Nat.add app].
    rewrite !app_nil_r. reflexivity.
  - inversion Hwf as [|b' rest' Hb Hrest]; subst b' rest'.
    subst file done. cbn [map concat expected_block_starts length Nat.add] in *.
    cbn [index_data_blocks].
    assert (Hbl : (5 <= length (block_bytes b))%nat).
    { destruct Hb as (_ & Hbody & _). unfold block_bytes.
      rewrite !length_app, length_be32. lia. }
    rewrite <- !app_assoc in *.
    destruct (Z.ltb_spec (Z.of_nat (length pre))
                (Z.of_nat (length (pre ++ block_bytes b ++ concat (map block_bytes data) ++ rest))))
      as [_|Hge]; [|rewrite !length_app in Hge; lia].
    rewrite (digest_well_formed_block sgn read_message pre _ b starts true) by assumption.
    replace (Z.of_nat (length pre) + Z.of_nat (length (block_bytes b)))
      with (Z.of_nat (length (pre ++ block_bytes b))) by (rewrite length_app; lia).
    specialize (IH (pre ++ block_bytes b) (starts ++ [block_start_at (Z.of_nat (length pre)) b]) fuel).
    cbv zeta in IH. rewrite <- !app_assoc in IH.
    rewrite IH by assumption. reflexivity.
Qed.

Lemma expected_block_starts_lookup (data : list block) :
  forall (offset : Z) (i : nat) (b : block),
  data !! i = Some b ->
  expected_block_starts offset data !! i =
    Some (block_start_at
            (offset + Z.of_nat (length (concat (map block_bytes (take i data))))) b).
Proof.
  induction data as [|b0 rest IH]; intros offset i b Hi; [discriminate|].
  destruct i as [|i]; cbn in Hi.
  - inversion Hi; subst. cbn. now rewrite Z.add_0_r.
  - cbn [expected_block_starts take map concat]. cbn [lookup list_lookup].
    rewrite (IH _ _ _ Hi). rewrite length_app. do 2 f_equal. lia.
Qed.

Lemma length_expected_block_starts (data : list block) (offset : Z) :
  length (expected_block_starts offset data) = length data.
Proof.
  revert offset. induction data as [|b rest IH]; intros offset; cbn; [|rewrite IH]; reflexivity.
Qed.

Lemma length_well_formed_blocks
    (read_message : list byte -> option (list field)) (ty : list byte) (data : list block) :
  Forall (well_formed_block read_message ty) data ->
  (length data <= length (concat (map block_bytes data)))%nat.
Proof.
  induction 1 as [|b l Hb _ IHl]; cbn [map concat length]; [lia|].
  destruct Hb as (_ & Hbody & _).
  assert (5 <= length (block_bytes b))%nat
    by (unfold block_bytes; rewrite !length_app, length_be32; lia).
  rewrite length_app. lia.
Qed.

Lemma index_data_blocks_at_end
    (sgn : bool) (read_message : list byte -> option (list field))
    (fuel : nat) (this : PbfBlockIndexTable) (offset : Z) :
  index_data_blocks sgn read_message fuel this offset offset = Some (inr (offset, this)).
Proof.
  destruct fuel; cbn [index_data_blocks]; rewrite Z.ltb_irrefl; reflexivity.
Qed.

Lemma PbfBlockIndexTable_new_with_well_formed
    (sgn : bool) (read_message : list byte -> option (list field))
    (first : block) (data : list block) (fuel : nat) :
  well_formed_container read_message first data ->
  (length data <= fuel)%nat ->
  exists this,
    PbfBlockIndexTable_new_with sgn read_message fuel (container_file first data)
      = Some (inr this) /\
    block_starts this = expected_block_starts (Z.of_nat (length (block_bytes first))) data.
Proof.
  intros (Hfirst & Hdata & Hlen) Hfuel.
  replace fuel with (length data + (fuel - length data))%nat by lia.
  unfold PbfBlockIndexTable_new_with, container_file in *.
  unfold open_for_reading, file_size. cbn [m_fd contents].
  unfold to_size_t. rewrite Z.mod_small by lia.
  pose proof (digest_well_formed_block sgn read_message [] (concat (map block_bytes data))
                first [] false) as Hd.
  cbn [app length] in Hd. rewrite Hd by assumption. clear Hd.
  change (0 + Z.of_nat (length (block_bytes first)))
    with (Z.of_nat (length (block_bytes first))).
  pose proof (index_well_formed_blocks sgn read_message data [] (block_bytes first) []) as Hi.
  cbv zeta in Hi. rewrite !app_nil_r in Hi. rewrite Hi by assumption. clear Hi.
  rewrite index_data_blocks_at_end, Z.gtb_ltb, Z.ltb_irrefl.
  eexists. split; reflexivity.
Qed.

Lemma PbfBlockIndexTable_new_well_formed
    (sgn : bool) (read_message : list byte -> option (list field))
    (first : block) (data : list block) :
  well_formed_container read_message first data ->
  exists this,
    PbfBlockIndexTable_new sgn read_message (container_file first data) = Some (inr this) /\
    block_starts this = expected_block_starts (Z.of_nat (length (block_bytes first))) data.
Proof.
  intros Hwf. apply PbfBlockIndexTable_new_with_well_formed; [assumption|].
  destruct Hwf as (_ & Hdata & _).
  pose proof (length_well_formed_blocks _ _ _ Hdata).
  unfold container_file. rewrite length_app. lia.
Qed.

(** ** What the length prefix of an accepted block looks like *)

Lemma byte_of_Z_uchar (b : byte) : byte_of_Z (uchar b) = b.
Proof.
  pose proof (uchar_range b) as Hr. unfold byte_of_Z.
  rewrite Z.mod_small by lia. unfold uchar. rewrite N2Z.id, Byte.of_to_N. reflexivity.
Qed.

Lemma uchar_inj (a b : byte) : uchar a = uchar b -> a = b.
Proof.
  intros H. rewrite <- (byte_of_Z_uchar a), <- (byte_of_Z_uchar b), H. reflexivity.
Qed.

Lemma lor_lt_pow2_l (a b k : Z) :
  0 <= a -> 0 <= b -> Z.lor a b < 2 ^ k -> a < 2 ^ k.
Proof.
  intros Ha Hb Hlt.
  assert (Hor : 0 <= Z.lor a b) by (apply Z.lor_nonneg; auto).
  destruct (Z.eq_dec a 0) as [->|Ha0]; [lia|].
  assert (Hne : Z.lor a b <> 0).
  { intros E0. apply Z.lor_eq_0_iff in E0. lia. }
  apply Z.log2_lt_pow2 in Hlt; [|lia].
  rewrite Z.log2_lor in Hlt by assumption.
  apply Z.log2_lt_pow2; lia.
Qed.

Lemma lor_lt_pow2 (a b k : Z) :
  0 <= a -> 0 <= b -> Z.lor a b < 2 ^ k -> a < 2 ^ k /\ b < 2 ^ k.
Proof.
  intros Ha Hb Hlt. split.
  - exact (lor_lt_pow2_l a b k Ha Hb Hlt).
  - rewrite Z.lor_comm in Hlt. exact (lor_lt_pow2_l b a k Hb Ha Hlt).
Qed.

Lemma char_value_mod (sgn : bool) (b : byte) :
  char_value sgn b mod 2 ^ 32 = uchar b \/
  char_value sgn b mod 2 ^ 32 = uchar b - 256 + 2 ^ 32 /\ 128 <= uchar b.
Proof.
  pose proof (uchar_range b). unfold char_value.
  destruct sgn; cbn [andb]; [|left; apply Z.mod_small; lia].
  destruct (Z.leb_spec 128 (uchar b)); [right | left; apply Z.mod_small; lia].
  split; [|assumption].
  rewrite <- (Z.mod_add _ 1) by lia. apply Z.mod_small. lia.
Qed.

Lemma shl32_unsigned_small (u k : Z) :
  0 <= u < 256 -> k = 8 \/ k = 16 \/ k = 24 ->
  (u * 2 ^ k) mod 2 ^ 32 < 2 ^ 7 -> u = 0.
Proof.
  intros Hu [->|[->| ->]] H; rewrite Z.mod_small in H by lia; lia.
Qed.

Lemma shl32_signed_large (u k : Z) :
  128 <= u < 256 -> k = 8 \/ k = 16 \/ k = 24 ->
  ((u - 256 + 2 ^ 32) * 2 ^ k) mod 2 ^ 32 < 2 ^ 7 -> False.
Proof.
  intros Hu [->|[->| ->]] H.
  - replace ((u - 256 + 2 ^ 32) * 2 ^ 8)
      with ((u - 256) * 2 ^ 8 + 2 ^ 32 + (2 ^ 8 - 1) * 2 ^ 32) in H by lia.
    rewrite Z.mod_add, Z.mod_small in H by lia. lia.
  - replace ((u - 256 + 2 ^ 32) * 2 ^ 16)
      with ((u - 256) * 2 ^ 16 + 2 ^ 32 + (2 ^ 16 - 1) * 2 ^ 32) in H by lia.
    rewrite Z.mod_add, Z.mod_small in H by lia. lia.
  - replace ((u - 256 + 2 ^ 32) * 2 ^ 24)
      with ((u - 256) * 2 ^ 24 + 2 ^ 32 + (2 ^ 24 - 1) * 2 ^ 32) in H by lia.
    rewrite Z.mod_add, Z.mod_small in H by lia. lia.
Qed.

Lemma get_size_small (sgn : bool) (b0 b1 b2 b3 : byte) :
  get_size_in_network_byte_order sgn [b0; b1; b2; b3] < 128 ->
  uchar b0 = 0 /\ uchar b1 = 0 /\ uchar b2 = 0 /\
  get_size_in_network_byte_order sgn [b0; b1; b2; b3] = uchar b3.
Proof.
  intros Hlt.
  pose proof (uchar_range b0). pose proof (uchar_range b1).
  pose proof (uchar_range b2). pose proof (uchar_range b3).
  assert (Hlow : uchar b0 = 0 /\ uchar b1 = 0 /\ uchar b2 = 0 /\ uchar b3 < 128).
  { unfold get_size_in_network_byte_order in Hlt. cbn [nth] in Hlt.
    unfold shl32, to_uint32 in Hlt. rewrite !Z.shiftl_mul_pow2 in Hlt by lia.
    change 128 with (2 ^ 7) in Hlt.
    apply lor_lt_pow2 in Hlt;
      [| apply Z.lor_nonneg; split; [apply Z.lor_nonneg; split|];
         apply Z.mod_pos_bound; lia
       | apply Z.mod_pos_bound; lia].
    destruct Hlt as [Hlt L0].
    apply lor_lt_pow2 in Hlt;
      [| apply Z.lor_nonneg; split; apply Z.mod_pos_bound; lia
       | apply Z.mod_pos_bound; lia].
    destruct Hlt as [Hlt L1].
    apply lor_lt_pow2 in Hlt; [| apply Z.mod_pos_bound; lia | apply Z.mod_pos_bound; lia].
    destruct Hlt as [L3 L2].
    assert (Hshift : forall b k, k = 8 \/ k = 16 \/ k = 24 ->
               (char_value sgn b mod 2 ^ 32 * 2 ^ k) mod 2 ^ 32 < 2 ^ 7 -> uchar b = 0).
    { intros b k Hk L. pose proof (uchar_range b).
      destruct (char_value_mod sgn b) as [C|[C ?]]; rewrite C in L.
      - eapply shl32_unsigned_small; [| exact Hk | exact L]. lia.
      - exfalso. eapply shl32_signed_large; [| exact Hk | exact L]. lia. }
    apply Hshift in L0; [|lia]. apply Hshift in L1; [|lia]. apply Hshift in L2; [|lia].
    repeat split; try assumption.
    destruct (char_value_mod sgn b3) as [C|[C ?]]; rewrite C in L3; lia. }
  destruct Hlow as (E0 & E1 & E2 & L3). repeat split; try assumption.
  rewrite get_size_low_bytes by lia. unfold big_endian_u32. lia.
Qed.

Lemma get_size_small_be32 (sgn : bool) (d : list byte) :
  length d = 4%nat ->
  get_size_in_network_byte_order sgn d < 128 ->
  d = be32 (get_size_in_network_byte_order sgn d).
Proof.
  intros Hlen Hlt.
  destruct d as [|b0 [|b1 [|b2 [|b3 [|]]]]]; try discriminate.
  destruct (get_size_small sgn b0 b1 b2 b3 Hlt) as (E0 & E1 & E2 & E3).
  rewrite E3. pose proof (uchar_range b3). rewrite E3 in Hlt.
  unfold be32.
  rewrite !Z.div_small by lia.
  rewrite <- E0 at 1. rewrite <- E1 at 1. rewrite <- E2.
  rewrite !byte_of_Z_uchar. reflexivity.
Qed.

(** The slip in the conversion of [char] never shows in the index: the
    header size that comes out of the check is the same on both kinds of
    platform. *)
Lemma check_small_size_any_char (sgn : bool) (b0 b1 b2 b3 : byte) :
  check_small_size (get_size_in_network_byte_order sgn [b0; b1; b2; b3]) =
  check_small_size (big_endian_u32 b0 b1 b2 b3).
Proof.
  unfold check_small_size, max_small_blob_header_size, to_uint32.
  rewrite (Z.mod_small 64) by lia.
  destruct (Z.gtb_spec (get_size_in_network_byte_order sgn [b0; b1; b2; b3]) 64) as [Hgt|Hle].
  - destruct (Z.gtb_spec (big_endian_u32 b0 b1 b2 b3) 64) as [_|Hle]; [reflexivity|].
    exfalso.
    rewrite <- get_size_unsigned in Hle.
    destruct (get_size_small false b0 b1 b2 b3 ltac:(lia)) as (E0 & E1 & E2 & E3).
    rewrite E3 in Hle.
    rewrite get_size_low_bytes in Hgt by lia. unfold big_endian_u32 in Hgt. lia.
  - destruct (get_size_small sgn b0 b1 b2 b3 ltac:(lia)) as (E0 & E1 & E2 & E3).
    rewrite E3 in *. unfold big_endian_u32. rewrite E0, E1, E2.
    replace (0 * 2 ^ 24 + 0 * 2 ^ 16 + 0 * 2 ^ 8 + uchar b3) with (uchar b3) by lia.
    destruct (Z.gtb_spec (uchar b3) 64); [lia | reflexivity].
Qed.

(** ** One block of any file *)

Lemma get_size_nonneg (sgn : bool) (d : list byte) :
  0 <= get_size_in_network_byte_order sgn d.
Proof.
  unfold get_size_in_network_byte_order, shl32, to_uint32.
  repeat (apply Z.lor_nonneg; split); apply Z.mod_pos_bound; lia.
Qed.

Lemma last_map_nonneg {A : Type} (f : A -> Z) (l : list A) (d : Z) :
  (forall x, 0 <= f x) -> 0 <= d -> 0 <= List.last (map f l) d.
Proof.
  intros Hf. revert d. induction l as [|x l IH]; intros d Hd; [exact Hd|].
  cbn [map]. rewrite last_cons_default. apply IH, Hf.
Qed.

Lemma decode_blob_header_inr
    (read_message : list byte -> option (list field)) (data ty : list byte) (ds : Z) :
  decode_blob_header read_message data ty = inr ds -> 1 <= ds.
Proof.
  unfold decode_blob_header. destruct (read_message data) as [fields|]; [|discriminate].
  rewrite fold_blob_header_fields.
  set (n := List.last (map _ (datasize_fields fields)) 0).
  assert (Hn : 0 <= n).
  { apply last_map_nonneg; [|lia]. intros x. unfold to_size_t. apply Z.mod_pos_bound. lia. }
  destruct (Z.eqb_spec n 0); [discriminate|].
  destruct (negb _); [discriminate|]. intros E. inversion E. lia.
Qed.

Lemma digest_and_skip_block_inr
    (sgn : bool) (read_message : list byte -> option (list field))
    (this : PbfBlockIndexTable) (offset file_size : Z) (should_index_block : bool)
    (offset' : Z) (this' : PbfBlockIndexTable) :
  digest_and_skip_block sgn read_message this offset file_size should_index_block
    = inr (offset', this') ->
  pos (m_fd this) = offset -> 0 <= offset < 2 ^ 63 ->
  exists h ds,
    0 <= h <= 64 /\ 1 <= ds <= max_block_size /\
    offset' = offset + 4 + h + ds /\
    offset + 4 <= Z.of_nat (length (contents (m_fd this))) /\
    take 4 (drop (Z.to_nat offset) (contents (m_fd this))) = be32 h /\
    (0 < h -> offset + 4 + h <= Z.of_nat (length (contents (m_fd this)))) /\
    decode_blob_header read_message
      (take (Z.to_nat h) (drop (Z.to_nat (offset + 4)) (contents (m_fd this))))
      (if should_index_block then bytes_of "OSMData" else bytes_of "OSMHeader") = inr ds /\
    m_block_starts this' =
      (if should_index_block
       then m_block_starts this ++
            [{| file_offset := offset + 4 + h; first_item_id_or_zero := 0;
                datasize := ds; first_item_type_or_zero := undefined |}]
       else m_block_starts this) /\
    contents (m_fd this') = contents (m_fd this) /\
    (offset' < 2 ^ 63 -> pos (m_fd this') = offset').
Proof.
  intros Hd Hpos Hoff.
  unfold digest_and_skip_block, read_blob_header_size_from_file in Hd.
  destruct (read_exactly (m_fd this) 4) as [[ok1 buf1] fd1] eqn:R1.
  destruct ok1; cbn [negb bind_error] in Hd; [|discriminate].
  apply read_exactly_true in R1; [|lia|lia].
  destruct R1 as (Hfit1 & Hbuf1 & Hfd1). specialize (Hfit1 ltac:(lia)).
  rewrite Hpos in *.
  unfold check_small_size, max_small_blob_header_size, to_uint32 in Hd.
  rewrite (Z.mod_small 64) in Hd by lia.
  set (h := get_size_in_network_byte_order sgn buf1) in *.
  pose proof (get_size_nonneg sgn buf1) as Hh0. fold h in Hh0.
  destruct (Z.gtb_spec h 64) as [|Hh]; cbn [bind_error] in Hd; [discriminate|].
  destruct (read_exactly fd1 h) as [[ok2 buf2] fd2] eqn:R2.
  destruct ok2; cbn [negb] in Hd; [|discriminate].
  apply read_exactly_true in R2; [|lia|subst fd1; cbn; lia].
  destruct R2 as (Hfit2 & Hbuf2 & Hfd2).
  rewrite Hfd1 in Hfit2, Hbuf2, Hfd2. cbn [pos contents] in Hfit2, Hbuf2, Hfd2.
  destruct (decode_blob_header read_message buf2 _) as [e|ds] eqn:D;
    cbn [bind_error] in Hd; [discriminate|].
  pose proof (decode_blob_header_inr _ _ _ _ D) as Hds1.
  destruct (Z.gtb_spec ds max_block_size) as [|Hds]; [discriminate|].
  inversion Hd as [[Hoff' Hthis']]. clear Hd.
  unfold max_block_size in *.
  unfold size_t_add, to_uint32.
  rewrite (Z.mod_small (offset + 4)) by lia.
  rewrite (Z.mod_small (offset + 4 + h)) by lia.
  rewrite (Z.mod_small (offset + 4 + h + ds)) by lia.
  rewrite (Z.mod_small ds) by lia.
  exists h, ds. cbn [m_block_starts m_fd].
  assert (Hlen1 : length buf1 = 4%nat).
  { rewrite Hbuf1, length_take, length_drop. lia. }
  repeat split; try lia.
  - change 4%nat with (Z.to_nat 4). rewrite <- Hbuf1.
    unfold h. apply get_size_small_be32; [assumption | fold h; lia].
  - rewrite <- Hbuf2. exact D.
  - rewrite Hfd2. unfold file_seek. destruct (_ <? _); reflexivity.
  - intros Hlt. rewrite Hfd2. unfold file_seek.
    destruct (Z.ltb_spec (offset + 4 + h + ds) (2 ^ 63)); [reflexivity|lia].
Qed.

(** ** The constructor on any file *)

Lemma index_data_blocks_done
    (sgn : bool) (read_message : list byte -> option (list field))
    (fuel : nat) (this : PbfBlockIndexTable) (offset file_size : Z) :
  file_size <= offset ->
  index_data_blocks sgn read_message fuel this offset file_size = Some (inr (offset, this)).
Proof.
  intros Hge. destruct fuel; cbn [index_data_blocks];
    destruct (Z.ltb_spec offset file_size); try lia; reflexivity.
Qed.

Lemma index_data_blocks_total
    (sgn : bool) (read_message : list byte -> option (list field)) (fuel : nat) :
  forall (this : PbfBlockIndexTable) (offset file_size : Z),
  pos (m_fd this) = offset -> 0 <= offset -> file_size < 2 ^ 63 ->
  file_size - offset <= Z.of_nat fuel ->
  is_Some (index_data_blocks sgn read_message fuel this offset file_size).
Proof.
  induction fuel as [|fuel IH]; intros this offset file_size Hpos Hoff Hsize Hfuel.
  - rewrite index_data_blocks_done by lia. eauto.
  - cbn [index_data_blocks]. destruct (Z.ltb_spec offset file_size) as [Hlt|]; [|eauto].
    destruct (digest_and_skip_block sgn read_message this offset file_size true)
      as [e|[offset' this']] eqn:D; [eauto|].
    apply digest_and_skip_block_inr in D; [|assumption|lia].
    destruct D as (h & ds & Hh & Hds & Hoff' & _ & _ & _ & _ & _ & _ & Hpos').
    destruct (Z.lt_ge_cases offset' file_size) as [Hin|Hout].
    + apply IH; lia.
    + rewrite index_data_blocks_done by lia. eauto.
Qed.

Lemma PbfBlockIndexTable_new_total
    (sgn : bool) (read_message : list byte -> option (list field))
    (file_contents : list byte) :
  Z.of_nat (length file_contents) < 2 ^ 63 ->
  is_Some (PbfBlockIndexTable_new sgn read_message file_contents).
Proof.
  intros Hlen. unfold PbfBlockIndexTable_new, PbfBlockIndexTable_new_with.
  unfold file_size, open_for_reading, to_size_t. cbn [m_fd contents].
  rewrite Z.mod_small by lia.
  destruct (digest_and_skip_block _ _ _ 0 _ false) as [e|[offset this]] eqn:D; [eauto|].
  apply digest_and_skip_block_inr in D; [|reflexivity|lia].
  destruct D as (h & ds & Hh & Hds & Hoff' & _ & _ & _ & _ & _ & _ & Hpos').
  assert (Hloop : is_Some (index_data_blocks sgn read_message (length file_contents) this
                             offset (Z.of_nat (length file_contents)))).
  { destruct (Z.lt_ge_cases offset (Z.of_nat (length file_contents))) as [Hin|Hout].
    - apply index_data_blocks_total; lia.
    - rewrite index_data_blocks_done by lia. eauto. }
  destruct Hloop as [[e|[offset' this']] ->]; [eauto|].
  destruct (offset' >? _); eauto.
Qed.

Lemma drop_split {A : Type} (l : list A) (n k : nat) :
  drop n l = take k (drop n l) ++ drop (n + k) l.
Proof.
  rewrite <- drop_drop. symmetry. apply take_drop.
Qed.

(** The bytes of the file at a block that was digested, when the block
    ends within the file. *)
Lemma digested_block_bytes
    (read_message : list byte -> option (list field))
    (file : list byte) (offset h ds : Z) (ty : list byte) :
  0 <= offset -> 0 <= h <= 64 -> 1 <= ds <= max_block_size ->
  offset + 4 + h + ds <= Z.of_nat (length file) ->
  take 4 (drop (Z.to_nat offset) file) = be32 h ->
  decode_blob_header read_message
    (take (Z.to_nat h) (drop (Z.to_nat (offset + 4)) file)) ty = inr ds ->
  exists b,
    accepted_block read_message ty b /\
    Z.of_nat (length (header b)) = h /\ Z.of_nat (length (body b)) = ds /\
    drop (Z.to_nat offset) file
      = block_bytes b ++ drop (Z.to_nat (offset + Z.of_nat (length (block_bytes b)))) file.
Proof.
  intros Hoff Hh Hds Hfit Hprefix Hdec.
  set (hdr := take (Z.to_nat h) (drop (Z.to_nat (offset + 4)) file)) in *.
  set (bdy := take (Z.to_nat ds) (drop (Z.to_nat (offset + 4 + h)) file)).
  assert (Lh : length hdr = Z.to_nat h).
  { unfold hdr. rewrite length_take, length_drop. lia. }
  assert (Lb : length bdy = Z.to_nat ds).
  { unfold bdy. rewrite length_take, length_drop. lia. }
  exists {| header := hdr; body := bdy |}. cbn [header body].
  assert (Lbb : length (block_bytes {| header := hdr; body := bdy |})
                = (4 + Z.to_nat h + Z.to_nat ds)%nat).
  { unfold block_bytes. cbn [header body]. rewrite !length_app, length_be32. lia. }
  split; [|split; [lia|split; [lia|]]].
  - unfold accepted_block, max_small_blob_header_size. cbn [header body].
    rewrite Lh, Lb, !Z2Nat.id by lia. repeat split; try lia. exact Hdec.
  - assert (Hsplit : drop (Z.to_nat offset) file
                     = take 4 (drop (Z.to_nat offset) file) ++ hdr ++ bdy
                       ++ drop (Z.to_nat (offset + 4 + h + ds)) file).
    { etransitivity; [apply (drop_split file (Z.to_nat offset) 4)|]. f_equal.
      replace (Z.to_nat offset + 4)%nat with (Z.to_nat (offset + 4)) by lia.
      etransitivity; [apply (drop_split file _ (Z.to_nat h))|]. f_equal.
      replace (Z.to_nat (offset + 4) + Z.to_nat h)%nat with (Z.to_nat (offset + 4 + h)) by lia.
      etransitivity; [apply (drop_split file _ (Z.to_nat ds))|]. f_equal.
      f_equal. lia. }
    rewrite Lbb. unfold block_bytes. cbn [header body].
    rewrite Lh, Z2Nat.id by lia. rewrite Hsplit at 1. rewrite Hprefix, <- !app_assoc.
    do 4 f_equal. lia.
Qed.

Lemma index_data_blocks_complete
    (sgn : bool) (read_message : list byte -> option (list field)) (fuel : nat) :
  forall (this : PbfBlockIndexTable) (offset : Z) (offset_end : Z) (this_end : PbfBlockIndexTable),
  let file := contents (m_fd this) in
  index_data_blocks sgn read_message fuel this offset (Z.of_nat (length file))
    = Some (inr (offset_end, this_end)) ->
  pos (m_fd this) = offset -> 0 <= offset <= Z.of_nat (length file) ->
  Z.of_nat (length file) < 2 ^ 63 ->
  offset_end <= Z.of_nat (length file) ->
  exists data,
    drop (Z.to_nat offset) file = concat (map block_bytes data) /\
    Forall (accepted_block read_message (bytes_of "OSMData")) data /\
    m_block_starts this_end = m_block_starts this ++ expected_block_starts offset data.
Proof.
  induction fuel as [|fuel IH]; intros this offset offset_end this_end file Hrun Hpos Hoff Hlen Hend.
  - cbn [index_data_blocks] in Hrun.
    destruct (Z.ltb_spec offset (Z.of_nat (length file))); [discriminate|].
    inversion Hrun; subst. exists []. cbn. rewrite app_nil_r.
    split; [apply drop_ge; lia | split; [constructor | reflexivity]].
  - cbn [index_data_blocks] in Hrun.
    destruct (Z.ltb_spec offset (Z.of_nat (length file))) as [Hlt|Hge].
    2:{ inversion Hrun; subst. exists []. cbn. rewrite app_nil_r.
        split; [apply drop_ge; lia | split; [constructor | reflexivity]]. }
    destruct (digest_and_skip_block sgn read_message this offset _ true)
      as [e|[offset' this']] eqn:D; [discriminate|].
    apply digest_and_skip_block_inr in D; [|assumption|lia].
    destruct D as (h & ds & Hh & Hds & Hoff' & Hfit & Hprefix & _ & Hdec & Hstarts & Hcont & Hpos').
    fold file in Hfit, Hprefix, Hdec, Hcont.
    assert (Hin : offset' <= Z.of_nat (length file)).
    { destruct (Z.le_gt_cases offset' (Z.of_nat (length file))) as [|Hout]; [assumption|].
      rewrite index_data_blocks_done in Hrun by lia. inversion Hrun; subst. lia. }
    destruct (digested_block_bytes read_message file offset h ds (bytes_of "OSMData"))
      as (b & Hacc & Lh & Lb & Hbytes); try assumption; try lia.
    assert (Lbb : Z.of_nat (length (block_bytes b)) = 4 + h + ds).
    { unfold block_bytes. rewrite !length_app, length_be32. lia. }
    specialize (IH this' offset' offset_end this_end).
    cbv zeta in IH. rewrite Hcont in IH.
    specialize (Hpos' ltac:(lia)).
    destruct IH as (data & Hdrop & Hall & Hst); try assumption; try lia.
    exists (b :: data). cbn [map concat expected_block_starts].
    split; [|split].
    + rewrite Hbytes. f_equal. rewrite <- Hdrop. f_equal. lia.
    + constructor; assumption.
    + rewrite Hst, Hstarts, <- app_assoc. cbn [app]. unfold block_start_at.
      rewrite Lh, Lb. do 3 f_equal. lia.
Qed.

Lemma PbfBlockIndexTable_new_complete
    (sgn : bool) (read_message : list byte -> option (list field))
    (file_contents : list byte) (this : PbfBlockIndexTable) :
  Z.of_nat (length file_contents) < 2 ^ 63 ->
  PbfBlockIndexTable_new sgn read_message file_contents = Some (inr this) ->
  exists first data,
    file_contents = container_file first data /\
    accepted_block read_message (bytes_of "OSMHeader") first /\
    Forall (accepted_block read_message (bytes_of "OSMData")) data /\
    block_starts this = expected_block_starts (Z.of_nat (length (block_bytes first))) data.
Proof.
  intros Hlen Hnew. unfold PbfBlockIndexTable_new, PbfBlockIndexTable_new_with in Hnew.
  unfold file_size, open_for_reading, to_size_t in Hnew. cbn [m_fd contents] in Hnew.
  rewrite Z.mod_small in Hnew by lia.
  destruct (digest_and_skip_block _ _ _ 0 _ false) as [e|[offset this0]] eqn:D; [discriminate|].
  apply digest_and_skip_block_inr in D; [|reflexivity|lia].
  cbn [m_fd contents m_block_starts] in D.
  destruct D as (h & ds & Hh & Hds & Hoff' & Hfit & Hprefix & _ & Hdec & Hstarts & Hcont & Hpos').
  destruct (index_data_blocks _ _ _ this0 offset _) as [[e|[offset_end this_end]]|] eqn:L;
    try discriminate.
  destruct (Z.gtb_spec offset_end (Z.of_nat (length file_contents))) as [|Hend]; [discriminate|].
  inversion Hnew; subst this_end. clear Hnew.
  assert (Hin : offset <= Z.of_nat (length file_contents)).
  { destruct (Z.le_gt_cases offset (Z.of_nat (length file_contents))) as [|Hout]; [assumption|].
    rewrite index_data_blocks_done in L by lia. inversion L; subst. lia. }
  destruct (digested_block_bytes read_message file_contents 0 h ds (bytes_of "OSMHeader"))
    as (b & Hacc & Lh & Lb & Hbytes); try assumption; try lia.
  assert (Lbb : Z.of_nat (length (block_bytes b)) = 4 + h + ds).
  { unfold block_bytes. rewrite !length_app, length_be32. lia. }
  specialize (Hpos' ltac:(lia)).
  rewrite <- Hcont in L.
  apply index_data_blocks_complete in L; try (rewrite ?Hcont; lia).
  destruct L as (data & Hdrop & Hall & Hst).
  exists b, data. unfold container_file, block_starts.
  rewrite Hst, Hstarts. cbn [app]. rewrite Hcont in Hdrop.
  split; [|split; [assumption|split; [assumption|]]].
  - change file_contents with (drop (Z.to_nat 0) file_contents) at 1.
    rewrite Hbytes. f_equal. rewrite <- Hdrop. f_equal. lia.
  - f_equal. lia.
Qed.

(** ** Blocks that are too large, and files that end early *)

Lemma digest_at_header
    (sgn : bool) (read_message : list byte -> option (list field))
    (pre hdr tail : list byte) (starts : list pbf_block_start)
    (should_index_block : bool) (file_size : Z) :
  let file := pre ++ be32 (Z.of_nat (length hdr)) ++ hdr ++ tail in
  let ty := if should_index_block then bytes_of "OSMData" else bytes_of "OSMHeader" in
  let digest :=
    digest_and_skip_block sgn read_message
      {| m_block_starts := starts;
         m_fd := {| contents := file; pos := Z.of_nat (length pre) |} |}
      (Z.of_nat (length pre)) file_size should_index_block in
  Z.of_nat (length hdr) <= max_small_blob_header_size ->
  (forall e, decode_blob_header read_message hdr ty = inl e -> digest = inl e) /\
  (forall ds, decode_blob_header read_message hdr ty = inr ds ->
              max_block_size < ds -> digest = inl BlockTooLarge).
Proof.
  intros file ty digest Hh. unfold max_small_blob_header_size in Hh.
  set (h := length hdr) in *.
  assert (Hfile : Z.of_nat (length file)
                  = Z.of_nat (length pre) + 4 + Z.of_nat h + Z.of_nat (length tail)).
  { unfold file. rewrite !length_app, length_be32. fold h. lia. }
  assert (Hdigest : exists K, digest =
            bind_error (decode_blob_header read_message hdr ty)
              (fun blob_body_size =>
                 if blob_body_size >? max_block_size then inl BlockTooLarge
                 else inr (K blob_body_size))).
  { eexists. unfold digest.
    unfold digest_and_skip_block, read_blob_header_size_from_file. cbn [m_fd m_block_starts].
    rewrite read_exactly_all by (cbn [pos contents]; lia).
    cbn [pos contents negb].
    assert (E1 : take (Z.to_nat 4) (drop (Z.to_nat (Z.of_nat (length pre))) file)
                 = be32 (Z.of_nat h)).
    { rewrite Nat2Z.id. unfold file. apply take_drop_middle; reflexivity. }
    rewrite E1, get_size_be32 by lia.
    unfold check_small_size, max_small_blob_header_size, to_uint32.
    destruct (Z.gtb_spec (Z.of_nat h) (64 mod 2 ^ 32)) as [Hgt|_];
      [rewrite Z.mod_small in Hgt by lia; lia|].
    cbn [bind_error].
    rewrite read_exactly_all by (cbn [pos contents]; lia).
    cbn [pos contents negb].
    assert (E2 : take (Z.to_nat (Z.of_nat h)) (drop (Z.to_nat (Z.of_nat (length pre) + 4)) file)
                 = hdr).
    { unfold file. rewrite (app_assoc pre (be32 _)).
      apply take_drop_middle; [rewrite length_app, length_be32; lia | fold h; lia]. }
    rewrite E2. fold ty. reflexivity. }
  destruct Hdigest as [K Hdigest].
  split.
  - intros e He. rewrite Hdigest, He. reflexivity.
  - intros ds Hds Hlarge. rewrite Hdigest, Hds. cbn [bind_error].
    destruct (Z.gtb_spec ds max_block_size); [reflexivity | lia].
Qed.

Lemma decode_blob_header_states
    (read_message : list byte -> option (list field)) (ty hdr : list byte) (v : Z) :
  header_states read_message ty v hdr -> 1 <= v < 2 ^ 31 ->
  decode_blob_header read_message hdr ty = inr v.
Proof.
  intros (Hh & fields & Hread & Hty & Hds) Hv.
  unfold decode_blob_header. rewrite Hread, fold_blob_header_fields, Hty, Hds.
  cbn [map List.last]. rewrite to_size_t_get_int32_small by lia.
  destruct (Z.eqb_spec v 0); [lia|].
  rewrite strncmp_refl. reflexivity.
Qed.

(** The loop and the constructor at the first of the blocks that are not
    well formed: the block is refused, or it ends past the end of the
    file. *)
Lemma PbfBlockIndexTable_new_after_well_formed
    (sgn : bool) (read_message : list byte -> option (list field))
    (first : block) (data : list block) (rest : list byte) (e : pbf_error) :
  let file := container_file first data ++ rest in
  let done := container_file first data in
  well_formed_block read_message (bytes_of "OSMHeader") first ->
  Forall (well_formed_block read_message (bytes_of "OSMData")) data ->
  Z.of_nat (length file) < 2 ^ 63 ->
  rest <> [] ->
  (forall starts,
      let digest :=
        digest_and_skip_block sgn read_message
          {| m_block_starts := starts;
             m_fd := {| contents := file; pos := Z.of_nat (length done) |} |}
          (Z.of_nat (length done)) (Z.of_nat (length file)) true in
      digest = inl e \/
      e = FileSizeMismatch /\
      exists offset this, digest = inr (offset, this) /\ Z.of_nat (length file) < offset) ->
  PbfBlockIndexTable_new sgn read_message file = Some (inl e).
Proof.
  intros file done Hfirst Hdata Hlen Hrest Hdigest.
  unfold PbfBlockIndexTable_new, PbfBlockIndexTable_new_with.
  unfold open_for_reading, file_size, to_size_t. cbn [m_fd contents].
  rewrite Z.mod_small by lia.
  assert (Hfile : file = block_bytes first ++ concat (map block_bytes data) ++ rest).
  { unfold file, container_file. now rewrite <- app_assoc. }
  pose proof (digest_well_formed_block sgn read_message []
                (concat (map block_bytes data) ++ rest) first [] false
                (Z.of_nat (length file))) as Hd.
  cbn [app length] in Hd. rewrite <- Hfile in Hd. change (Z.of_nat 0) with 0 in Hd.
  rewrite Hd by assumption. clear Hd.
  change (0 + Z.of_nat (length (block_bytes first)))
    with (Z.of_nat (length (block_bytes first))).
  pose proof (length_well_formed_blocks _ _ _ Hdata) as Hn.
  assert (Hr : (1 <= length rest)%nat) by (destruct rest; [congruence | cbn; lia]).
  assert (Hfl : length file
                = (length (block_bytes first) + length (concat (map block_bytes data))
                   + length rest)%nat).
  { rewrite Hfile, !length_app. lia. }
  replace (length file) with (length data + S (length file - length data - 1))%nat at 1 by lia.
  pose proof (index_well_formed_blocks sgn read_message data rest (block_bytes first) []) as Hi.
  cbv zeta in Hi. rewrite <- Hfile in Hi. rewrite Hi by assumption. clear Hi.
  cbn [index_data_blocks]. fold (container_file first data). fold done.
  destruct (Z.ltb_spec (Z.of_nat (length done)) (Z.of_nat (length file))) as [_|Hge].
  - destruct (Hdigest ([] ++ expected_block_starts (Z.of_nat (length (block_bytes first))) data))
      as [E|(-> & offset & this & E & Hout)]; cbv zeta in E; rewrite E; [reflexivity|].
    rewrite index_data_blocks_done by lia.
    destruct (Z.gtb_spec offset (Z.of_nat (length file))); [reflexivity | lia].
  - unfold done, container_file in Hge. rewrite length_app in Hge. lia.
Qed.

Lemma read_exactly_short_false (fd : file) (size : Z) :
  0 < size -> 0 <= pos fd ->
  Z.of_nat (length (contents fd)) < pos fd + size ->
  exists buffer fd', read_exactly fd size = (false, buffer, fd').
Proof.
  intros Hs Hp Hshort. pose proof (read_exactly_short fd size Hs Hp Hshort) as H.
  destruct (read_exactly fd size) as [[ok buffer] fd']. cbn in H. subst ok. eauto.
Qed.

(** A block of which the file has only the first [j] bytes. *)
Lemma digest_truncated_block
    (sgn : bool) (read_message : list byte -> option (list field))
    (pre : list byte) (b : block) (j : nat)
    (should_index_block : bool) (file_size : Z) :
  let file := pre ++ take j (block_bytes b) in
  let digest starts :=
    digest_and_skip_block sgn read_message
      {| m_block_starts := starts;
         m_fd := {| contents := file; pos := Z.of_nat (length pre) |} |}
      (Z.of_nat (length pre)) file_size should_index_block in
  well_formed_block read_message
    (if should_index_block then bytes_of "OSMData" else bytes_of "OSMHeader") b ->
  (j < length (block_bytes b))%nat ->
  Z.of_nat (length pre) + Z.of_nat (length (block_bytes b)) < 2 ^ 63 ->
  exists e,
    truncation_error e /\
    forall starts,
      digest starts = inl e \/
      e = FileSizeMismatch /\
      exists offset this,
        digest starts = inr (offset, this) /\ Z.of_nat (length file) < offset.
Proof.
  intros file digest Hwf Hj Hlen.
  assert (Hh : Z.of_nat (length (header b)) <= 64) by (destruct Hwf as (Hh & _); exact Hh).
  set (h := length (header b)) in *.
  assert (Hbl : length (block_bytes b) = (4 + h + length (body b))%nat).
  { unfold block_bytes. rewrite !length_app, length_be32. fold h. lia. }
  assert (Hfile : length file = (length pre + j)%nat).
  { unfold file. rewrite length_app, length_take. lia. }
  destruct (Nat.lt_ge_cases j 4) as [Hj4|Hj4].
  - exists UnexpectedEOF_in_blob_header_size. split; [left; reflexivity|].
    intros starts. left.
    unfold digest, digest_and_skip_block, read_blob_header_size_from_file.
    cbn [m_fd].
    destruct (read_exactly_short_false
                {| contents := file; pos := Z.of_nat (length pre) |} 4)
      as (buffer & fd' & ->); cbn [pos contents]; try lia.
    reflexivity.
  - assert (Ht : take j (block_bytes b)
                 = be32 (Z.of_nat h) ++ take (j - 4) (header b ++ body b)).
    { unfold block_bytes. fold h. rewrite take_app, length_be32.
      rewrite take_ge by (rewrite length_be32; lia). reflexivity. }
    destruct (Nat.lt_ge_cases j (4 + h)) as [Hjh|Hjh].
    + exists UnexpectedEOF_in_blob_header. split; [right; left; reflexivity|].
      intros starts. left.
      unfold digest, digest_and_skip_block, read_blob_header_size_from_file.
      cbn [m_fd m_block_starts].
      rewrite read_exactly_all by (cbn [pos contents]; lia).
      cbn [pos contents negb].
      assert (E1 : take (Z.to_nat 4) (drop (Z.to_nat (Z.of_nat (length pre))) file)
                   = be32 (Z.of_nat h)).
      { rewrite Nat2Z.id. unfold file. rewrite Ht. apply take_drop_middle; reflexivity. }
      rewrite E1, get_size_be32 by lia.
      unfold check_small_size, max_small_blob_header_size, to_uint32.
      destruct (Z.gtb_spec (Z.of_nat h) (64 mod 2 ^ 32)) as [Hgt|_];
        [rewrite Z.mod_small in Hgt by lia; lia|].
      cbn [bind_error].
      destruct (read_exactly_short_false
                  {| contents := file; pos := Z.of_nat (length pre) + 4 |} (Z.of_nat h))
        as (buffer & fd' & ->); cbn [pos contents]; try lia.
      reflexivity.
    + exists FileSizeMismatch. split; [right; right; reflexivity|].
      intros starts. right. split; [reflexivity|].
      assert (Ht' : take j (block_bytes b)
                    = be32 (Z.of_nat h) ++ header b ++ take (j - 4 - h) (body b)).
      { rewrite Ht. f_equal. rewrite take_app. fold h.
        rewrite take_ge by (fold h; lia). reflexivity. }
      pose proof (digest_well_formed_header sgn read_message pre
                    (take (j - 4 - h) (body b)) b starts should_index_block file_size) as Hd.
      cbv zeta in Hd. fold h in Hd. rewrite <- Ht' in Hd. fold file in Hd.
      unfold digest. rewrite Hd by assumption.
      do 2 eexists. split; [reflexivity|]. lia.
Qed.

Lemma PbfBlockIndexTable_new_first_block
    (sgn : bool) (read_message : list byte -> option (list field))
    (file : list byte) (e : pbf_error) :
  let digest :=
    digest_and_skip_block sgn read_message
      {| m_block_starts := []; m_fd := {| contents := file; pos := 0 |} |}
      0 (Z.of_nat (length file)) false in
  Z.of_nat (length file) < 2 ^ 63 ->
  (digest = inl e \/
   e = FileSizeMismatch /\
   exists offset this, digest = inr (offset, this) /\ Z.of_nat (length file) < offset) ->
  PbfBlockIndexTable_new sgn read_message file = Some (inl e).
Proof.
  intros digest Hlen Hd.
  unfold PbfBlockIndexTable_new, PbfBlockIndexTable_new_with.
  unfold open_for_reading, file_size, to_size_t. cbn [m_fd contents].
  rewrite Z.mod_small by lia. fold digest.
  destruct Hd as [->|(-> & offset & this & -> & Hout)]; [reflexivity|].
  rewrite index_data_blocks_done by lia.
  destruct (Z.gtb_spec offset (Z.of_nat (length file))); [reflexivity | lia].
Qed.

Lemma PbfBlockIndexTable_new_block_too_large
    (sgn : bool) (read_message : list byte -> option (list field))
    (first : block) (data : list block) (hdr tail : list byte) (v : Z) :
  let file := container_file first data ++ be32 (Z.of_nat (length hdr)) ++ hdr ++ tail in
  Z.of_nat (length file) < 2 ^ 63 ->
  well_formed_block read_message (bytes_of "OSMHeader") first ->
  Forall (well_formed_block read_message (bytes_of "OSMData")) data ->
  header_states read_message (bytes_of "OSMData") v hdr ->
  max_block_size < v < 2 ^ 31 ->
  PbfBlockIndexTable_new sgn read_message file = Some (inl BlockTooLarge).
Proof.
  intros file Hlen Hfirst Hdata Hstates Hv.
  apply PbfBlockIndexTable_new_after_well_formed; try assumption.
  - intros E. apply (f_equal (@length byte)) in E. cbn in E. lia.
  - intros starts digest. left.
    pose proof (digest_at_header sgn read_message (container_file first data) hdr tail
                  starts true (Z.of_nat (length file))) as H.
    cbv zeta in H. destruct H as [_ H]; [apply Hstates|].
    apply (H v); [|lia].
    apply decode_blob_header_states; [assumption|]. unfold max_block_size in Hv. lia.
Qed.

Lemma PbfBlockIndexTable_new_truncated
    (sgn : bool) (read_message : list byte -> option (list field))
    (first : block) (data : list block) (b : block) (j : nat) :
  let file := container_file first data ++ take j (block_bytes b) in
  Z.of_nat (length (container_file first (data ++ [b]))) < 2 ^ 63 ->
  well_formed_block read_message (bytes_of "OSMHeader") first ->
  Forall (well_formed_block read_message (bytes_of "OSMData")) data ->
  well_formed_block read_message (bytes_of "OSMData") b ->
  (0 < j < length (block_bytes b))%nat ->
  exists e, truncation_error e /\
            PbfBlockIndexTable_new sgn read_message file = Some (inl e).
Proof.
  intros file Hlen Hfirst Hdata Hb Hj.
  assert (Hlen' : Z.of_nat (length (container_file first data))
                  + Z.of_nat (length (block_bytes b)) < 2 ^ 63).
  { unfold container_file in *. rewrite map_app, concat_app, !length_app in Hlen.
    cbn [map concat] in Hlen. rewrite app_nil_r in Hlen. rewrite length_app. lia. }
  assert (Hfile : Z.of_nat (length file) < 2 ^ 63).
  { unfold file. rewrite length_app, length_take. lia. }
  assert (Hne : take j (block_bytes b) <> []).
  { intros E. apply (f_equal (@length byte)) in E. rewrite length_take in E. cbn in E. lia. }
  destruct (digest_truncated_block sgn read_message (container_file first data) b j true
              (Z.of_nat (length file)) Hb ltac:(lia) Hlen') as (e & He & Hd).
  exists e. split; [exact He|].
  apply PbfBlockIndexTable_new_after_well_formed; assumption.
Qed.

Lemma PbfBlockIndexTable_new_truncated_first
    (sgn : bool) (read_message : list byte -> option (list field))
    (first : block) (j : nat) :
  Z.of_nat (length (block_bytes first)) < 2 ^ 63 ->
  well_formed_block read_message (bytes_of "OSMHeader") first ->
  (j < length (block_bytes first))%nat ->
  exists e, truncation_error e /\
            PbfBlockIndexTable_new sgn read_message (take j (block_bytes first))
              = Some (inl e).
Proof.
  intros Hlen Hfirst Hj.
  destruct (digest_truncated_block sgn read_message [] first j false
              (Z.of_nat (length (take j (block_bytes first)))) Hfirst Hj)
    as (e & He & Hd); [cbn [length]; lia|].
  exists e. split; [exact He|].
  apply PbfBlockIndexTable_new_first_block; [rewrite length_take; lia|].
  exact (Hd []).
Qed.

(** ** Decoding blocks on demand *)

Lemma read_block_decoder
    (this : PbfBlockIndexTable) (block_start : pbf_block_start) (read_metadata0 : read_meta)
    (decoder : PBFDataBlobDecoder) (fd : file) :
  read_block this block_start read_metadata0 = (inr decoder, fd) ->
  read_types decoder = osm_entity_bits.all /\ read_metadata decoder = read_metadata0.
Proof.
  unfold read_block.
  destruct (read_exactly _ _) as [[ok buf] fd'].
  destruct ok; cbn [negb]; intros E; inversion E; subst. split; reflexivity.
Qed.

Lemma get_parsed_block_all_kinds
    (data_blob_parser : PBFDataBlobDecoder -> option memory.Buffer)
    (this : PbfBlockIndexTable) (block_index : nat) (read_metadata0 : read_meta) :
  get_parsed_block data_blob_parser this block_index read_metadata0 =
  get_parsed_block (decoding_all_kinds data_blob_parser) this block_index read_metadata0.
Proof.
  unfold get_parsed_block.
  destruct (m_block_starts this !! block_index) as [block_start|]; [|reflexivity].
  destruct (read_block this block_start read_metadata0) as [[e|decoder] fd] eqn:R;
    [reflexivity|].
  apply read_block_decoder in R. destruct R as [Hall Hmeta].
  unfold decoding_all_kinds. destruct decoder as [inp ty md]. cbn in *. subst. reflexivity.
Qed.

Lemma type_is_compatible_defined (t : item_type) :
  memory.type_is_compatible_OSMObject t = true -> t <> undefined.
Proof. destruct t; cbn; congruence. Qed.

Lemma begin_OSMObject_defined (buffer : memory.Buffer) (it : memory.Item) :
  memory.begin_OSMObject buffer = Some it -> memory.type it <> undefined.
Proof.
  induction buffer as [|x buffer IH]; cbn; [discriminate|].
  destruct (memory.type_is_compatible_OSMObject (memory.type x)) eqn:E; [|exact IH].
  intros H. inversion H; subst. now apply type_is_compatible_defined.
Qed.

Lemma begin_OSMObject_head (buffer : memory.Buffer) :
  Forall (fun it => memory.type_is_compatible_OSMObject (memory.type it) = true) buffer ->
  memory.begin_OSMObject buffer = head buffer.
Proof.
  intros [|x l Hx _]; cbn; [reflexivity|]. now rewrite Hx.
Qed.

Lemma item_type_eqb_eq (a b : item_type) : item_type_eqb a b = true <-> a = b.
Proof. destruct a, b; cbn; split; congruence. Qed.

Lemma fill_first_item_defined (e : pbf_block_start) (o : option memory.Item) :
  first_item_type_or_zero e <> undefined -> fill_first_item e o = e.
Proof.
  unfold fill_first_item. destruct (first_item_type_or_zero e); congruence.
Qed.

Lemma fill_first_item_None (e : pbf_block_start) : fill_first_item e None = e.
Proof.
  unfold fill_first_item. destruct (first_item_type_or_zero e); reflexivity.
Qed.

(** One call: the entry of block [k] after it. *)
Lemma get_parsed_block_entry
    (data_blob_parser : PBFDataBlobDecoder -> option memory.Buffer)
    (this : PbfBlockIndexTable) (block_index : nat) (read_metadata0 : read_meta)
    (k : nat) (e : pbf_block_start) :
  m_block_starts this !! k = Some e ->
  let '(r, this') := get_parsed_block data_blob_parser this block_index read_metadata0 in
  m_block_starts this' !! k
    = Some (fill_first_item e (decoded_first_item k ((block_index, read_metadata0), r))).
Proof.
  intros Hk. unfold get_parsed_block, decoded_first_item.
  destruct (m_block_starts this !! block_index) as [block_start|] eqn:Hi.
  2:{ cbn [fst snd]. destruct (Nat.eqb block_index k); now rewrite fill_first_item_None. }
  destruct (read_block this block_start read_metadata0) as [[err|decoder] fd].
  { cbn [m_block_starts fst snd].
    destruct (Nat.eqb block_index k); now rewrite fill_first_item_None. }
  destruct (data_blob_parser decoder) as [buffer|].
  2:{ cbn [m_block_starts fst snd].
      destruct (Nat.eqb block_index k); now rewrite fill_first_item_None. }
  destruct (Nat.eqb_spec block_index k) as [->|Hne].
  - assert (block_start = e) by congruence. subst block_start.
    destruct (item_type_eqb (first_item_type_or_zero e) undefined) eqn:Hu.
    + apply item_type_eqb_eq in Hu.
      destruct (memory.begin_OSMObject buffer) as [it|] eqn:Hb;
        cbn [m_block_starts fst snd]; rewrite Nat.eqb_refl, Hb.
      * rewrite list_lookup_insert_eq by (eapply lookup_lt_Some; eassumption).
        unfold fill_first_item. rewrite Hu. reflexivity.
      * now rewrite fill_first_item_None.
    + cbn [m_block_starts fst snd]. rewrite fill_first_item_defined; [assumption|].
      intros Hu'. apply item_type_eqb_eq in Hu'. congruence.
  - assert (Hneb : Nat.eqb block_index k = false) by (apply Nat.eqb_neq; exact Hne).
    destruct (item_type_eqb (first_item_type_or_zero block_start) undefined).
    + destruct (memory.begin_OSMObject buffer); cbn [m_block_starts fst snd];
        rewrite Hneb, fill_first_item_None; [|assumption].
      now rewrite list_lookup_insert_ne.
    + cbn [m_block_starts fst snd]. now rewrite Hneb, fill_first_item_None.
Qed.

Lemma fill_first_item_twice (e : pbf_block_start) (o1 o2 : option memory.Item) :
  (forall it, o1 = Some it -> memory.type it <> undefined) ->
  fill_first_item (fill_first_item e o1) o2
  = fill_first_item e (match o1 with Some it => Some it | None => o2 end).
Proof.
  intros Hdef. destruct o1 as [it|]; [|now rewrite fill_first_item_None].
  specialize (Hdef it eq_refl).
  destruct (item_type_eqb (first_item_type_or_zero e) undefined) eqn:Ht.
  - apply item_type_eqb_eq in Ht.
    unfold fill_first_item at 2 3. rewrite Ht.
    apply fill_first_item_defined. exact Hdef.
  - assert (first_item_type_or_zero e <> undefined).
    { intros E. apply item_type_eqb_eq in E. congruence. }
    rewrite (fill_first_item_defined e (Some it)) by assumption.
    apply fill_first_item_defined. assumption.
Qed.

Lemma decoded_first_item_defined (k : nat) (step : call * parsed_block) (it : memory.Item) :
  decoded_first_item k step = Some it -> memory.type it <> undefined.
Proof.
  unfold decoded_first_item. destruct (Nat.eqb _ _); [|discriminate].
  destruct (snd step); try discriminate. apply begin_OSMObject_defined.
Qed.

Lemma run_calls_entry
    (data_blob_parser : PBFDataBlobDecoder -> option memory.Buffer)
    (calls : list call) :
  forall (this : PbfBlockIndexTable) (k : nat) (e : pbf_block_start),
  m_block_starts this !! k = Some e ->
  let '(this', trace) := run_calls data_blob_parser this calls in
  m_block_starts this' !! k = Some (fill_first_item e (first_decoded_item k trace)).
Proof.
  induction calls as [|c calls IH]; intros this k e Hk; cbn [run_calls].
  - cbn. now rewrite fill_first_item_None.
  - pose proof (get_parsed_block_entry data_blob_parser this (fst c) (snd c) k e Hk) as Hstep.
    destruct (get_parsed_block data_blob_parser this (fst c) (snd c)) as [r this1].
    specialize (IH this1 k _ Hstep).
    destruct (run_calls data_blob_parser this1 calls) as [this2 trace].
    rewrite IH. cbn [first_decoded_item]. f_equal.
    replace (fst c, snd c) with c by (destruct c; reflexivity).
    apply fill_first_item_twice. intros it. apply decoded_first_item_defined.
Qed.

Lemma run_calls_app
    (data_blob_parser : PBFDataBlobDecoder -> option memory.Buffer)
    (calls1 calls2 : list call) (this : PbfBlockIndexTable) :
  run_calls data_blob_parser this (calls1 ++ calls2) =
  let '(this1, trace1) := run_calls data_blob_parser this calls1 in
  let '(this2, trace2) := run_calls data_blob_parser this1 calls2 in
  (this2, trace1 ++ trace2).
Proof.
  revert this. induction calls1 as [|c calls1 IH]; intros this; cbn [run_calls app].
  - destruct (run_calls data_blob_parser this calls2). reflexivity.
  - destruct (get_parsed_block data_blob_parser this (fst c) (snd c)) as [r this'].
    rewrite IH. destruct (run_calls data_blob_parser this' calls1) as [this1 trace1].
    destruct (run_calls data_blob_parser this1 calls2) as [this2 trace2]. reflexivity.
Qed.

Lemma expected_block_starts_unknown (data : list block) :
  forall (offset : Z) (k : nat) (e : pbf_block_start),
  expected_block_starts offset data !! k = Some e ->
  first_item_type_or_zero e = undefined /\ first_item_id_or_zero e = 0.
Proof.
  induction data as [|b data IH]; intros offset k e Hk; [discriminate|].
  destruct k as [|k]; cbn in Hk.
  - inversion Hk; subst. split; reflexivity.
  - eapply IH. exact Hk.
Qed.

(** ** The type check of [decode_blob_header] *)

Lemma strncmp_prefix (ty suffix : list byte) :
  strncmp (ty ++ suffix) ty (length ty) = 0.
Proof.
  induction ty as [|c ty IH]; cbn [strncmp length app hd tl]; [reflexivity|].
  rewrite Z.eqb_refl. destruct (uchar c =? 0); [reflexivity | exact IH].
Qed.

Lemma decode_blob_header_accepts_prefix
    (read_message : list byte -> option (list field)) (ty suffix hdr : list byte) (v : Z) :
  header_states read_message ty v hdr -> 1 <= v < 2 ^ 31 ->
  decode_blob_header read_message hdr (ty ++ suffix) = inr v.
Proof.
  intros (Hh & fields & Hread & Hty & Hds) Hv.
  unfold decode_blob_header. rewrite Hread, fold_blob_header_fields, Hty, Hds.
  cbn [map List.last]. rewrite to_size_t_get_int32_small by lia.
  destruct (Z.eqb_spec v 0); [lia|].
  rewrite strncmp_prefix. reflexivity.
Qed.

(** Which types pass the comparison: the prefixes of the expected type, and
    the expected type followed by a zero byte and anything. *)
Lemma strncmp_zero_iff (ty : list byte) :
  forall expected : list byte,
  Forall (fun c => uchar c <> 0) expected ->
  strncmp expected ty (length ty) = 0 <->
  (exists suffix, expected = ty ++ suffix) \/ (exists rest, ty = expected ++ x00 :: rest).
Proof.
  induction ty as [|c ty IH]; intros expected Hnz.
  - cbn. split; [|reflexivity]. intros _. left. exists expected. reflexivity.
  - cbn [strncmp length hd tl].
    destruct expected as [|x expected]; cbn [hd tl].
    + change (uchar x00) with 0.
      destruct (Z.eqb_spec 0 (uchar c)) as [E|E].
      * split; [|reflexivity]. intros _. right. exists ty. cbn [app].
        f_equal. apply uchar_inj. change (uchar x00) with 0. lia.
      * pose proof (uchar_range c). split; [intros H0; lia|].
        intros [[suffix Hs]|[rest Hr]]; [discriminate|].
        inversion Hr; subst. change (uchar x00) with 0 in E. congruence.
    + inversion Hnz as [|x' l' Hx Hrest]; subst.
      destruct (Z.eqb_spec (uchar x) (uchar c)) as [E|E].
      * apply uchar_inj in E. subst c.
        destruct (Z.eqb_spec (uchar x) 0); [congruence|].
        rewrite (IH expected Hrest). split.
        -- intros [[suffix ->]|[rest ->]]; [left; exists suffix | right; exists rest];
             reflexivity.
        -- intros [[suffix Hs]|[rest Hr]]; inversion Hs || inversion Hr; subst; eauto.
      * split; [intros H0; lia|].
        intros [[suffix Hs]|[rest Hr]]; inversion Hs || inversion Hr; subst; congruence.
Qed.

(** * Properties of the builders *)

Module builder_facts.

Import builder.
Local Open Scope nat_scope.

(** ** Bytes in place *)

Lemma length_write_bytes (pos : nat) (bytes data : list byte) :
  pos + length bytes <= length data ->
  length (write_bytes pos bytes data) = length data.
Proof.
  intros H. unfold write_bytes. rewrite !length_app, length_take, length_drop. lia.
Qed.

Lemma length_write_bytes_ge (pos : nat) (bytes data : list byte) :
  pos <= length data -> length data <= length (write_bytes pos bytes data).
Proof.
  intros H. unfold write_bytes. rewrite !length_app, length_take, length_drop. lia.
Qed.

Lemma lookup_write_bytes_lt (pos : nat) (bytes data : list byte) (p : nat) :
  p < pos -> pos <= length data -> write_bytes pos bytes data !! p = data !! p.
Proof.
  intros Hp Hpos. unfold write_bytes.
  rewrite lookup_app_l by (rewrite length_take; lia).
  apply lookup_take_lt. exact Hp.
Qed.

Lemma lookup_write_bytes_ge (pos : nat) (bytes data : list byte) (p : nat) :
  pos + length bytes <= p -> pos <= length data ->
  write_bytes pos bytes data !! p = data !! p.
Proof.
  intros Hp Hpos. unfold write_bytes.
  rewrite lookup_app_r by (rewrite length_take; lia).
  rewrite lookup_app_r by (rewrite length_take; lia).
  rewrite lookup_drop, length_take. f_equal. lia.
Qed.

Lemma read_write_bytes (pos : nat) (bytes data : list byte) :
  pos <= length data ->
  read_bytes pos (length bytes) (write_bytes pos bytes data) = bytes.
Proof.
  intros Hpos. unfold read_bytes, write_bytes.
  rewrite drop_app_length' by (rewrite length_take; lia).
  apply take_app_length.
Qed.

Lemma read_bytes_ext (pos n : nat) (d d' : list byte) :
  pos + n <= length d -> pos + n <= length d' ->
  (forall p, pos <= p < pos + n -> d' !! p = d !! p) ->
  read_bytes pos n d' = read_bytes pos n d.
Proof.
  intros Hd Hd' Heq. unfold read_bytes. apply list_eq. intros i.
  destruct (Nat.lt_ge_cases i n) as [Hi|Hi].
  - rewrite !lookup_take_lt, !lookup_drop by assumption. apply Heq. lia.
  - rewrite !lookup_take_ge by assumption. reflexivity.
Qed.

Lemma length_le_bytes (width : nat) (v : Z) : length (le_bytes width v) = width.
Proof. unfold le_bytes. now rewrite length_map, length_seq. Qed.

(** ** What a member function leaves as it was *)

Lemma untouched_refl (n0 : nat) (hs : list nat) (d : list byte) : untouched n0 hs d d.
Proof. split; [lia | reflexivity]. Qed.

Lemma untouched_trans (n0 : nat) (hs : list nat) (d1 d2 d3 : list byte) :
  untouched n0 hs d1 d2 -> untouched n0 hs d2 d3 -> untouched n0 hs d1 d3.
Proof.
  intros [L12 H12] [L23 H23]. split; [lia|].
  intros p Hp Hout. rewrite H23, H12 by assumption. reflexivity.
Qed.

Lemma untouched_app (n0 : nat) (hs : list nat) (d more : list byte) :
  n0 <= length d -> untouched n0 hs d (d ++ more).
Proof.
  intros Hn. split; [rewrite length_app; lia|].
  intros p Hp _. apply lookup_app_l. lia.
Qed.

Lemma untouched_write (n0 : nat) (hs : list nat) (d bytes : list byte) (pos : nat) :
  n0 <= pos -> pos <= length d -> untouched n0 hs d (write_bytes pos bytes d).
Proof.
  intros Hn Hpos. split; [now apply length_write_bytes_ge|].
  intros p Hp _. apply lookup_write_bytes_lt; lia.
Qed.

Lemma untouched_size_field (n0 : nat) (hs : list nat) (d bytes : list byte) (h : nat) :
  In h hs -> length bytes = 4 -> h + 4 <= length d ->
  untouched n0 hs d (write_bytes h bytes d).
Proof.
  intros Hin Hlen Hh. split; [apply length_write_bytes_ge; lia|].
  intros p Hp Hout. destruct (Hout h Hin) as [Hlt|Hge].
  - apply lookup_write_bytes_lt; lia.
  - apply lookup_write_bytes_ge; lia.
Qed.

Section Untouched.

Variable uninitialized : nat -> byte.

Lemma untouched_add_size (n0 : nat) (hs : list nat) (this : Builder) (size : nat) :
  forall buffer : Buffer,
  incl (open_items this) hs ->
  Forall (fun h => h + 4 <= written buffer) (open_items this) ->
  untouched n0 hs (m_data buffer) (m_data (add_size this size buffer)) /\
  m_committed (add_size this size buffer) = m_committed buffer.
Proof.
  induction this as [pos|pos parent IH]; intros buffer Hincl Hrange;
    cbn [add_size open_items] in *.
  - inversion Hrange; subst. split; [|reflexivity].
    unfold Item_add_size, store, with_data. cbn [m_data].
    apply untouched_size_field; [apply Hincl; now left | apply length_le_bytes | assumption].
  - inversion Hrange as [|h l Hpos Hrest]; subst.
    assert (Hstep : untouched n0 hs (m_data buffer)
                      (m_data (Item_add_size pos (Z.of_nat size) buffer))).
    { unfold Item_add_size, store, with_data. cbn [m_data].
      apply untouched_size_field;
        [apply Hincl; now left | apply length_le_bytes | assumption]. }
    destruct (IH (Item_add_size pos (Z.of_nat size) buffer)) as [Hu Hc].
    + intros h Hh. apply Hincl. now right.
    + eapply Forall_impl; [exact Hrest|]. intros h Hh. cbn beta in *.
      destruct Hstep as [Hlen _]. unfold written in *. lia.
    + split; [eapply untouched_trans; eassumption | rewrite Hc; reflexivity].
Qed.

Lemma untouched_reserve (n0 : nat) (hs : list nat) (size : nat) (buffer : Buffer) :
  n0 <= written buffer ->
  untouched n0 hs (m_data buffer) (m_data (snd (reserve_space uninitialized size buffer))) /\
  fst (reserve_space uninitialized size buffer) = written buffer /\
  m_committed (snd (reserve_space uninitialized size buffer)) = m_committed buffer.
Proof.
  intros Hn. unfold reserve_space. cbn [fst snd with_data m_data m_committed].
  split; [now apply untouched_app | split; reflexivity].
Qed.

End Untouched.

Section LengthErrors.

Variable uninitialized : nat -> byte.
Variable max_osm_string_length : nat.

Lemma add_tag_too_long (this : Builder) (key value : list byte) (buffer : Buffer) :
  max_osm_string_length < length key \/ max_osm_string_length < length value ->
  exists what,
    add_tag uninitialized max_osm_string_length this key value buffer
      = length_error what buffer /\
    add_tag_with_length uninitialized max_osm_string_length this key value buffer
      = length_error what buffer /\
    add_tag_string uninitialized max_osm_string_length this key value buffer
      = length_error what buffer.
Proof.
  intros Hlong. unfold add_tag, add_tag_with_length, add_tag_string.
  destruct (Nat.ltb_spec max_osm_string_length (length key)) as [Hk|Hk];
    [eexists; repeat split; reflexivity|].
  destruct (Nat.ltb_spec max_osm_string_length (length value)) as [Hv|Hv];
    [eexists; repeat split; reflexivity | lia].
Qed.

Lemma siblings_of_untouched (this : Builder) (buffer buffer' : Buffer) :
  untouched (written buffer) (open_items this) (m_data buffer) (m_data buffer') ->
  m_committed buffer' = m_committed buffer ->
  siblings_identical this buffer buffer'.
Proof.
  intros [Hlen Hsame] Hc. split; [exact Hc|].
  intros pos n Hin Hfree. unfold written in *.
  apply read_bytes_ext; try lia.
  intros p Hp. apply Hsame; [lia|].
  intros h Hh. destruct (Hfree h Hh); lia.
Qed.

Lemma add_member_too_long
    (sizeof_RelationMember : nat) (RelationMember_new : Z -> item_type -> bool -> list byte)
    (offsetof_role_size : nat)
    (this : Builder) (type : item_type) (ref : Z) (role : list byte)
    (full_member : option (list byte)) (buffer : Buffer) :
  Forall (fun h => h + 4 <= written buffer) (open_items this) ->
  max_osm_string_length < length role ->
  exists what buffer',
    add_member uninitialized max_osm_string_length sizeof_RelationMember
      RelationMember_new offsetof_role_size this type ref role full_member buffer
      = length_error what buffer' /\
    siblings_identical this buffer buffer'.
Proof.
  intros Hrange Hlong. unfold add_member.
  destruct (untouched_reserve uninitialized (written buffer) (open_items this)
              sizeof_RelationMember buffer (Nat.le_refl _)) as (U1 & Hpos & C1).
  destruct (reserve_space uninitialized sizeof_RelationMember buffer) as [member b1].
  cbn [fst snd] in *. subst member.
  set (b2 := with_data b1 (write_bytes (written buffer) _ (m_data b1))).
  assert (U2 : untouched (written buffer) (open_items this) (m_data b1) (m_data b2)).
  { apply untouched_write; [lia | destruct U1; unfold written; lia]. }
  destruct (untouched_add_size (written buffer) (open_items this) this
              sizeof_RelationMember b2 (incl_refl _)) as [U3 C3].
  { eapply Forall_impl; [exact Hrange|]. intros h Hh. cbn beta in *.
    destruct U1, U2. unfold written in *. lia. }
  unfold add_role.
  destruct (Nat.ltb_spec max_osm_string_length (length role)) as [_|]; [|lia].
  do 2 eexists. split; [reflexivity|].
  apply siblings_of_untouched.
  - eapply untouched_trans; [exact U1|]. eapply untouched_trans; eassumption.
  - rewrite C3. exact C1.
Qed.

Lemma add_comment_too_long
    (sizeof_ChangesetComment : nat) (ChangesetComment_new : Z -> Z -> list byte)
    (offsetof_user_size : nat)
    (this : ChangesetDiscussionBuilder) (date uid : Z) (user : list byte)
    (buffer : Buffer) :
  m_comment this = None ->
  Forall (fun h => h + 4 <= written buffer) (open_items (discussion_builder this)) ->
  max_osm_string_length < length user ->
  exists what this' buffer',
    add_comment uninitialized max_osm_string_length sizeof_ChangesetComment
      ChangesetComment_new offsetof_user_size this date uid user buffer
      = length_error what (this', buffer') /\
    siblings_identical (discussion_builder this) buffer buffer'.
Proof.
  intros Hnone Hrange Hlong. unfold add_comment. rewrite Hnone.
  destruct (untouched_reserve uninitialized (written buffer)
              (open_items (discussion_builder this))
              sizeof_ChangesetComment buffer (Nat.le_refl _)) as (U1 & Hpos & C1).
  destruct (reserve_space uninitialized sizeof_ChangesetComment buffer) as [comment b1].
  cbn [fst snd] in *. subst comment.
  cbn [discussion_builder with_comment].
  set (b2 := with_data b1 (write_bytes (written buffer) _ (m_data b1))).
  assert (U2 : untouched (written buffer) (open_items (discussion_builder this))
                 (m_data b1) (m_data b2)).
  { apply untouched_write; [lia | destruct U1; unfold written; lia]. }
  destruct (untouched_add_size (written buffer) (open_items (discussion_builder this))
              (discussion_builder this)
              sizeof_ChangesetComment b2 (incl_refl _)) as [U3 C3].
  { eapply Forall_impl; [exact Hrange|]. intros h Hh. cbn beta in *.
    destruct U1, U2. unfold written in *. lia. }
  unfold add_user.
  destruct (Nat.ltb_spec max_osm_string_length (length user)) as [_|]; [|lia].
  do 3 eexists. split; [reflexivity|].
  apply siblings_of_untouched.
  - eapply untouched_trans; [exact U1|]. eapply untouched_trans; eassumption.
  - rewrite C3. exact C1.
Qed.

End LengthErrors.

(** ** The discussion builder *)

Section Discussion.

Variable uninitialized : nat -> byte.
Variable max_osm_string_length : nat.
Variable sizeof_ChangesetComment : nat.
Variable ChangesetComment_new : Z -> Z -> list byte.
Variable offsetof_user_size : nat.
Variable offsetof_text_size : nat.

Local Abbreviation add_comment' :=
  (add_comment uninitialized max_osm_string_length sizeof_ChangesetComment
     ChangesetComment_new offsetof_user_size).
Local Abbreviation add_comment_text' :=
  (add_comment_text uninitialized offsetof_text_size).
Local Abbreviation run :=
  (discussion_run uninitialized max_osm_string_length sizeof_ChangesetComment
     ChangesetComment_new offsetof_user_size offsetof_text_size).

Lemma add_comment_not_pending (this : ChangesetDiscussionBuilder) (date uid : Z)
    (user : list byte) (buffer : Buffer) :
  m_comment this = None ->
  exists this' buffer',
    is_Some (m_comment this') /\
    (add_comment' this date uid user buffer = returns (this', buffer') \/
     exists what, add_comment' this date uid user buffer
                  = length_error what (this', buffer')).
Proof.
  intros Hnone. unfold add_comment. rewrite Hnone.
  destruct (reserve_space uninitialized sizeof_ChangesetComment buffer) as [comment b1].
  cbn [discussion_builder with_comment].
  unfold add_user.
  destruct (max_osm_string_length <? length user).
  - do 2 eexists. split; [|right; eexists; reflexivity]. cbn. eauto.
  - destruct (append_with_zero _ _ _) as [n b2].
    do 2 eexists. split; [|left; reflexivity]. cbn. eauto.
Qed.

Lemma add_comment_text_pending (this : ChangesetDiscussionBuilder) (text : list byte)
    (buffer : Buffer) :
  is_Some (m_comment this) ->
  exists this' buffer',
    m_comment this' = None /\
    (add_comment_text' this text buffer = returns (this', buffer') \/
     exists what, add_comment_text' this text buffer
                  = length_error what (this', buffer')).
Proof.
  intros [comment Hsome]. unfold add_comment_text. rewrite Hsome.
  cbn [discussion_builder with_comment].
  unfold add_text.
  destruct (_ <? _)%Z.
  - do 2 eexists. split; [|right; eexists; reflexivity]. reflexivity.
  - destruct (append_with_zero _ _ _) as [n b2].
    do 2 eexists. split; [|left; reflexivity]. reflexivity.
Qed.

Lemma add_comment_pending (this : ChangesetDiscussionBuilder) (date uid : Z)
    (user : list byte) (buffer : Buffer) :
  is_Some (m_comment this) ->
  add_comment' this date uid user buffer = assertion_failed comment_assertion.
Proof.
  intros [comment Hsome]. unfold add_comment. now rewrite Hsome.
Qed.

Lemma add_comment_text_not_pending (this : ChangesetDiscussionBuilder) (text : list byte)
    (buffer : Buffer) :
  m_comment this = None ->
  add_comment_text' this text buffer = assertion_failed comment_assertion.
Proof.
  intros Hnone. unfold add_comment_text. now rewrite Hnone.
Qed.

Lemma delete_pending (this : ChangesetDiscussionBuilder) (buffer : Buffer) :
  is_Some (m_comment this) ->
  ChangesetDiscussionBuilder_delete uninitialized this buffer
    = assertion_failed comment_assertion.
Proof.
  intros [comment Hsome]. unfold ChangesetDiscussionBuilder_delete. now rewrite Hsome.
Qed.

Lemma discussion_run_alternates (calls : list discussion_call) :
  forall (this : ChangesetDiscussionBuilder) (buffer : Buffer),
  if alternates (bool_decide (is_Some (m_comment this))) calls
  then exists buffer', run calls this buffer = returns buffer'
  else run calls this buffer = assertion_failed comment_assertion.
Proof.
  induction calls as [|c calls IH]; intros this buffer.
  - cbn [alternates discussion_run].
    unfold ChangesetDiscussionBuilder_delete.
    destruct (m_comment this) as [comment|] eqn:E.
    + rewrite bool_decide_eq_true_2 by eauto. reflexivity.
    + rewrite bool_decide_eq_false_2 by (intros [? ?]; discriminate). cbn. eauto.
  - cbn [alternates discussion_run discussion_step].
    destruct c as [date uid user|text]; unfold discussion_step.
    + destruct (m_comment this) as [comment|] eqn:E.
      * rewrite bool_decide_eq_true_2 by eauto. cbn [negb andb].
        pose proof (add_comment_pending this date uid user buffer
                      ltac:(rewrite E; eauto)) as Hr.
        rewrite Hr. reflexivity.
      * rewrite bool_decide_eq_false_2 by (intros [? ?]; discriminate). cbn [negb andb].
        destruct (add_comment_not_pending this date uid user buffer E)
          as (this' & buffer' & Hsome & [Hr|[what Hr]]);
          rewrite Hr;
          specialize (IH this' buffer');
          rewrite (bool_decide_eq_true_2 _ Hsome) in IH; exact IH.
    + destruct (m_comment this) as [comment|] eqn:E.
      * rewrite bool_decide_eq_true_2 by eauto. cbn [negb andb].
        destruct (add_comment_text_pending this text buffer ltac:(rewrite E; eauto))
          as (this' & buffer' & Hnone & [Hr|[what Hr]]);
          rewrite Hr;
          specialize (IH this' buffer');
          rewrite bool_decide_eq_false_2 in IH
            by (rewrite Hnone; intros [? ?]; discriminate);
          exact IH.
      * rewrite bool_decide_eq_false_2 by (intros [? ?]; discriminate). cbn [negb andb].
        pose proof (add_comment_text_not_pending this text buffer E) as Hr.
        rewrite Hr. reflexivity.
Qed.

End Discussion.

(** ** The user name *)

Lemma le_value_from (v : Z) (width : nat) :
  forall a : nat,
  le_value (map (fun i => byte_of_Z (v / 2 ^ (8 * Z.of_nat i))) (seq a width))
  = ((v / 2 ^ (8 * Z.of_nat a)) mod 2 ^ (8 * Z.of_nat width))%Z.
Proof.
  induction width as [|width IH]; intros a; cbn [seq map le_value].
  - change (2 ^ (8 * Z.of_nat 0))%Z with 1%Z. now rewrite Z.mod_1_r.
  - rewrite IH, uchar_byte_of_Z.
    replace (8 * Z.of_nat (S a))%Z with (8 * Z.of_nat a + 8)%Z by lia.
    replace (8 * Z.of_nat (S width))%Z with (8 + 8 * Z.of_nat width)%Z by lia.
    rewrite !Z.pow_add_r by lia. change (2 ^ 8)%Z with 256%Z.
    rewrite <- Zdiv_Zdiv by (try apply Z.pow_nonneg; lia).
    rewrite Z.rem_mul_r by (try apply Z.pow_pos_nonneg; lia).
    reflexivity.
Qed.

Lemma le_value_le_bytes (width : nat) (v : Z) :
  (0 <= v < 2 ^ (8 * Z.of_nat width))%Z -> le_value (le_bytes width v) = v.
Proof.
  intros Hv. unfold le_bytes. rewrite le_value_from.
  change (2 ^ (8 * Z.of_nat 0))%Z with 1%Z. rewrite Z.div_1_r. now apply Z.mod_small.
Qed.

Lemma le_value_le_bytes_2 (v : Z) : (0 <= v < 2 ^ 16)%Z -> le_value (le_bytes 2 v) = v.
Proof. apply (le_value_le_bytes 2). Qed.

Lemma le_value_le_bytes_4 (v : Z) : (0 <= v < 2 ^ 32)%Z -> le_value (le_bytes 4 v) = v.
Proof. apply (le_value_le_bytes 4). Qed.

Lemma drop_write_bytes_above (pos : nat) (bytes data : list byte) (bound : nat) :
  pos + length bytes <= bound -> pos + length bytes <= length data ->
  drop bound (write_bytes pos bytes data) = drop bound data.
Proof.
  intros Hb Hd. apply list_eq. intros i. rewrite !lookup_drop.
  apply lookup_write_bytes_ge; lia.
Qed.

Lemma drop_write_bytes_at (pos : nat) (bytes data : list byte) :
  pos <= length data ->
  drop pos (write_bytes pos bytes data) = bytes ++ drop (pos + length bytes) data.
Proof.
  intros Hpos. unfold write_bytes.
  rewrite drop_app_length' by (rewrite length_take; lia). reflexivity.
Qed.

Lemma drop_repeat {A : Type} (x : A) (k n : nat) : drop k (repeat x n) = repeat x (n - k).
Proof.
  revert n. induction k as [|k IH]; intros n; [now rewrite Nat.sub_0_r|].
  destruct n as [|n]; [reflexivity|]. cbn [repeat drop Nat.sub]. apply IH.
Qed.

Lemma c_str_of_terminated (s rest : list byte) :
  Forall (fun c => c <> x00) s -> c_str_of (s ++ x00 :: rest) = s.
Proof.
  induction 1 as [|c s Hc _ IH]; cbn [app c_str_of]; [reflexivity|].
  destruct (Byte.eqb c x00) eqn:E; [apply Byte.byte_dec_bl in E; congruence|].
  now rewrite IH.
Qed.

Lemma item_pos_Builder_at (pos : nat) (parent : option Builder) :
  item_pos (Builder_at pos parent) = pos.
Proof. destruct parent; reflexivity. Qed.

Lemma open_items_Builder_at (pos : nat) (parent : option Builder) :
  open_items (Builder_at pos parent) = pos :: open_items_of parent.
Proof. destruct parent; reflexivity. Qed.

Lemma m_parent_Builder_at (pos : nat) (parent : option Builder) :
  m_parent (Builder_at pos parent) = parent.
Proof. destruct parent; reflexivity. Qed.

Lemma open_items_m_parent (this : Builder) :
  open_items this = item_pos this :: open_items_of (m_parent this).
Proof. destruct this; reflexivity. Qed.

Section UserName.

Variable uninitialized : nat -> byte.

Lemma written_add_size (this : Builder) (size : nat) :
  forall buffer : Buffer,
  Forall (fun h => h + 4 <= written buffer) (open_items this) ->
  written (add_size this size buffer) = written buffer /\
  m_committed (add_size this size buffer) = m_committed buffer.
Proof.
  induction this as [pos|pos parent IH]; intros buffer Hrange;
    cbn [add_size open_items] in *; inversion Hrange as [|h l Hpos Hrest]; subst.
  - unfold Item_add_size, store, with_data, written. cbn [m_data m_committed].
    split; [|reflexivity]. apply length_write_bytes. rewrite length_le_bytes. exact Hpos.
  - assert (Hw : written (Item_add_size pos (Z.of_nat size) buffer) = written buffer).
    { unfold Item_add_size, store, with_data, written. cbn [m_data].
      apply length_write_bytes. rewrite length_le_bytes. exact Hpos. }
    destruct (IH (Item_add_size pos (Z.of_nat size) buffer)) as [Hw' Hc'].
    { rewrite Hw. exact Hrest. }
    split; [rewrite Hw', Hw; reflexivity | rewrite Hc'; reflexivity].
Qed.

Lemma add_size_above (this : Builder) (size : nat) (bound : nat) :
  forall buffer : Buffer,
  Forall (fun h => h + 4 <= bound) (open_items this) ->
  bound <= written buffer ->
  drop bound (m_data (add_size this size buffer)) = drop bound (m_data buffer).
Proof.
  induction this as [pos|pos parent IH]; intros buffer Hrange Hbound;
    cbn [add_size open_items] in *; inversion Hrange as [|h l Hpos Hrest]; subst.
  - unfold Item_add_size, store, with_data. cbn [m_data].
    apply drop_write_bytes_above; rewrite length_le_bytes; unfold written in *; lia.
  - rewrite IH; [| exact Hrest |].
    + unfold Item_add_size, store, with_data. cbn [m_data].
      apply drop_write_bytes_above; rewrite length_le_bytes; unfold written in *; lia.
    + unfold Item_add_size, store, with_data, written in *. cbn [m_data].
      rewrite length_write_bytes; [assumption|]. rewrite length_le_bytes. lia.
Qed.

Lemma padded_length_ge (n : nat) : n <= padded_length n.
Proof.
  unfold padded_length, align_bytes. cbn [Nat.sub].
  pose proof (Nat.div_mod (n + 7) 8 ltac:(lia)) as H.
  pose proof (Nat.mod_upper_bound (n + 7) 8 ltac:(lia)). lia.
Qed.

(** The buffer after the optional reservation in [set_user]. *)
Lemma set_user_reservation (this : Builder) (name_pos available space : nat)
    (buffer : Buffer) :
  written buffer = name_pos + available + 1 ->
  Forall (fun h => h + 4 <= name_pos) (open_items this) ->
  drop name_pos (m_data buffer) = repeat x00 (available + 1) ->
  let buffer' :=
    let '(target, buffer) := reserve_space uninitialized space buffer in
    let buffer :=
      with_data buffer (write_bytes target (repeat x00 space) (m_data buffer)) in
    add_size this space buffer in
  written buffer' = written buffer + space /\
  m_committed buffer' = m_committed buffer /\
  drop name_pos (m_data buffer') = repeat x00 (available + 1 + space).
Proof.
  intros Hw Hrange Hslot. unfold reserve_space. cbn zeta.
  set (d1 := m_data buffer ++ map uninitialized (seq (written buffer) space)).
  set (b2 := with_data (with_data buffer d1)
               (write_bytes (written buffer) (repeat x00 space)
                  (m_data (with_data buffer d1)))).
  assert (Hd2 : m_data b2 = m_data buffer ++ repeat x00 space).
  { unfold b2, with_data, d1. cbn [m_data]. unfold write_bytes, written.
    rewrite take_app_length, repeat_length.
    rewrite drop_ge by (rewrite length_app, length_map, length_seq; lia).
    now rewrite app_nil_r. }
  assert (Hw2 : written b2 = written buffer + space).
  { unfold written in *. rewrite Hd2, length_app, repeat_length. reflexivity. }
  destruct (written_add_size this space b2) as [Hw3 Hc3].
  { eapply Forall_impl; [exact Hrange|]. intros h Hh. cbn beta in *. lia. }
  split; [rewrite Hw3, Hw2; reflexivity|]. split; [rewrite Hc3; reflexivity|].
  rewrite (add_size_above this space name_pos b2 Hrange) by lia.
  rewrite Hd2, drop_app_le by (unfold written in Hw; lia).
  rewrite Hslot, <- repeat_app. reflexivity.
Qed.

Lemma set_user_at_stores (this : Builder)
    (user_size_pos name_pos available assert_bound : nat)
    (user : list byte) (buffer : Buffer) :
  load 2 user_size_pos buffer = 1%Z ->
  (size this buffer <= Z.of_nat assert_bound)%Z ->
  written buffer = name_pos + available + 1 ->
  user_size_pos + 2 <= name_pos ->
  Forall (fun h => h + 4 <= name_pos) (open_items this) ->
  read_bytes name_pos (available + 1) (m_data buffer) = repeat x00 (available + 1) ->
  (Z.of_nat (length user) < 65535)%Z ->
  exists buffer',
    set_user_at uninitialized this user_size_pos name_pos available assert_bound
      user buffer = returns buffer' /\
    user_stored user_size_pos name_pos user
      (if available <? length user then padded_length (length user - available) else 0)
      buffer buffer'.
Proof.
  intros Hsize1 Hbound Hw Hpos Hrange Hslot Hlen.
  assert (Hslot' : drop name_pos (m_data buffer) = repeat x00 (available + 1)).
  { rewrite <- Hslot. unfold read_bytes. symmetry. apply take_ge.
    rewrite length_drop. unfold written in Hw. lia. }
  unfold set_user_at. rewrite Hsize1.
  destruct (Z.leb_spec (size this buffer) (Z.of_nat assert_bound)) as [_|]; [|lia].
  cbn [Z.eqb Pos.eqb andb negb].
  set (extra := if available <? length user
                then padded_length (length user - available) else 0).
  set (b3 := if available <? length user then _ else buffer).
  assert (H3 : written b3 = written buffer + extra /\
               m_committed b3 = m_committed buffer /\
               drop name_pos (m_data b3) = repeat x00 (available + 1 + extra)).
  { unfold b3, extra. destruct (available <? length user).
    - apply (set_user_reservation this name_pos available); assumption.
    - rewrite !Nat.add_0_r. auto. }
  destruct H3 as (Hw3 & Hc3 & Hd3).
  assert (Hroom : length user < available + 1 + extra).
  { unfold extra. destruct (Nat.ltb_spec available (length user)); [|lia].
    pose proof (padded_length_ge (length user - available)). lia. }
  eexists. split; [reflexivity|].
  set (d4 := write_bytes name_pos user (m_data b3)).
  assert (Hl4 : length d4 = written b3).
  { unfold d4. apply length_write_bytes. unfold written in *. lia. }
  assert (Hd4 : drop name_pos d4
                = user ++ repeat x00 (available + 1 + extra - length user)).
  { unfold d4. rewrite drop_write_bytes_at by (unfold written in *; lia).
    f_equal. rewrite <- drop_drop, Hd3. apply drop_repeat. }
  unfold user_stored, store, load, with_data, written. cbn [m_data m_committed].
  set (d5 := write_bytes user_size_pos _ d4).
  assert (Hl5 : length d5 = length d4).
  { unfold d5. apply length_write_bytes. rewrite length_le_bytes.
    unfold written in *. lia. }
  assert (Hd5 : drop name_pos d5 = drop name_pos d4).
  { unfold d5. apply drop_write_bytes_above; rewrite length_le_bytes;
      unfold written in *; lia. }
  repeat split.
  - pose proof (read_write_bytes user_size_pos
                  (le_bytes 2 ((Z.of_nat (length user) + 1) mod 2 ^ 16)) d4) as Hr.
    rewrite length_le_bytes in Hr. fold d5 in Hr.
    rewrite Hr by (unfold written in *; lia).
    rewrite le_value_le_bytes_2 by (apply Z.mod_pos_bound; lia).
    apply Z.mod_small. lia.
  - unfold read_bytes. rewrite Hd5, Hd4. apply take_app_length.
  - unfold written in *. lia.
  - rewrite <- drop_drop, Hd5, Hd4, drop_app_length.
    f_equal. unfold written in *. lia.
  - unfold written in *. lia.
  - exact Hc3.
Qed.

Lemma padded_length_aligned (n : nat) : padded_length n mod align_bytes = 0.
Proof. unfold padded_length, align_bytes. apply Nat.Div0.mod_mul. Qed.

Lemma set_user_stores (T : object_layout) (this : Builder) (user : list byte)
    (buffer : Buffer) :
  before_set_user T this buffer ->
  (Z.of_nat (length user) < 65535)%Z ->
  exists buffer',
    set_user uninitialized T this user buffer = returns buffer' /\
    user_stored (user_position T this) (user_position T this + sizeof_string_size_type)
      user
      (if min_size_for_user - sizeof_string_size_type - 1 <? length user
       then padded_length (length user - (min_size_for_user - sizeof_string_size_type - 1))
       else 0)
      buffer buffer'.
Proof.
  intros (Hsize1 & Hsize & Hw & Hslot & Hparents) Hlen.
  pose proof (T_fields_length T) as HT.
  change min_size_for_user with 8 in *. change sizeof_string_size_type with 2 in *.
  cbn [Nat.sub] in *.
  replace (user_position T this + 2) with (item_pos this + (sizeof_T T + 2))
    by (unfold user_position; lia).
  apply (set_user_at_stores this (user_position T this)
           (item_pos this + (sizeof_T T + 2)) 5 (sizeof_T T + 2 + padded_length 1)).
  - exact Hsize1.
  - rewrite Hsize. change (padded_length 1) with 8. lia.
  - lia.
  - unfold user_position. lia.
  - rewrite open_items_m_parent. constructor; [lia|].
    eapply Forall_impl; [exact Hparents|]. intros h Hh. cbn beta in *. lia.
  - replace (item_pos this + (sizeof_T T + 2)) with (user_position T this + 2)
      by (unfold user_position; lia).
    exact Hslot.
  - exact Hlen.
Qed.

Lemma Changeset_set_user_stores (C : changeset_layout) (this : Builder) (user : list byte)
    (buffer : Buffer) :
  Changeset_before_set_user C this buffer ->
  (Z.of_nat (length user) < 65535)%Z ->
  exists buffer',
    Changeset_set_user uninitialized C this user buffer = returns buffer' /\
    user_stored (item_pos this + offsetof_m_user_size C)
      (item_pos this + sizeof_T (Changeset_object C)) user
      (if Changeset_min_size_for_user - 1 <? length user
       then padded_length (length user - (Changeset_min_size_for_user - 1))
       else 0)
      buffer buffer'.
Proof.
  intros (Hsize1 & Hsize & Hw & Hslot & Hparents) Hlen.
  pose proof (T_fields_length (Changeset_object C)) as HT.
  destruct (m_user_size_inside C) as [Hoff1 Hoff2].
  change Changeset_min_size_for_user with 8 in *. cbn [Nat.sub] in *.
  apply (set_user_at_stores this (item_pos this + offsetof_m_user_size C)
           (item_pos this + sizeof_T (Changeset_object C)) 7
           (sizeof_T (Changeset_object C) + padded_length 1)).
  - exact Hsize1.
  - rewrite Hsize. change (padded_length 1) with 8. lia.
  - lia.
  - lia.
  - rewrite open_items_m_parent. constructor; [lia|].
    eapply Forall_impl; [exact Hparents|]. intros h Hh. cbn beta in *. lia.
  - exact Hslot.
  - exact Hlen.
Qed.

Lemma c_str_user_stored (user_size_pos name_pos : nat) (user : list byte) (extra : nat)
    (buffer buffer' : Buffer) :
  user_stored user_size_pos name_pos user extra buffer buffer' ->
  Forall (fun c => c <> x00) user ->
  c_str name_pos buffer' = user.
Proof.
  intros (_ & Hname & Hlt & Hzeros & _) Hnz. unfold c_str.
  rewrite (drop_split (m_data buffer') name_pos (length user)).
  unfold read_bytes in Hname. rewrite Hname, Hzeros.
  destruct (written buffer' - (name_pos + length user)) as [|k] eqn:E; [lia|].
  cbn [repeat]. now apply c_str_of_terminated.
Qed.

(** *** The constructors *)

(** The room for the name after the last two steps of a constructor:
    zero bytes at [slot], then the user size 1 at [user_size_pos]. *)
Lemma constructed_slot (d : list byte) (user_size_pos slot k : nat) :
  length d = slot + k ->
  user_size_pos + 2 <= slot + k ->
  let d' := write_bytes user_size_pos (le_bytes 2 (1 mod 2 ^ 16))
              (write_bytes slot (repeat x00 k) d) in
  length d' = slot + k /\
  le_value (read_bytes user_size_pos 2 d') = 1%Z /\
  (user_size_pos + 2 <= slot -> drop slot d' = repeat x00 k) /\
  (user_size_pos = slot -> drop (slot + 2) d' = repeat x00 (k - 2)).
Proof.
  intros Hlen Hin d'.
  set (d1 := write_bytes slot (repeat x00 k) d) in *.
  assert (Hl1 : length d1 = slot + k).
  { unfold d1. rewrite length_write_bytes; rewrite ?repeat_length; lia. }
  assert (Hd1 : drop slot d1 = repeat x00 k).
  { unfold d1. rewrite drop_write_bytes_at by lia. rewrite repeat_length.
    rewrite drop_ge by lia. apply app_nil_r. }
  assert (Hl' : length d' = slot + k).
  { unfold d'. rewrite length_write_bytes; rewrite ?length_le_bytes; lia. }
  repeat split.
  - exact Hl'.
  - pose proof (read_write_bytes user_size_pos (le_bytes 2 (1 mod 2 ^ 16)) d1) as Hr.
    rewrite length_le_bytes in Hr. fold d' in Hr. rewrite Hr by lia. reflexivity.
  - intros Hbelow. unfold d'.
    rewrite drop_write_bytes_above; rewrite ?length_le_bytes; try lia. exact Hd1.
  - intros ->. unfold d'.
    rewrite <- drop_drop, drop_write_bytes_at by lia.
    rewrite length_le_bytes, drop_app_length' by (symmetry; apply length_le_bytes).
    rewrite <- drop_drop, Hd1. apply drop_repeat.
Qed.

(** The buffer of a constructor before its last two steps has the
    length of the old buffer and of the new item. *)
Lemma constructed_length (buffer : Buffer) (parent : option Builder) (T : object_layout)
    (k : nat) :
  Forall (fun h => h + 4 <= written buffer) (open_items_of parent) ->
  let '(this, b) := Builder_new uninitialized buffer parent (sizeof_T T + k) in
  let b := with_data b (write_bytes (item_pos this) (T_new T) (m_data b)) in
  let b := add_size this k b in
  this = Builder_at (written buffer) parent /\
  written b = written buffer + sizeof_T T + k /\
  m_committed b = m_committed buffer.
Proof.
  intros Hparents. pose proof (T_fields_length T) as HT.
  unfold Builder_new, reserve_space.
  set (b1 := with_data buffer _).
  set (b2 := with_data b1 (write_bytes (written buffer) _ (m_data b1))).
  assert (Hw1 : written b1 = written buffer + (sizeof_T T + k)).
  { unfold b1, with_data, written. cbn [m_data].
    now rewrite length_app, length_map, length_seq. }
  assert (Hw2 : written b2 = written b1).
  { unfold b2, with_data, written in *. cbn [m_data].
    apply length_write_bytes. rewrite repeat_length. lia. }
  set (b3 := match parent with Some p => add_size p (sizeof_T T + k) b2 | None => b2 end).
  assert (H3 : written b3 = written b2 /\ m_committed b3 = m_committed b2).
  { unfold b3. destruct parent as [p|]; [|auto].
    apply written_add_size. cbn [open_items_of] in Hparents.
    eapply Forall_impl; [exact Hparents|]. intros h Hh. cbn beta in *. lia. }
  destruct H3 as [Hw3 Hc3].
  rewrite item_pos_Builder_at.
  set (b4 := with_data b3 (write_bytes (written buffer) (T_new T) (m_data b3))).
  assert (Hw4 : written b4 = written b3).
  { unfold b4, with_data, written in *. cbn [m_data].
    apply length_write_bytes. unfold T_new. rewrite length_app, length_le_bytes. lia. }
  destruct (written_add_size (Builder_at (written buffer) parent) k b4) as [Hw5 Hc5].
  { rewrite open_items_Builder_at. constructor; [lia|].
    eapply Forall_impl; [exact Hparents|]. intros h Hh. cbn beta in *. lia. }
  split; [reflexivity|]. split; [lia|]. rewrite Hc5. unfold b4, with_data. cbn [m_committed].
  rewrite Hc3. reflexivity.
Qed.

Lemma OSMObjectBuilder_new_user (T : object_layout) (buffer : Buffer)
    (parent : option Builder) :
  Forall (fun h => h + 4 <= written buffer) (open_items_of parent) ->
  let '(this, buffer') := OSMObjectBuilder_new uninitialized T buffer parent in
  user_size T this buffer' = 1%Z /\
  user T this buffer' = [] /\
  read_bytes (user_position T this + sizeof_string_size_type)
    (min_size_for_user - sizeof_string_size_type) (m_data buffer')
    = repeat x00 (min_size_for_user - sizeof_string_size_type) /\
  written buffer' = written buffer + sizeof_T T + min_size_for_user.
Proof.
  intros Hparents. unfold OSMObjectBuilder_new.
  pose proof (constructed_length buffer parent T min_size_for_user Hparents) as H.
  destruct (Builder_new uninitialized buffer parent (sizeof_T T + min_size_for_user))
    as [this b].
  cbv zeta in H. destruct H as (Hthis & Hw & Hc).
  set (b5 := add_size this min_size_for_user _) in *.
  assert (Hpos : item_pos this = written buffer)
    by (rewrite Hthis; apply item_pos_Builder_at).
  change min_size_for_user with 8 in *. change sizeof_string_size_type with 2 in *.
  destruct (constructed_slot (m_data b5) (item_pos this + sizeof_T T)
              (item_pos this + sizeof_T T) 8) as (Hl & Hsize & _ & Hzeros).
  { unfold written in *. lia. }
  { lia. }
  specialize (Hzeros eq_refl).
  unfold user_size, user, set_user_size, user_position, load, store, c_str, with_data,
    written, read_bytes.
  cbn [m_data]. change sizeof_string_size_type with 2.
  change (1 mod 2 ^ 16 mod 2 ^ 16)%Z with (1 mod 2 ^ 16)%Z.
  repeat split.
  - exact Hsize.
  - rewrite Hzeros. reflexivity.
  - rewrite Hzeros. reflexivity.
  - rewrite Hl. unfold written in Hpos. lia.
Qed.

Lemma ChangesetBuilder_new_user (C : changeset_layout) (buffer : Buffer)
    (parent : option Builder) :
  Forall (fun h => h + 4 <= written buffer) (open_items_of parent) ->
  let '(this, buffer') := ChangesetBuilder_new uninitialized C buffer parent in
  Changeset_user_size C this buffer' = 1%Z /\
  Changeset_user C this buffer' = [] /\
  read_bytes (item_pos this + sizeof_T (Changeset_object C)) Changeset_min_size_for_user
    (m_data buffer')
    = repeat x00 Changeset_min_size_for_user /\
  written buffer'
    = written buffer + sizeof_T (Changeset_object C) + Changeset_min_size_for_user.
Proof.
  intros Hparents. unfold ChangesetBuilder_new. cbv zeta.
  pose proof (constructed_length buffer parent (Changeset_object C)
                Changeset_min_size_for_user Hparents) as H.
  destruct (Builder_new uninitialized buffer parent
              (sizeof_T (Changeset_object C) + Changeset_min_size_for_user))
    as [this b].
  cbv zeta in H. destruct H as (Hthis & Hw & Hc).
  set (b5 := add_size this Changeset_min_size_for_user _) in *.
  assert (Hpos : item_pos this = written buffer)
    by (rewrite Hthis; apply item_pos_Builder_at).
  destruct (m_user_size_inside C) as [Hoff1 Hoff2].
  change Changeset_min_size_for_user with 8 in *.
  destruct (constructed_slot (m_data b5) (item_pos this + offsetof_m_user_size C)
              (item_pos this + sizeof_T (Changeset_object C)) 8)
    as (Hl & Hsize & Hzeros & _).
  { unfold written in *. lia. }
  { lia. }
  specialize (Hzeros ltac:(lia)).
  unfold Changeset_user_size, Changeset_user, Changeset_set_user_size, load, store,
    c_str, with_data, written, read_bytes.
  cbn [m_data]. change (1 mod 2 ^ 16 mod 2 ^ 16)%Z with (1 mod 2 ^ 16)%Z.
  repeat split.
  - exact Hsize.
  - rewrite Hzeros. reflexivity.
  - rewrite Hzeros. reflexivity.
  - rewrite Hl. unfold written in Hpos. lia.
Qed.

Lemma read_bytes_write_after (pos n wpos : nat) (bytes data : list byte) :
  pos + n <= wpos -> wpos + length bytes <= length data ->
  read_bytes pos n (write_bytes wpos bytes data) = read_bytes pos n data.
Proof.
  intros Hbefore Hin. apply read_bytes_ext.
  - lia.
  - rewrite length_write_bytes; lia.
  - intros p Hp. apply lookup_write_bytes_lt; lia.
Qed.

(** The size of the item after the constructor has counted the room for
    the user name. *)
Lemma constructed_size (buffer : Buffer) (parent : option Builder) (T : object_layout)
    (k : nat) :
  Forall (fun h => h + 4 <= written buffer) (open_items_of parent) ->
  (Z.of_nat (sizeof_T T + k) < 2 ^ 32)%Z ->
  let '(this, b) := Builder_new uninitialized buffer parent (sizeof_T T + k) in
  let b := with_data b (write_bytes (item_pos this) (T_new T) (m_data b)) in
  let b := add_size this k b in
  Item_byte_size (written buffer) b = Z.of_nat (sizeof_T T + k).
Proof.
  intros Hparents Hsmall. pose proof (T_fields_length T) as HT.
  unfold Builder_new, reserve_space.
  set (b1 := with_data buffer _).
  set (b2 := with_data b1 (write_bytes (written buffer) _ (m_data b1))).
  assert (Hw1 : written b1 = written buffer + (sizeof_T T + k)).
  { unfold b1, with_data, written. cbn [m_data].
    now rewrite length_app, length_map, length_seq. }
  assert (Hw2 : written b2 = written b1).
  { unfold b2, with_data, written in *. cbn [m_data].
    apply length_write_bytes. rewrite repeat_length. lia. }
  set (b3 := match parent with Some p => add_size p (sizeof_T T + k) b2 | None => b2 end).
  assert (H3 : written b3 = written b2).
  { unfold b3. destruct parent as [p|]; [|reflexivity].
    apply written_add_size. cbn [open_items_of] in Hparents.
    eapply Forall_impl; [exact Hparents|]. intros h Hh. cbn beta in *. lia. }
  rewrite item_pos_Builder_at.
  set (b4 := with_data b3 (write_bytes (written buffer) (T_new T) (m_data b3))).
  assert (Hw4 : written b4 = written b3).
  { unfold b4, with_data, written in *. cbn [m_data].
    apply length_write_bytes. unfold T_new. rewrite length_app, length_le_bytes. lia. }
  assert (Hsize4 : Item_byte_size (written buffer) b4 = Z.of_nat (sizeof_T T)).
  { unfold Item_byte_size, load, b4, with_data, read_bytes. cbn [m_data].
    rewrite drop_write_bytes_at by (unfold written in *; lia).
    unfold T_new. rewrite <- !app_assoc.
    rewrite take_app_length' by (symmetry; apply length_le_bytes).
    apply le_value_le_bytes_4. lia. }
  set (b4' := Item_add_size (written buffer) (Z.of_nat k) b4).
  assert (Hw4' : written b4' = written b4).
  { unfold b4', Item_add_size, store, with_data, written in *. cbn [m_data].
    apply length_write_bytes. rewrite length_le_bytes. lia. }
  assert (Hsize4' : Item_byte_size (written buffer) b4' = Z.of_nat (sizeof_T T + k)).
  { unfold b4', Item_add_size. rewrite Hsize4.
    unfold Item_byte_size, load, store, with_data. cbn [m_data].
    pose proof (read_write_bytes (written buffer)
                  (le_bytes 4 ((Z.of_nat (sizeof_T T) + Z.of_nat k) mod 2 ^ 32))
                  (m_data b4)) as Hr.
    rewrite length_le_bytes in Hr. rewrite Hr by (unfold written in *; lia).
    rewrite le_value_le_bytes_4 by (apply Z.mod_pos_bound; lia).
    rewrite Z.mod_small by lia. lia. }
  destruct parent as [p|]; cbn [Builder_at add_size]; fold b4'; [|exact Hsize4'].
  unfold Item_byte_size, load, read_bytes in *.
  rewrite (add_size_above p k (written buffer) b4'); [exact Hsize4' | exact Hparents | lia].
Qed.

Lemma OSMObjectBuilder_new_before_set_user (T : object_layout) (buffer : Buffer)
    (parent : option Builder) :
  Forall (fun h => h + 4 <= written buffer) (open_items_of parent) ->
  (Z.of_nat (sizeof_T T + min_size_for_user) < 2 ^ 32)%Z ->
  let '(this, buffer') := OSMObjectBuilder_new uninitialized T buffer parent in
  before_set_user T this buffer'.
Proof.
  intros Hparents Hsmall. pose proof (T_fields_length T) as HT.
  pose proof (OSMObjectBuilder_new_user T buffer parent Hparents) as Huser.
  unfold OSMObjectBuilder_new in *.
  pose proof (constructed_length buffer parent T min_size_for_user Hparents) as Hlen.
  pose proof (constructed_size buffer parent T min_size_for_user Hparents Hsmall) as Hsize.
  destruct (Builder_new uninitialized buffer parent (sizeof_T T + min_size_for_user))
    as [this b].
  cbv zeta in Hlen, Hsize. destruct Hlen as (Hthis & Hw & Hc).
  set (b5 := add_size this min_size_for_user _) in *.
  destruct Huser as (Hu1 & _ & Hslot & Hw').
  assert (Hpos : item_pos this = written buffer)
    by (rewrite Hthis; apply item_pos_Builder_at).
  unfold before_set_user. split; [exact Hu1|]. split; [|split; [|split]].
  - unfold size. rewrite Hpos, <- Hsize.
    unfold Item_byte_size, load, set_user_size, store, with_data, user_position.
    cbn [m_data]. f_equal.
    change min_size_for_user with 8 in *.
    rewrite read_bytes_write_after;
      [| lia | rewrite length_le_bytes, length_write_bytes;
               rewrite ?repeat_length; unfold written in *; lia].
    apply read_bytes_write_after; rewrite ?repeat_length; unfold written in *; lia.
  - rewrite Hw', Hpos. reflexivity.
  - exact Hslot.
  - rewrite Hthis, m_parent_Builder_at, item_pos_Builder_at. exact Hparents.
Qed.

Lemma ChangesetBuilder_new_before_set_user (C : changeset_layout) (buffer : Buffer)
    (parent : option Builder) :
  Forall (fun h => h + 4 <= written buffer) (open_items_of parent) ->
  (Z.of_nat (sizeof_T (Changeset_object C) + Changeset_min_size_for_user) < 2 ^ 32)%Z ->
  let '(this, buffer') := ChangesetBuilder_new uninitialized C buffer parent in
  Changeset_before_set_user C this buffer'.
Proof.
  intros Hparents Hsmall. pose proof (T_fields_length (Changeset_object C)) as HT.
  destruct (m_user_size_inside C) as [Hoff1 Hoff2].
  pose proof (ChangesetBuilder_new_user C buffer parent Hparents) as Huser.
  unfold ChangesetBuilder_new in *. cbv zeta in *.
  pose proof (constructed_length buffer parent (Changeset_object C)
                Changeset_min_size_for_user Hparents) as Hlen.
  pose proof (constructed_size buffer parent (Changeset_object C)
                Changeset_min_size_for_user Hparents Hsmall) as Hsize.
  destruct (Builder_new uninitialized buffer parent
              (sizeof_T (Changeset_object C) + Changeset_min_size_for_user))
    as [this b].
  cbv zeta in Hlen, Hsize. destruct Hlen as (Hthis & Hw & Hc).
  set (b5 := add_size this Changeset_min_size_for_user _) in *.
  destruct Huser as (Hu1 & _ & Hslot & Hw').
  assert (Hpos : item_pos this = written buffer)
    by (rewrite Hthis; apply item_pos_Builder_at).
  unfold Changeset_before_set_user. cbv zeta.
  split; [exact Hu1|]. split; [|split; [|split]].
  - unfold size. rewrite Hpos, <- Hsize.
    unfold Item_byte_size, load, Changeset_set_user_size, store, with_data.
    cbn [m_data]. f_equal.
    change Changeset_min_size_for_user with 8 in *.
    rewrite read_bytes_write_after;
      [| lia | rewrite length_le_bytes, length_write_bytes;
               rewrite ?repeat_length; unfold written in *; lia].
    apply read_bytes_write_after; rewrite ?repeat_length; unfold written in *; lia.
  - rewrite Hw', Hpos. reflexivity.
  - exact Hslot.
  - rewrite Hthis, m_parent_Builder_at, item_pos_Builder_at. exact Hparents.
Qed.

End UserName.

End builder_facts.

(** * The claims of the specification *)

Lemma example_well_formed : well_formed_container wire_reader example_first example_data.
Proof.
  split; [|split].
  - split; [vm_compute; discriminate|]. split; [vm_compute; split; discriminate|].
    eexists. split; [vm_compute; reflexivity|]. split; reflexivity.
  - repeat constructor; try (vm_compute; discriminate);
      eexists; (split; [vm_compute; reflexivity|]); split; reflexivity.
  - vm_compute. reflexivity.
Qed.

(** C1.  For a well-formed container file, one header block and then data
    blocks with bodies of sizes S1..Sn, the constructor succeeds and
    [block_starts] has exactly n entries in the order of the file; entry i
    has [datasize] Si, as [file_offset] the offset of the body of block i
    (the length prefixes, headers and bodies of all blocks before it, then
    its own prefix and header), and the first item fields at their
    sentinels, zero and [undefined]. *)
Theorem block_starts_of_well_formed_container
    (char_is_signed : bool) (read_message : list byte -> option (list field))
    (first : block) (data : list block) :
  well_formed_container read_message first data ->
  exists this,
    PbfBlockIndexTable_new char_is_signed read_message (container_file first data)
      = Some (inr this) /\
    length (block_starts this) = length data /\
    forall (i : nat) (b : block),
      data !! i = Some b ->
      exists e,
        block_starts this !! i = Some e /\
        datasize e = Z.of_nat (length (body b)) /\
        file_offset e = body_offset first data i b /\
        first_item_id_or_zero e = 0 /\
        first_item_type_or_zero e = undefined.
Proof.
  intros Hwf.
  destruct (PbfBlockIndexTable_new_well_formed char_is_signed read_message first data Hwf)
    as (this & Hnew & Hstarts).
  exists this. split; [exact Hnew|]. rewrite Hstarts. split.
  - apply length_expected_block_starts.
  - intros i b Hi. eexists. split; [apply expected_block_starts_lookup, Hi|].
    unfold block_start_at, body_offset. cbn. repeat split; lia.
Qed.

Lemma block_starts_of_well_formed_container_witness :
  exists this,
    PbfBlockIndexTable_new true wire_reader example_file = Some (inr this) /\
    length (block_starts this) = 3%nat /\
    forall (i : nat) (b : block),
      example_data !! i = Some b ->
      exists e,
        block_starts this !! i = Some e /\
        datasize e = Z.of_nat (length (body b)) /\
        file_offset e = body_offset example_first example_data i b /\
        first_item_id_or_zero e = 0 /\
        first_item_type_or_zero e = undefined.
Proof.
  exact (block_starts_of_well_formed_container true wire_reader
           example_first example_data example_well_formed).
Defined.

Example example_block_starts :
  option_map (fun r => match r with inr t => block_starts t | inl _ => [] end)
    (PbfBlockIndexTable_new true wire_reader example_file)
  = Some [ {| file_offset := 35; first_item_id_or_zero := 0; datasize := 2;
              first_item_type_or_zero := undefined |};
           {| file_offset := 52; first_item_id_or_zero := 0; datasize := 1;
              first_item_type_or_zero := undefined |};
           {| file_offset := 68; first_item_id_or_zero := 0; datasize := 4;
              first_item_type_or_zero := undefined |} ].
Proof. vm_compute. reflexivity. Qed.

(** C2.  The claim: a blob header whose type is not exactly the expected
    one is refused with [UnexpectedType], an empty type and a strict prefix
    of the expected type included.  The code compares with [strncmp] over
    the length of the type that the header states, so it takes every prefix
    of the expected type: a header block with the empty type, a data block
    of type [OSM] and a data block with no type field at all are decoded and
    indexed. *)
Theorem decode_blob_header_takes_prefix_types :
  decode_blob_header wire_reader [x0a; x00; x18; x03] (bytes_of "OSMHeader") = inr 3 /\
  decode_blob_header wire_reader ([x0a; x03] ++ bytes_of "OSM" ++ [x18; x02])
    (bytes_of "OSMData") = inr 2 /\
  decode_blob_header wire_reader [x18; x02] (bytes_of "OSMData") = inr 2 /\
  option_map (fun r => match r with inr t => inr (block_starts t) | inl e => inl e end)
    (PbfBlockIndexTable_new true wire_reader short_type_file)
  = Some (inr [ {| file_offset := 22; first_item_id_or_zero := 0; datasize := 2;
                   first_item_type_or_zero := undefined |} ]) /\
  option_map (fun r => match r with inr t => inr (block_starts t) | inl e => inl e end)
    (PbfBlockIndexTable_new true wire_reader no_type_file)
  = Some (inr [ {| file_offset := 26; first_item_id_or_zero := 0; datasize := 2;
                   first_item_type_or_zero := undefined |} ]).
Proof. repeat split; vm_compute; reflexivity. Qed.

(** C3.  For a valid index, the decoder object that [get_parsed_block]
    builds asks for all entity kinds and carries the metadata flag of the
    caller as it is; the call comes to the same, result and table, with a
    decoder that is made to decode all kinds whatever it is asked for. *)
Theorem get_parsed_block_decodes_all_kinds
    (data_blob_parser : PBFDataBlobDecoder -> option memory.Buffer)
    (this : PbfBlockIndexTable) (block_index : nat) (read_metadata0 : read_meta) :
  (block_index < length (block_starts this))%nat ->
  (exists block_start,
      block_starts this !! block_index = Some block_start /\
      forall decoder fd,
        read_block this block_start read_metadata0 = (inr decoder, fd) ->
        read_types decoder = osm_entity_bits.all /\
        read_metadata decoder = read_metadata0) /\
  get_parsed_block data_blob_parser this block_index read_metadata0 =
  get_parsed_block (decoding_all_kinds data_blob_parser) this block_index read_metadata0.
Proof.
  intros Hvalid. split.
  - destruct (lookup_lt_is_Some_2 _ _ Hvalid) as [block_start Hb].
    exists block_start. split; [exact Hb|].
    intros decoder fd. apply read_block_decoder.
  - apply get_parsed_block_all_kinds.
Qed.

Lemma get_parsed_block_decodes_all_kinds_witness :
  (exists block_start,
      block_starts example_table !! 1%nat = Some block_start /\
      forall decoder fd,
        read_block example_table block_start read_meta_no = (inr decoder, fd) ->
        read_types decoder = osm_entity_bits.all /\
        read_metadata decoder = read_meta_no) /\
  get_parsed_block example_decoder example_table 1 read_meta_no =
  get_parsed_block (decoding_all_kinds example_decoder) example_table 1 read_meta_no.
Proof.
  apply (get_parsed_block_decodes_all_kinds example_decoder example_table 1 read_meta_no).
  cbn. lia.
Defined.

Example get_parsed_block_example :
  fst (get_parsed_block example_decoder example_table 2 read_meta_yes)
  = returned [ {| memory.type := node; memory.id := 49 |};
               {| memory.type := node; memory.id := 50 |};
               {| memory.type := node; memory.id := 51 |};
               {| memory.type := node; memory.id := 52 |} ].
Proof. vm_compute. reflexivity. Qed.

(** C4.  An entry of a constructed table starts with its first item fields
    at the sentinels.  Through any sequence of calls with valid indices its
    [file_offset] and [datasize] stay as they are, and its first item fields
    are those of the first OSM object of the first call for this entry that
    returned a buffer with one (they stay at the sentinels when there is no
    such call); once the type is not [undefined], no later call changes the
    entry.  A buffer that holds OSM objects only, as a decoded block does,
    has its first item as its first OSM object. *)
Theorem first_item_filled_at_most_once
    (char_is_signed : bool) (read_message : list byte -> option (list field))
    (data_blob_parser : PBFDataBlobDecoder -> option memory.Buffer)
    (file_contents : list byte) (this : PbfBlockIndexTable)
    (k : nat) (e : pbf_block_start) (calls1 calls2 : list call) :
  Z.of_nat (length file_contents) < 2 ^ 63 ->
  PbfBlockIndexTable_new char_is_signed read_message file_contents = Some (inr this) ->
  block_starts this !! k = Some e ->
  Forall (fun c : call => (fst c < length (block_starts this))%nat) (calls1 ++ calls2) ->
  first_item_type_or_zero e = undefined /\
  first_item_id_or_zero e = 0 /\
  (let '(this1, trace1) := run_calls data_blob_parser this calls1 in
   let '(this2, trace2) := run_calls data_blob_parser this1 calls2 in
   exists e1 e2,
     block_starts this1 !! k = Some e1 /\
     block_starts this2 !! k = Some e2 /\
     file_offset e1 = file_offset e /\ datasize e1 = datasize e /\
     file_offset e2 = file_offset e /\ datasize e2 = datasize e /\
     e1 = match first_decoded_item k trace1 with
          | Some it =>
              {| file_offset := file_offset e;
                 first_item_id_or_zero := memory.id it;
                 datasize := datasize e;
                 first_item_type_or_zero := memory.type it |}
          | None => e
          end /\
     (first_item_type_or_zero e1 <> undefined -> e2 = e1)) /\
  (forall buffer : memory.Buffer,
      Forall (fun it => memory.type_is_compatible_OSMObject (memory.type it) = true) buffer ->
      memory.begin_OSMObject buffer = head buffer).
Proof.
  intros Hlen Hnew Hk _.
  destruct (PbfBlockIndexTable_new_complete _ _ _ _ Hlen Hnew)
    as (first & data & _ & _ & _ & Hstarts).
  assert (Hunknown : first_item_type_or_zero e = undefined /\ first_item_id_or_zero e = 0).
  { rewrite Hstarts in Hk. eapply expected_block_starts_unknown. exact Hk. }
  destruct Hunknown as [Hty Hid].
  split; [exact Hty|]. split; [exact Hid|]. split; [|apply begin_OSMObject_head].
  pose proof (run_calls_entry data_blob_parser calls1 this k e Hk) as H1.
  destruct (run_calls data_blob_parser this calls1) as [this1 trace1].
  pose proof (run_calls_entry data_blob_parser calls2 this1 k _ H1) as H2.
  destruct (run_calls data_blob_parser this1 calls2) as [this2 trace2].
  do 2 eexists. split; [exact H1|]. split; [exact H2|].
  assert (Hfill : forall o,
             fill_first_item e o =
             match o with
             | Some it =>
                 {| file_offset := file_offset e;
                    first_item_id_or_zero := memory.id it;
                    datasize := datasize e;
                    first_item_type_or_zero := memory.type it |}
             | None => e
             end).
  { intros [it|]; unfold fill_first_item; rewrite Hty; reflexivity. }
  assert (Hsame : forall e0 o, file_offset (fill_first_item e0 o) = file_offset e0 /\
                               datasize (fill_first_item e0 o) = datasize e0).
  { intros e0 o. unfold fill_first_item.
    destruct (first_item_type_or_zero e0), o; split; reflexivity. }
  repeat split.
  - apply Hsame.
  - apply Hsame.
  - rewrite (proj1 (Hsame _ _)). apply Hsame.
  - rewrite (proj2 (Hsame _ _)). apply Hsame.
  - apply Hfill.
  - apply fill_first_item_defined.
Qed.

Lemma first_item_filled_at_most_once_witness :
  first_item_type_or_zero
    {| file_offset := 52; first_item_id_or_zero := 0; datasize := 1;
       first_item_type_or_zero := undefined |} = undefined /\
  block_starts
    (fst (run_calls example_decoder example_table
            [(0%nat, read_meta_no); (1%nat, read_meta_yes); (1%nat, read_meta_no)]))
    !! 1%nat
  = Some {| file_offset := 52; first_item_id_or_zero := 33; datasize := 1;
            first_item_type_or_zero := node |}.
Proof.
  pose proof (first_item_filled_at_most_once true wire_reader example_decoder
                example_file example_table 1
                {| file_offset := 52; first_item_id_or_zero := 0; datasize := 1;
                   first_item_type_or_zero := undefined |}
                [(0%nat, read_meta_no); (1%nat, read_meta_yes); (1%nat, read_meta_no)] []
                ltac:(vm_compute; reflexivity) ltac:(vm_compute; reflexivity)
                ltac:(reflexivity)
                ltac:(repeat constructor)) as (Hty & _ & _ & _).
  split; [exact Hty|]. vm_compute. reflexivity.
Defined.

(** C5.  The claim: the four bytes of a length prefix are read as a
    big-endian unsigned number, bytes with the high bit set included.  The
    code converts each plain [char] to [uint32_t]; where [char] is signed, a
    byte with the high bit set is sign-extended first: the prefix
    [00 00 00 80] comes out as 4294967168, not as 128.  Where [char] is
    unsigned the same bytes give 128. *)
Theorem get_size_in_network_byte_order_sign_extends :
  get_size_in_network_byte_order true [x00; x00; x00; x80] = 4294967168 /\
  big_endian_u32 x00 x00 x00 x80 = 128 /\
  get_size_in_network_byte_order false [x00; x00; x00; x80] = 128.
Proof. repeat split; reflexivity. Qed.

(** C6.  The constructor ends on every file, with an error and no table or
    with a table that indexes the whole file: the file is a header block and
    data blocks from its first byte to its last, and the table has the
    entries of exactly these data blocks.  In particular it fails with
    [BlockTooLarge] at a block, the first or a later one after any number
    of good blocks, whose datasize is over the bound, and it fails with an
    end-of-file or file-size error on a file that ends inside a block. *)
Theorem index_construction_all_or_nothing
    (char_is_signed : bool) (read_message : list byte -> option (list field))
    (file_contents : list byte) :
  Z.of_nat (length file_contents) < 2 ^ 63 ->
  let new := PbfBlockIndexTable_new char_is_signed read_message in
  ((exists e, new file_contents = Some (inl e)) \/
   (exists this first data,
       new file_contents = Some (inr this) /\
       file_contents = container_file first data /\
       accepted_block read_message (bytes_of "OSMHeader") first /\
       Forall (accepted_block read_message (bytes_of "OSMData")) data /\
       block_starts this = expected_block_starts (Z.of_nat (length (block_bytes first))) data)) /\
  (forall first data hdr tail v,
      file_contents = container_file first data ++ be32 (Z.of_nat (length hdr)) ++ hdr ++ tail ->
      well_formed_block read_message (bytes_of "OSMHeader") first ->
      Forall (well_formed_block read_message (bytes_of "OSMData")) data ->
      header_states read_message (bytes_of "OSMData") v hdr ->
      max_block_size < v < 2 ^ 31 ->
      new file_contents = Some (inl BlockTooLarge)) /\
  (forall hdr tail v,
      file_contents = be32 (Z.of_nat (length hdr)) ++ hdr ++ tail ->
      header_states read_message (bytes_of "OSMHeader") v hdr ->
      max_block_size < v < 2 ^ 31 ->
      new file_contents = Some (inl BlockTooLarge)) /\
  (forall first data b j,
      file_contents = container_file first data ++ take j (block_bytes b) ->
      well_formed_container read_message first (data ++ [b]) ->
      (0 < j < length (block_bytes b))%nat ->
      exists e, truncation_error e /\ new file_contents = Some (inl e)) /\
  (forall first j,
      file_contents = take j (block_bytes first) ->
      well_formed_container read_message first [] ->
      (j < length (block_bytes first))%nat ->
      exists e, truncation_error e /\ new file_contents = Some (inl e)).
Proof.
  intros Hlen new. subst new. repeat split.
  - destruct (PbfBlockIndexTable_new_total char_is_signed read_message file_contents Hlen)
      as [[e|this] Hnew]; [left; eauto|].
    right. destruct (PbfBlockIndexTable_new_complete _ _ _ _ Hlen Hnew)
      as (first & data & H). exists this, first, data. split; [exact Hnew | exact H].
  - intros first data hdr tail v -> Hfirst Hdata Hstates Hv.
    apply (PbfBlockIndexTable_new_block_too_large _ _ first data hdr tail v); assumption.
  - intros hdr tail v -> Hstates Hv.
    apply PbfBlockIndexTable_new_first_block; [assumption|]. left.
    pose proof (digest_at_header char_is_signed read_message [] hdr tail [] false
                  (Z.of_nat (length (be32 (Z.of_nat (length hdr)) ++ hdr ++ tail)))) as H.
    cbv zeta in H. cbn [app length] in H. change (Z.of_nat 0) with 0 in H.
    destruct H as [_ H]; [apply Hstates|].
    apply (H v); [|lia].
    apply decode_blob_header_states; [assumption|]. unfold max_block_size in Hv. lia.
  - intros first data b j -> (Hfirst & Hdata & Hl) Hj.
    apply Forall_app in Hdata. destruct Hdata as [Hdata Hb].
    inversion Hb; subst.
    apply PbfBlockIndexTable_new_truncated; assumption.
  - intros first j -> (Hfirst & _ & Hl) Hj.
    apply PbfBlockIndexTable_new_truncated_first; [|assumption|assumption].
    unfold container_file in Hl. cbn [map concat] in Hl. rewrite app_nil_r in Hl. exact Hl.
Qed.

(** C7.  The claim: every add operation that stores a string throws
    [std::length_error] for a string longer than [max_osm_string_length]
    and leaves the items written before as they were.  That holds for the
    operations that are given their strings by the caller: [add_tag] for
    the key and for the value, in its three forms, before anything is
    written, so that the buffer is what it was; [add_member] for the role
    and [add_comment] for the user name after the member or the comment was
    appended and counted, so that every range of bytes written before the
    call, the size fields of the item under construction and of its
    ancestors apart, is byte for byte what it was.  [add_tag(const Tag&)],
    which copies a tag that is in a buffer already, checks no length: it
    always returns, and for strings within the bound it does what [add_tag]
    does. *)
Theorem length_error_leaves_siblings
    (uninitialized : nat -> byte) (max_osm_string_length : nat)
    (sizeof_RelationMember : nat) (RelationMember_new : Z -> item_type -> bool -> list byte)
    (offsetof_role_size : nat)
    (sizeof_ChangesetComment : nat) (ChangesetComment_new : Z -> Z -> list byte)
    (offsetof_user_size : nat)
    (this : builder.Builder) (buffer : builder.Buffer) :
  Forall (fun h => (h + 4 <= builder.written buffer)%nat) (builder.open_items this) ->
  (forall key value : list byte,
      (max_osm_string_length < length key)%nat \/ (max_osm_string_length < length value)%nat ->
      exists what,
        builder.add_tag uninitialized max_osm_string_length this key value buffer
          = builder.length_error what buffer /\
        builder.add_tag_with_length uninitialized max_osm_string_length this key value buffer
          = builder.length_error what buffer /\
        builder.add_tag_string uninitialized max_osm_string_length this key value buffer
          = builder.length_error what buffer) /\
  (forall (type : item_type) (ref : Z) (role : list byte) (full_member : option (list byte)),
      (max_osm_string_length < length role)%nat ->
      exists what buffer',
        builder.add_member uninitialized max_osm_string_length sizeof_RelationMember
          RelationMember_new offsetof_role_size this type ref role full_member buffer
          = builder.length_error what buffer' /\
        builder.siblings_identical this buffer buffer') /\
  (forall (date uid : Z) (user : list byte),
      (max_osm_string_length < length user)%nat ->
      exists what this' buffer',
        builder.add_comment uninitialized max_osm_string_length sizeof_ChangesetComment
          ChangesetComment_new offsetof_user_size
          {| builder.discussion_builder := this; builder.m_comment := None |}
          date uid user buffer
          = builder.length_error what (this', buffer') /\
        builder.siblings_identical this buffer buffer') /\
  (forall tag_key tag_value : list byte,
      exists buffer',
        builder.add_tag_Tag uninitialized this tag_key tag_value buffer
          = builder.returns buffer' /\
        ((length tag_key <= max_osm_string_length)%nat ->
         (length tag_value <= max_osm_string_length)%nat ->
         builder.add_tag uninitialized max_osm_string_length this tag_key tag_value buffer
           = builder.returns buffer')).
Proof.
  intros Hrange. split; [|split; [|split]].
  - intros key value. apply builder_facts.add_tag_too_long.
  - intros type ref role full_member. now apply builder_facts.add_member_too_long.
  - intros date uid user. now apply builder_facts.add_comment_too_long.
  - intros tag_key tag_value. unfold builder.add_tag_Tag, builder.add_tag.
    destruct (builder.append uninitialized (tag_key ++ [x00]) buffer) as [n1 b1].
    destruct (builder.append uninitialized (tag_value ++ [x00]) _) as [n2 b2].
    eexists. split; [reflexivity|]. intros Hk Hv.
    destruct (Nat.ltb_spec max_osm_string_length (length tag_key)); [lia|].
    destruct (Nat.ltb_spec max_osm_string_length (length tag_value)); [lia|].
    reflexivity.
Qed.

(** [add_tag(const Tag&)] with a key of 1025 bytes returns. *)
Lemma add_tag_of_Tag_checks_no_length :
  (builder_examples.max_osm_string_length < length builder_examples.long_string)%nat /\
  exists buffer',
    builder.add_tag_Tag builder_examples.uninitialized builder_examples.list_builder
      builder_examples.long_string (bytes_of "v") builder_examples.list_under_construction
    = builder.returns buffer'.
Proof.
  split; [vm_compute; lia|]. eexists. vm_compute. reflexivity.
Qed.

Lemma length_error_leaves_siblings_witness :
  (exists what buffer',
      builder.add_member builder_examples.uninitialized builder_examples.max_osm_string_length
        builder_examples.sizeof_RelationMember builder_examples.RelationMember_new
        builder_examples.offsetof_role_size builder_examples.list_builder
        way 17 builder_examples.long_string None builder_examples.list_under_construction
        = builder.length_error what buffer' /\
      builder.siblings_identical builder_examples.list_builder
        builder_examples.list_under_construction buffer') /\
  builder.read_bytes 0 16
    (builder.m_data
       match builder.add_member builder_examples.uninitialized
               builder_examples.max_osm_string_length
               builder_examples.sizeof_RelationMember builder_examples.RelationMember_new
               builder_examples.offsetof_role_size builder_examples.list_builder
               way 17 builder_examples.long_string None
               builder_examples.list_under_construction with
       | builder.length_error _ b => b
       | _ => builder_examples.empty_buffer
       end)
  = builder.read_bytes 0 16 (builder.m_data builder_examples.list_under_construction).
Proof.
  split.
  - apply (length_error_leaves_siblings
             builder_examples.uninitialized builder_examples.max_osm_string_length
             builder_examples.sizeof_RelationMember builder_examples.RelationMember_new
             builder_examples.offsetof_role_size
             builder_examples.sizeof_ChangesetComment builder_examples.ChangesetComment_new
             builder_examples.offsetof_user_size
             builder_examples.list_builder builder_examples.list_under_construction).
    + repeat constructor.
    + vm_compute. lia.
  - vm_compute. reflexivity.
Defined.

(** C8.  In the state in which [set_user] may be called (it was not called
    before and no sub-builder was opened, as after the constructor), with a
    name of at most
    [max_osm_string_length] bytes, [set_user] of an object builder and of
    a changeset builder returns, the stored user size is the length plus
    one, the name lies in the buffer at the place of the user name and is
    followed by zero bytes up to the end of the buffer, so that the user
    name of the object reads as the given bytes; the buffer grows by a
    zero-filled reservation, a multiple of the alignment unit, exactly when
    the name is longer than the room the constructor left for it, and
    keeps its length otherwise. *)
Theorem set_user_stores_the_name
    (uninitialized : nat -> byte) (max_osm_string_length : nat)
    (T : builder.object_layout) (C : builder.changeset_layout)
    (this : builder.Builder) (user : list byte) (buffer : builder.Buffer) :
  Z.of_nat max_osm_string_length < 65535 ->
  (length user <= max_osm_string_length)%nat ->
  let available_space :=
    (builder.min_size_for_user - builder.sizeof_string_size_type - 1)%nat in
  let Changeset_available_space := (builder.Changeset_min_size_for_user - 1)%nat in
  (builder.before_set_user T this buffer ->
   exists buffer',
     builder.set_user uninitialized T this user buffer = builder.returns buffer' /\
     builder.user_size T this buffer' = Z.of_nat (length user) + 1 /\
     builder.user_stored (builder.user_position T this)
       (builder.user_position T this + builder.sizeof_string_size_type)%nat user
       (builder.reserved_for_user available_space (length user)) buffer buffer' /\
     (Forall (fun c => c <> x00) user -> builder.user T this buffer' = user)) /\
  (builder.Changeset_before_set_user C this buffer ->
   exists buffer',
     builder.Changeset_set_user uninitialized C this user buffer = builder.returns buffer' /\
     builder.Changeset_user_size C this buffer' = Z.of_nat (length user) + 1 /\
     builder.user_stored (builder.item_pos this + builder.offsetof_m_user_size C)%nat
       (builder.item_pos this + builder.sizeof_T (builder.Changeset_object C))%nat user
       (builder.reserved_for_user Changeset_available_space (length user)) buffer buffer' /\
     (Forall (fun c => c <> x00) user -> builder.Changeset_user C this buffer' = user)) /\
  (forall available : nat,
      ((length user <= available)%nat ->
       builder.reserved_for_user available (length user) = 0%nat) /\
      ((available < length user)%nat ->
       (length user - available <= builder.reserved_for_user available (length user))%nat /\
       (builder.reserved_for_user available (length user) mod builder.align_bytes = 0)%nat)) /\
  (forall (buffer0 : builder.Buffer) (parent : option builder.Builder),
      Forall (fun h => (h + 4 <= builder.written buffer0)%nat) (builder.open_items_of parent) ->
      (Z.of_nat (builder.sizeof_T T + builder.min_size_for_user) < 2 ^ 32 ->
       let '(this0, buffer1) := builder.OSMObjectBuilder_new uninitialized T buffer0 parent in
       builder.before_set_user T this0 buffer1) /\
      (Z.of_nat (builder.sizeof_T (builder.Changeset_object C)
                 + builder.Changeset_min_size_for_user) < 2 ^ 32 ->
       let '(this0, buffer1) := builder.ChangesetBuilder_new uninitialized C buffer0 parent in
       builder.Changeset_before_set_user C this0 buffer1)).
Proof.
  intros Hmax Hlen available_space Changeset_available_space.
  assert (Hlen' : Z.of_nat (length user) < 65535) by lia.
  split; [|split; [|split]]; cycle 3.
  { intros buffer0 parent Hparents. split; intros Hsmall.
    - now apply builder_facts.OSMObjectBuilder_new_before_set_user.
    - now apply builder_facts.ChangesetBuilder_new_before_set_user. }
  - intros Hbefore.
    destruct (builder_facts.set_user_stores uninitialized T this user buffer Hbefore Hlen')
      as (buffer' & Hret & Hstored).
    exists buffer'. split; [exact Hret|]. split; [apply Hstored|]. split; [exact Hstored|].
    intros Hnz. eapply builder_facts.c_str_user_stored; eassumption.
  - intros Hbefore.
    destruct (builder_facts.Changeset_set_user_stores uninitialized C this user buffer
                Hbefore Hlen') as (buffer' & Hret & Hstored).
    exists buffer'. split; [exact Hret|]. split; [apply Hstored|]. split; [exact Hstored|].
    intros Hnz. eapply builder_facts.c_str_user_stored; eassumption.
  - intros available. unfold builder.reserved_for_user. split.
    + intros Hfit. destruct (Nat.ltb_spec available (length user)); [lia | reflexivity].
    + intros Hlong. destruct (Nat.ltb_spec available (length user)); [|lia].
      split; [apply builder_facts.padded_length_ge | apply builder_facts.padded_length_aligned].
Qed.

Lemma set_user_stores_the_name_witness :
  let '(this, buffer) :=
    builder.OSMObjectBuilder_new builder_examples.uninitialized builder_examples.Node
      builder_examples.empty_buffer None in
  exists buffer',
    builder.set_user builder_examples.uninitialized builder_examples.Node this
      (bytes_of "a mapper") buffer = builder.returns buffer' /\
    builder.user_size builder_examples.Node this buffer' = 9 /\
    builder.user builder_examples.Node this buffer' = bytes_of "a mapper" /\
    builder.written buffer' = 56%nat.
Proof.
  destruct (builder.OSMObjectBuilder_new builder_examples.uninitialized builder_examples.Node
              builder_examples.empty_buffer None) as [this buffer] eqn:Hnew.
  vm_compute in Hnew. inversion Hnew; subst this buffer. clear Hnew.
  destruct (set_user_stores_the_name builder_examples.uninitialized
              builder_examples.max_osm_string_length builder_examples.Node
              builder_examples.Changeset (builder.top_level 0) (bytes_of "a mapper")
              {| builder.m_data :=
                   [x30; x00; x00; x00; x01; x00; x00; x00] ++ repeat x00 32
                   ++ [x01; x00; x00; x00; x00; x00; x00; x00];
                 builder.m_committed := 0 |}
              ltac:(vm_compute; reflexivity) ltac:(vm_compute; lia))
    as [Hobject _].
  destruct Hobject as (buffer' & Hret & Hsize & Hstored & Hname).
  - repeat split; try (vm_compute; reflexivity). constructor.
  - exists buffer'. split; [exact Hret|]. split; [exact Hsize|].
    split; [apply Hname; repeat constructor; discriminate|].
    destruct Hstored as (_ & _ & _ & _ & Hw & _). rewrite Hw. reflexivity.
Defined.

(** C9.  In a [ChangesetDiscussionBuilder], [add_comment_text] without a
    comment that was begun, [add_comment] while a comment is begun, and the
    destructor while a comment is begun each fail the assertion; a sequence
    of calls on a builder with no comment begun, followed by the
    destructor, runs without a failed assertion if the calls alternate
    [add_comment], [add_comment_text], ... and end with [add_comment_text],
    and fails the assertion if they do not. *)
Theorem discussion_calls_must_alternate
    (uninitialized : nat -> byte) (max_osm_string_length : nat)
    (sizeof_ChangesetComment : nat) (ChangesetComment_new : Z -> Z -> list byte)
    (offsetof_user_size offsetof_text_size : nat) :
  let add_comment :=
    builder.add_comment uninitialized max_osm_string_length sizeof_ChangesetComment
      ChangesetComment_new offsetof_user_size in
  let add_comment_text := builder.add_comment_text uninitialized offsetof_text_size in
  let run :=
    builder.discussion_run uninitialized max_osm_string_length sizeof_ChangesetComment
      ChangesetComment_new offsetof_user_size offsetof_text_size in
  (forall this text buffer,
      builder.m_comment this = None ->
      add_comment_text this text buffer = builder.assertion_failed builder.comment_assertion) /\
  (forall this date uid user buffer,
      is_Some (builder.m_comment this) ->
      add_comment this date uid user buffer
        = builder.assertion_failed builder.comment_assertion) /\
  (forall this buffer,
      is_Some (builder.m_comment this) ->
      builder.ChangesetDiscussionBuilder_delete uninitialized this buffer
        = builder.assertion_failed builder.comment_assertion) /\
  (forall calls this buffer,
      builder.m_comment this = None ->
      builder.alternates false calls = true ->
      exists buffer', run calls this buffer = builder.returns buffer') /\
  (forall calls this buffer,
      builder.m_comment this = None ->
      builder.alternates false calls = false ->
      run calls this buffer = builder.assertion_failed builder.comment_assertion).
Proof.
  intros add_comment add_comment_text run. repeat split.
  - intros this text buffer. apply builder_facts.add_comment_text_not_pending.
  - intros this date uid user buffer. apply builder_facts.add_comment_pending.
  - intros this buffer. apply builder_facts.delete_pending.
  - intros calls this buffer Hnone Halt.
    pose proof (builder_facts.discussion_run_alternates uninitialized max_osm_string_length
                  sizeof_ChangesetComment ChangesetComment_new offsetof_user_size
                  offsetof_text_size calls this buffer) as H.
    rewrite bool_decide_eq_false_2 in H by (rewrite Hnone; intros [? ?]; discriminate).
    rewrite Halt in H. exact H.
  - intros calls this buffer Hnone Halt.
    pose proof (builder_facts.discussion_run_alternates uninitialized max_osm_string_length
                  sizeof_ChangesetComment ChangesetComment_new offsetof_user_size
                  offsetof_text_size calls this buffer) as H.
    rewrite bool_decide_eq_false_2 in H by (rewrite Hnone; intros [? ?]; discriminate).
    rewrite Halt in H. exact H.
Qed.

(** C10.  The constructor of an object builder and of a changeset builder
    leaves the user size 1 and, where the user name is, zero bytes: the user
    name of a built object for which [set_user] was never called is the
    empty string. *)
Theorem user_name_is_empty_by_default
    (uninitialized : nat -> byte)
    (T : builder.object_layout) (C : builder.changeset_layout)
    (buffer : builder.Buffer) (parent : option builder.Builder) :
  Forall (fun h => (h + 4 <= builder.written buffer)%nat) (builder.open_items_of parent) ->
  (let '(this, buffer') := builder.OSMObjectBuilder_new uninitialized T buffer parent in
   builder.user_size T this buffer' = 1 /\
   builder.user T this buffer' = [] /\
   builder.read_bytes (builder.user_position T this + builder.sizeof_string_size_type)
     (builder.min_size_for_user - builder.sizeof_string_size_type) (builder.m_data buffer')
     = repeat x00 (builder.min_size_for_user - builder.sizeof_string_size_type) /\
   builder.written buffer'
     = (builder.written buffer + builder.sizeof_T T + builder.min_size_for_user)%nat) /\
  (let '(this, buffer') := builder.ChangesetBuilder_new uninitialized C buffer parent in
   builder.Changeset_user_size C this buffer' = 1 /\
   builder.Changeset_user C this buffer' = [] /\
   builder.read_bytes (builder.item_pos this + builder.sizeof_T (builder.Changeset_object C))
     builder.Changeset_min_size_for_user (builder.m_data buffer')
     = repeat x00 builder.Changeset_min_size_for_user /\
   builder.written buffer'
     = (builder.written buffer + builder.sizeof_T (builder.Changeset_object C)
        + builder.Changeset_min_size_for_user)%nat).
Proof.
  intros Hparents. split.
  - now apply builder_facts.OSMObjectBuilder_new_user.
  - now apply builder_facts.ChangesetBuilder_new_user.
Qed.

Lemma user_name_is_empty_by_default_witness :
  (let '(this, buffer') :=
     builder.OSMObjectBuilder_new builder_examples.uninitialized builder_examples.Node
       builder_examples.list_under_construction (Some builder_examples.list_builder) in
   builder.user_size builder_examples.Node this buffer' = 1 /\
   builder.user builder_examples.Node this buffer' = []) /\
  (let '(this, buffer') :=
     builder.ChangesetBuilder_new builder_examples.uninitialized builder_examples.Changeset
       builder_examples.empty_buffer None in
   builder.Changeset_user_size builder_examples.Changeset this buffer' = 1 /\
   builder.Changeset_user builder_examples.Changeset this buffer' = []).
Proof.
  split.
  - pose proof (user_name_is_empty_by_default builder_examples.uninitialized
                  builder_examples.Node builder_examples.Changeset
                  builder_examples.list_under_construction
                  (Some builder_examples.list_builder)
                  ltac:(repeat constructor)) as [H _].
    destruct (builder.OSMObjectBuilder_new _ _ _ _) as [this buffer'].
    destruct H as (H1 & H2 & _). split; assumption.
  - pose proof (user_name_is_empty_by_default builder_examples.uninitialized
                  builder_examples.Node builder_examples.Changeset
                  builder_examples.empty_buffer None ltac:(constructor)) as [_ H].
    destruct (builder.ChangesetBuilder_new _ _ _ _) as [this buffer'].
    destruct H as (H1 & H2 & _). split; assumption.
Defined.

Example discussion_run_example :
  builder.discussion_run builder_examples.uninitialized builder_examples.max_osm_string_length
    builder_examples.sizeof_ChangesetComment builder_examples.ChangesetComment_new
    builder_examples.offsetof_user_size builder_examples.offsetof_text_size
    [builder.call_add_comment 1 2 (bytes_of "me"); builder.call_add_comment 3 4 (bytes_of "you")]
    {| builder.discussion_builder := builder_examples.list_builder;
       builder.m_comment := None |}
    builder_examples.list_under_construction
  = builder.assertion_failed builder.comment_assertion.
Proof. vm_compute. reflexivity. Qed.

Lemma index_construction_all_or_nothing_witness :
  exists e,
    truncation_error e /\
    PbfBlockIndexTable_new true wire_reader (take 30 example_file) = Some (inl e).
Proof.
  destruct (index_construction_all_or_nothing true wire_reader (take 30 example_file)
              ltac:(vm_compute; reflexivity)) as (_ & _ & _ & Htruncated & _).
  apply (Htruncated example_first []
           {| header := osm_data_message 2; body := [x11; x12] |} 10%nat).
  - vm_compute. reflexivity.
  - pose proof example_well_formed as (Hfirst & Hdata & _).
    split; [exact Hfirst|]. split.
    + inversion Hdata; subst. constructor; [assumption | constructor].
    + vm_compute. reflexivity.
  - vm_compute. lia.
Defined.

(** * Further properties of the random access layer *)

(** ** Reading from the file *)

Lemma read_exactly_loop_length (fuel : nat) :
  forall (fd : file) (buffer : list byte) (to_read : Z) (buffer' : list byte) (fd' : file),
  0 <= to_read ->
  read_exactly_loop fuel fd buffer to_read = Some (true, buffer', fd') ->
  Z.of_nat (length buffer') = Z.of_nat (length buffer) + to_read.
Proof.
  induction fuel as [|fuel IH]; intros fd buffer to_read buffer' fd' Hn E;
    cbn [read_exactly_loop] in E.
  - destruct (Z.gtb_spec to_read 0); [discriminate|]. inversion E; subst. lia.
  - destruct (Z.gtb_spec to_read 0); [|inversion E; subst; lia].
    unfold reliable_read in E.
    set (chunk := take _ _) in E.
    assert (Hc : Z.of_nat (length chunk) <= to_read).
    { unfold chunk. rewrite length_take. lia. }
    destruct (Z.eqb_spec (Z.of_nat (length chunk)) 0); [discriminate|].
    apply IH in E; [|lia]. rewrite length_app in E. lia.
Qed.

Lemma read_exactly_loop_contents (fuel : nat) :
  forall (fd : file) (buffer : list byte) (to_read : Z) (r : bool * list byte * file),
  read_exactly_loop fuel fd buffer to_read = Some r -> contents (snd r) = contents fd.
Proof.
  induction fuel as [|fuel IH]; intros fd buffer to_read r E; cbn [read_exactly_loop] in E.
  - destruct (to_read >? 0); [discriminate|]. inversion E; reflexivity.
  - destruct (to_read >? 0); [|inversion E; reflexivity].
    unfold reliable_read in E.
    destruct (Z.of_nat _ =? 0); [inversion E; reflexivity|].
    apply IH in E. exact E.
Qed.

Lemma read_exactly_contents (fd : file) (size : Z) :
  contents (snd (read_exactly fd size)) = contents fd.
Proof.
  unfold read_exactly.
  destruct (read_exactly_loop _ fd [] size) as [r|] eqn:E; [|reflexivity].
  eapply read_exactly_loop_contents. exact E.
Qed.

Lemma read_exactly_length (fd : file) (size : Z) (buffer : list byte) (fd' : file) :
  0 <= size ->
  read_exactly fd size = (true, buffer, fd') -> Z.of_nat (length buffer) = size.
Proof.
  intros Hs E. unfold read_exactly in E.
  destruct (read_exactly_loop _ fd [] size) as [r|] eqn:L; [|discriminate].
  subst r. apply read_exactly_loop_length in L; [|exact Hs]. cbn [length] in L. lia.
Qed.



(** ** The length prefix *)

Lemma lor_ge_l (a b : Z) : 0 <= a -> 0 <= b -> a <= Z.lor a b.
Proof.
  intros Ha Hb.
  assert (E : Z.lor a b = Z.lor a (Z.ldiff b a)).
  { apply Z.bits_inj'. intros n Hn. rewrite !Z.lor_spec, Z.ldiff_spec.
    destruct (Z.testbit a n), (Z.testbit b n); reflexivity. }
  assert (L : Z.land a (Z.ldiff b a) = 0) by (rewrite Z.land_comm; apply Z.land_ldiff).
  rewrite E, <- Z.lxor_lor, <- Z.add_nocarry_lxor by exact L.
  assert (0 <= Z.ldiff b a) by (apply Z.ldiff_nonneg; lia). lia.
Qed.

Lemma lor_ge_r (a b : Z) : 0 <= a -> 0 <= b -> b <= Z.lor a b.
Proof. intros Ha Hb. rewrite Z.lor_comm. now apply lor_ge_l. Qed.

(** The most significant byte: its sign extension is shifted out. *)
Lemma shl32_char_value_24 (sgn : bool) (b : byte) :
  shl32 (to_uint32 (char_value sgn b)) 24 = uchar b * 2 ^ 24.
Proof.
  pose proof (uchar_range b). unfold shl32, to_uint32. rewrite Z.shiftl_mul_pow2 by lia.
  destruct (char_value_mod sgn b) as [C|[C ?]]; rewrite C.
  - apply Z.mod_small. lia.
  - replace ((uchar b - 256 + 2 ^ 32) * 2 ^ 24)
      with (uchar b * 2 ^ 24 + (2 ^ 24 - 1) * 2 ^ 32) by lia.
    rewrite Z.mod_add by lia. apply Z.mod_small. lia.
Qed.

(** A sign-extended byte, shifted by 0, 8 or 16 bits, has all the bits
    above it set. *)
Lemma shl32_sign_extended (u k : Z) :
  128 <= u < 256 -> k = 0 \/ k = 8 \/ k = 16 ->
  2 ^ 32 - 2 ^ 23 <= ((u - 256 + 2 ^ 32) * 2 ^ k) mod 2 ^ 32.
Proof.
  intros Hu [->|[->| ->]].
  - rewrite Z.mod_small by lia. lia.
  - replace ((u - 256 + 2 ^ 32) * 2 ^ 8)
      with ((u - 256) * 2 ^ 8 + 2 ^ 32 + (2 ^ 8 - 1) * 2 ^ 32) by lia.
    rewrite Z.mod_add, Z.mod_small by lia. lia.
  - replace ((u - 256 + 2 ^ 32) * 2 ^ 16)
      with ((u - 256) * 2 ^ 16 + 2 ^ 32 + (2 ^ 16 - 1) * 2 ^ 32) by lia.
    rewrite Z.mod_add, Z.mod_small by lia. lia.
Qed.

(** X2.  What [get_size_in_network_byte_order] computes from four bytes:
    a value of 32 bits, which is the big-endian value of the bytes where
    plain [char] is unsigned, and where it is signed as long as none of the
    three less significant bytes has its high bit set (the most significant
    byte may have it set); where [char] is signed and one of these three
    bytes has its high bit set, the sign extension sets the nine highest
    bits of the result at least. *)
Theorem get_size_in_network_byte_order_value (sgn : bool) (b0 b1 b2 b3 : byte) :
  0 <= get_size_in_network_byte_order sgn [b0; b1; b2; b3] < 2 ^ 32 /\
  (sgn = false \/ (uchar b1 < 128 /\ uchar b2 < 128 /\ uchar b3 < 128) ->
   get_size_in_network_byte_order sgn [b0; b1; b2; b3] = big_endian_u32 b0 b1 b2 b3) /\
  (sgn = true -> 128 <= uchar b1 \/ 128 <= uchar b2 \/ 128 <= uchar b3 ->
   2 ^ 32 - 2 ^ 23 <= get_size_in_network_byte_order sgn [b0; b1; b2; b3]).
Proof.
  pose proof (uchar_range b0). pose proof (uchar_range b1).
  pose proof (uchar_range b2). pose proof (uchar_range b3).
  assert (Hparts :
    let r := get_size_in_network_byte_order sgn [b0; b1; b2; b3] in
    0 <= r /\
    to_uint32 (char_value sgn b3) <= r /\
    shl32 (to_uint32 (char_value sgn b2)) 8 <= r /\
    shl32 (to_uint32 (char_value sgn b1)) 16 <= r /\
    r < 2 ^ 32).
  { cbv zeta. unfold get_size_in_network_byte_order. cbn [nth].
    set (A3 := to_uint32 _). set (A2 := shl32 _ 8). set (A1 := shl32 _ 16).
    set (A0 := shl32 _ 24).
    assert (B3 : 0 <= A3 < 2 ^ 32) by (apply Z.mod_pos_bound; lia).
    assert (B2 : 0 <= A2 < 2 ^ 32) by (apply Z.mod_pos_bound; lia).
    assert (B1 : 0 <= A1 < 2 ^ 32) by (apply Z.mod_pos_bound; lia).
    assert (B0 : 0 <= A0 < 2 ^ 32) by (apply Z.mod_pos_bound; lia).
    assert (H32 : 0 <= Z.lor A3 A2) by (apply Z.lor_nonneg; lia).
    assert (H321 : 0 <= Z.lor (Z.lor A3 A2) A1) by (apply Z.lor_nonneg; lia).
    pose proof (lor_ge_l A3 A2 ltac:(lia) ltac:(lia)).
    pose proof (lor_ge_r A3 A2 ltac:(lia) ltac:(lia)).
    pose proof (lor_ge_l (Z.lor A3 A2) A1 ltac:(lia) ltac:(lia)).
    pose proof (lor_ge_r (Z.lor A3 A2) A1 ltac:(lia) ltac:(lia)).
    pose proof (lor_ge_l (Z.lor (Z.lor A3 A2) A1) A0 ltac:(lia) ltac:(lia)).
    repeat split; try lia.
    destruct (Z.eq_dec (Z.lor (Z.lor (Z.lor A3 A2) A1) A0) 0) as [->|Hne]; [lia|].
    apply Z.log2_lt_pow2; [lia|].
    rewrite !Z.log2_lor by lia.
    assert (L : forall a, 0 <= a < 2 ^ 32 -> Z.log2 a < 32).
    { intros a Ha. destruct (Z.eq_dec a 0) as [->|]; [cbn; lia|].
      apply Z.log2_lt_pow2; lia. }
    pose proof (L A3 B3). pose proof (L A2 B2). pose proof (L A1 B1). pose proof (L A0 B0).
    lia. }
  cbv zeta in Hparts. destruct Hparts as (Hr0 & Hr3 & Hr2 & Hr1 & Hr32).
  split; [lia|]. split.
  - intros Hok. rewrite <- get_size_unsigned.
    unfold get_size_in_network_byte_order. cbn [nth].
    rewrite !shl32_char_value_24.
    destruct Hok as [->|(L1 & L2 & L3)]; [reflexivity|].
    rewrite !(char_value_low sgn) by assumption. reflexivity.
  - intros -> Hhigh.
    assert (Hext : forall b k, 128 <= uchar b -> k = 0 \/ k = 8 \/ k = 16 ->
               2 ^ 32 - 2 ^ 23 <= (char_value true b mod 2 ^ 32 * 2 ^ k) mod 2 ^ 32).
    { intros b k Hb Hk. pose proof (uchar_range b).
      destruct (char_value_mod true b) as [C|[C _]].
      - unfold char_value in C. cbn [andb] in C.
        destruct (Z.leb_spec 128 (uchar b)); [|lia].
        rewrite <- (Z.mod_add _ 1) in C by lia.
        rewrite Z.mod_small in C by lia. lia.
      - rewrite C. apply shl32_sign_extended; [lia | exact Hk]. }
    unfold shl32, to_uint32 in Hr2, Hr1. rewrite !Z.shiftl_mul_pow2 in Hr2, Hr1 by lia.
    unfold to_uint32 in Hr3.
    destruct Hhigh as [Hb|[Hb|Hb]].
    + pose proof (Hext b1 16 Hb ltac:(lia)). lia.
    + pose proof (Hext b2 8 Hb ltac:(lia)). lia.
    + pose proof (Hext b3 0 Hb ltac:(lia)) as H3'.
      change (2 ^ 0) with 1 in H3'. rewrite Z.mul_1_r, Z.mod_mod in H3' by lia. lia.
Qed.

Lemma read_blob_header_size_any_char (sgn sgn' : bool) (fd : file) :
  read_blob_header_size_from_file sgn fd = read_blob_header_size_from_file sgn' fd.
Proof.
  unfold read_blob_header_size_from_file.
  destruct (read_exactly fd 4) as [[ok buffer] fd'] eqn:E.
  destruct ok; cbn [negb]; [|reflexivity].
  apply read_exactly_length in E; [|lia].
  destruct buffer as [|b0 [|b1 [|b2 [|b3 [|]]]]]; cbn [length] in E; try lia.
  now rewrite (check_small_size_any_char sgn), (check_small_size_any_char sgn').
Qed.

(** X3.  [read_blob_header_size_from_file] with fewer than four bytes left
    in the file fails with "unexpected EOF in blob header size"; with four
    bytes or more it takes the next four: if their big-endian value is over
    64 it fails with "invalid small BlobHeader size", else it returns this
    value and leaves the descriptor four bytes further.  This is so whether
    plain [char] is signed or not. *)
Theorem read_blob_header_size_from_file_result (sgn : bool) (fd : file) :
  0 <= pos fd ->
  let rest := drop (Z.to_nat (pos fd)) (contents fd) in
  ((length rest < 4)%nat ->
   read_blob_header_size_from_file sgn fd = inl UnexpectedEOF_in_blob_header_size) /\
  (forall (b0 b1 b2 b3 : byte) (more : list byte),
      rest = b0 :: b1 :: b2 :: b3 :: more ->
      read_blob_header_size_from_file sgn fd =
        if big_endian_u32 b0 b1 b2 b3 >? max_small_blob_header_size
        then inl HeaderSizeInvalid
        else inr (big_endian_u32 b0 b1 b2 b3,
                  {| contents := contents fd; pos := pos fd + 4 |})).
Proof.
  intros Hp rest.
  assert (Hrest : length rest = (length (contents fd) - Z.to_nat (pos fd))%nat)
    by apply length_drop.
  split.
  - intros Hshort. unfold read_blob_header_size_from_file.
    destruct (read_exactly_short_false fd 4) as (buffer & fd' & ->); [lia | lia | lia |].
    reflexivity.
  - intros b0 b1 b2 b3 more Hbytes. unfold read_blob_header_size_from_file.
    assert (Hlen : (4 <= length rest)%nat) by (rewrite Hbytes; cbn [length]; lia).
    rewrite read_exactly_all by lia. fold rest. rewrite Hbytes.
    change (take (Z.to_nat 4) (b0 :: b1 :: b2 :: b3 :: more)) with [b0; b1; b2; b3].
    cbn [negb].
    rewrite check_small_size_any_char.
    unfold check_small_size, max_small_blob_header_size, to_uint32.
    change (64 mod 2 ^ 32) with 64.
    destruct (big_endian_u32 b0 b1 b2 b3 >? 64); reflexivity.
Qed.

Lemma read_blob_header_size_from_file_result_witness :
  read_blob_header_size_from_file true {| contents := example_file; pos := 0 |}
  = inr (13, {| contents := example_file; pos := 4 |}) /\
  read_blob_header_size_from_file true
    {| contents := [x00; x00; x00; x80; x01]; pos := 0 |} = inl HeaderSizeInvalid /\
  read_blob_header_size_from_file true {| contents := example_file; pos := 70 |}
  = inl UnexpectedEOF_in_blob_header_size.
Proof.
  split; [|split].
  - destruct (read_blob_header_size_from_file_result true
                {| contents := example_file; pos := 0 |} ltac:(cbn; lia)) as [_ H].
    rewrite (H x00 x00 x00 x0d (skipn 4 example_file)) by (vm_compute; reflexivity).
    reflexivity.
  - destruct (read_blob_header_size_from_file_result true
                {| contents := [x00; x00; x00; x80; x01]; pos := 0 |} ltac:(cbn; lia))
      as [_ H].
    rewrite (H x00 x00 x00 x80 [x01]) by reflexivity. reflexivity.
  - destruct (read_blob_header_size_from_file_result true
                {| contents := example_file; pos := 70 |} ltac:(cbn; lia)) as [H _].
    apply H. vm_compute. lia.
Defined.

(** ** The platform *)

Lemma digest_and_skip_block_any_char
    (sgn sgn' : bool) (read_message : list byte -> option (list field))
    (this : PbfBlockIndexTable) (offset file_size : Z) (should_index_block : bool) :
  digest_and_skip_block sgn read_message this offset file_size should_index_block =
  digest_and_skip_block sgn' read_message this offset file_size should_index_block.
Proof.
  unfold digest_and_skip_block.
  now rewrite (read_blob_header_size_any_char sgn sgn').
Qed.

Lemma index_data_blocks_any_char
    (sgn sgn' : bool) (read_message : list byte -> option (list field)) (fuel : nat) :
  forall (this : PbfBlockIndexTable) (offset file_size : Z),
  index_data_blocks sgn read_message fuel this offset file_size =
  index_data_blocks sgn' read_message fuel this offset file_size.
Proof.
  induction fuel as [|fuel IH]; intros this offset file_size; cbn [index_data_blocks];
    [reflexivity|].
  rewrite (digest_and_skip_block_any_char sgn sgn').
  destruct (offset <? file_size); [|reflexivity].
  destruct (digest_and_skip_block sgn' read_message this offset file_size true)
    as [e|[offset' this']]; [reflexivity | apply IH].
Qed.

(** X4.  The constructor comes to the same on a platform where plain
    [char] is signed and on one where it is unsigned, for every file: the
    same error or the same table.  (The sign extension in
    [get_size_in_network_byte_order] only shows in values that the check of
    the header size refuses either way.) *)
Theorem index_does_not_depend_on_char
    (read_message : list byte -> option (list field)) (file_contents : list byte) :
  PbfBlockIndexTable_new true read_message file_contents =
  PbfBlockIndexTable_new false read_message file_contents.
Proof.
  unfold PbfBlockIndexTable_new, PbfBlockIndexTable_new_with.
  rewrite (digest_and_skip_block_any_char true false).
  destruct (digest_and_skip_block false read_message _ 0 _ false) as [e|[offset this]];
    [reflexivity|].
  now rewrite (index_data_blocks_any_char true false).
Qed.

(** ** The header of a block *)

(** The types that pass the comparison with the [expected] type. *)
Lemma decode_blob_header_fields
    (read_message : list byte -> option (list field)) (data expected : list byte)
    (fields : list field) :
  Forall (fun c => uchar c <> 0) expected ->
  read_message data = Some fields ->
  let ty := List.last (type_fields fields) [] in
  let ds := List.last (map (fun v => to_size_t (get_int32 v)) (datasize_fields fields)) 0 in
  let passes := (exists suffix, expected = ty ++ suffix) \/
                (exists rest, ty = expected ++ x00 :: rest) in
  (ds = 0 -> decode_blob_header read_message data expected = inl MissingDataSize) /\
  (ds <> 0 -> passes -> decode_blob_header read_message data expected = inr ds) /\
  (ds <> 0 -> ~ passes -> decode_blob_header read_message data expected = inl UnexpectedType).
Proof.
  intros Hnz Hread ty ds passes.
  unfold decode_blob_header. rewrite Hread, fold_blob_header_fields. fold ty ds.
  pose proof (strncmp_zero_iff ty expected Hnz) as Hcmp. fold passes in Hcmp.
  split; [|split].
  - intros ->. reflexivity.
  - intros Hds Hp. destruct (Z.eqb_spec ds 0); [contradiction|].
    apply Hcmp in Hp. rewrite Hp. reflexivity.
  - intros Hds Hp. destruct (Z.eqb_spec ds 0); [contradiction|].
    destruct (Z.eqb_spec (strncmp expected ty (length ty)) 0) as [E|E]; [|reflexivity].
    apply Hcmp in E. contradiction.
Qed.

(** X5.  What [decode_blob_header] makes of a header: an exception of the
    message reader is passed on; of a message that reads, the last field
    with the tag and wire type of [type] and the last one with those of
    [datasize] count, all other fields are skipped.  A datasize that is
    missing or zero gives the error "datasize missing or zero", whatever
    the type is; otherwise the header passes, with its datasize as the
    result, if its type is a prefix of the expected type or the expected
    type followed by a zero byte, and gives the error "blob does not have
    expected type" if not. *)
Theorem decode_blob_header_result
    (read_message : list byte -> option (list field)) (data expected : list byte) :
  Forall (fun c => uchar c <> 0) expected ->
  (read_message data = None ->
   decode_blob_header read_message data expected = inl protozero_exception) /\
  (forall fields : list field,
      read_message data = Some fields ->
      let ty := List.last (type_fields fields) [] in
      let ds := List.last (map (fun v => to_size_t (get_int32 v)) (datasize_fields fields)) 0 in
      let passes := (exists suffix, expected = ty ++ suffix) \/
                    (exists rest, ty = expected ++ x00 :: rest) in
      (ds = 0 -> decode_blob_header read_message data expected = inl MissingDataSize) /\
      (ds <> 0 -> passes -> decode_blob_header read_message data expected = inr ds) /\
      (ds <> 0 -> ~ passes ->
       decode_blob_header read_message data expected = inl UnexpectedType)).
Proof.
  intros Hnz. split.
  - intros Hread. unfold decode_blob_header. rewrite Hread. reflexivity.
  - intros fields Hread. now apply decode_blob_header_fields.
Qed.

Lemma decode_blob_header_result_witness :
  decode_blob_header wire_reader ([x18; x05] ++ osm_data_message 2 ++ [x10; x07])
    (bytes_of "OSMData") = inr 2 /\
  decode_blob_header wire_reader (osm_header_message 3) (bytes_of "OSMData")
  = inl UnexpectedType /\
  decode_blob_header wire_reader ([x0a; x03] ++ bytes_of "XYZ" ++ [x18; x00])
    (bytes_of "OSMData") = inl MissingDataSize /\
  decode_blob_header wire_reader [x18] (bytes_of "OSMData") = inl protozero_exception.
Proof.
  assert (Hnz : Forall (fun c => uchar c <> 0) (bytes_of "OSMData"))
    by (repeat constructor; vm_compute; discriminate).
  split; [|split; [|split]].
  - destruct (decode_blob_header_result wire_reader
                ([x18; x05] ++ osm_data_message 2 ++ [x10; x07]) (bytes_of "OSMData") Hnz)
      as [_ H].
    destruct (H _ ltac:(vm_compute; reflexivity)) as (_ & Hpass & _).
    rewrite Hpass; [reflexivity | vm_compute; discriminate |].
    left. exists []. reflexivity.
  - destruct (decode_blob_header_result wire_reader (osm_header_message 3)
                (bytes_of "OSMData") Hnz) as [_ H].
    destruct (H _ ltac:(vm_compute; reflexivity)) as (_ & _ & Hfail).
    apply Hfail; [vm_compute; discriminate|].
    intros [[suffix Hs]|[rest Hr]]; vm_compute in Hs || vm_compute in Hr; discriminate.
  - destruct (decode_blob_header_result wire_reader
                ([x0a; x03] ++ bytes_of "XYZ" ++ [x18; x00]) (bytes_of "OSMData") Hnz)
      as [_ H].
    destruct (H _ ltac:(vm_compute; reflexivity)) as (Hzero & _).
    apply Hzero. reflexivity.
  - destruct (decode_blob_header_result wire_reader [x18] (bytes_of "OSMData") Hnz)
      as [H _].
    apply H. reflexivity.
Defined.

(** ** Blocks that the constructor refuses *)

(** The constructor at a block, the first or one after well-formed blocks,
    whose header is refused. *)
Lemma PbfBlockIndexTable_new_header_refused
    (sgn : bool) (read_message : list byte -> option (list field))
    (first : block) (data : list block) (hdr tail : list byte) (e : pbf_error) :
  let file := container_file first data ++ be32 (Z.of_nat (length hdr)) ++ hdr ++ tail in
  Z.of_nat (length file) < 2 ^ 63 ->
  well_formed_block read_message (bytes_of "OSMHeader") first ->
  Forall (well_formed_block read_message (bytes_of "OSMData")) data ->
  Z.of_nat (length hdr) <= max_small_blob_header_size ->
  (decode_blob_header read_message hdr (bytes_of "OSMData") = inl e \/
   e = BlockTooLarge /\
   exists ds, decode_blob_header read_message hdr (bytes_of "OSMData") = inr ds /\
              max_block_size < ds) ->
  PbfBlockIndexTable_new sgn read_message file = Some (inl e).
Proof.
  intros file Hlen Hfirst Hdata Hh Hdec.
  apply PbfBlockIndexTable_new_after_well_formed; try assumption.
  - intros E. apply (f_equal (@length byte)) in E. cbn in E. lia.
  - intros starts digest. left.
    pose proof (digest_at_header sgn read_message (container_file first data) hdr tail
                  starts true (Z.of_nat (length file))) as H.
    cbv zeta in H. destruct (H Hh) as [Herr Hlarge].
    destruct Hdec as [Hdec|(-> & ds & Hdec & Hds)]; [now apply Herr | now apply (Hlarge ds)].
Qed.

Lemma PbfBlockIndexTable_new_first_header_refused
    (sgn : bool) (read_message : list byte -> option (list field))
    (hdr tail : list byte) (e : pbf_error) :
  let file := be32 (Z.of_nat (length hdr)) ++ hdr ++ tail in
  Z.of_nat (length file) < 2 ^ 63 ->
  Z.of_nat (length hdr) <= max_small_blob_header_size ->
  (decode_blob_header read_message hdr (bytes_of "OSMHeader") = inl e \/
   e = BlockTooLarge /\
   exists ds, decode_blob_header read_message hdr (bytes_of "OSMHeader") = inr ds /\
              max_block_size < ds) ->
  PbfBlockIndexTable_new sgn read_message file = Some (inl e).
Proof.
  intros file Hlen Hh Hdec.
  apply PbfBlockIndexTable_new_first_block; [assumption|]. left.
  pose proof (digest_at_header sgn read_message [] hdr tail [] false
                (Z.of_nat (length file))) as H.
  cbv zeta in H. cbn [app length] in H. change (Z.of_nat 0) with 0 in H.
  destruct (H Hh) as [Herr Hlarge].
  destruct Hdec as [Hdec|(-> & ds & Hdec & Hds)]; [now apply Herr | now apply (Hlarge ds)].
Qed.

Lemma to_size_t_negative (x : Z) : - 2 ^ 63 <= x < 0 -> to_size_t x = 2 ^ 64 + x.
Proof.
  intros Hx. unfold to_size_t. rewrite <- (Z.mod_add x 1) by lia.
  rewrite Z.mod_small by lia. lia.
Qed.

Lemma get_int32_range (v : Z) : - 2 ^ 31 <= get_int32 v < 2 ^ 31.
Proof.
  unfold get_int32, to_int32.
  pose proof (Z.mod_pos_bound (v + 2 ^ 31) (2 ^ 32) ltac:(lia)). lia.
Qed.

(** X6.  A header whose [datasize], an [int32], is negative: the
    conversion to [size_t] makes it a size of more than [2^64 - 2^31]
    bytes, and the constructor, at the first block or after any number of
    well-formed blocks, fails with "invalid Block size". *)
Theorem negative_datasize_is_too_large
    (sgn : bool) (read_message : list byte -> option (list field))
    (first : block) (data : list block) (hdr tail : list byte) (v : Z) :
  get_int32 v < 0 ->
  (header_states read_message (bytes_of "OSMData") v hdr ->
   decode_blob_header read_message hdr (bytes_of "OSMData") = inr (2 ^ 64 + get_int32 v) /\
   (let file := container_file first data ++ be32 (Z.of_nat (length hdr)) ++ hdr ++ tail in
    Z.of_nat (length file) < 2 ^ 63 ->
    well_formed_block read_message (bytes_of "OSMHeader") first ->
    Forall (well_formed_block read_message (bytes_of "OSMData")) data ->
    PbfBlockIndexTable_new sgn read_message file = Some (inl BlockTooLarge))) /\
  (header_states read_message (bytes_of "OSMHeader") v hdr ->
   let file := be32 (Z.of_nat (length hdr)) ++ hdr ++ tail in
   Z.of_nat (length file) < 2 ^ 63 ->
   PbfBlockIndexTable_new sgn read_message file = Some (inl BlockTooLarge)).
Proof.
  intros Hneg. pose proof (get_int32_range v) as Hr.
  assert (Hdec : forall ty, header_states read_message ty v hdr ->
             decode_blob_header read_message hdr ty = inr (2 ^ 64 + get_int32 v)).
  { intros ty (Hh & fields & Hread & Hty & Hds).
    unfold decode_blob_header. rewrite Hread, fold_blob_header_fields, Hty, Hds.
    cbn [map List.last]. rewrite to_size_t_negative by lia.
    destruct (Z.eqb_spec (2 ^ 64 + get_int32 v) 0); [lia|].
    rewrite strncmp_refl. reflexivity. }
  split.
  - intros Hstates. split; [now apply Hdec|].
    intros file Hlen Hfirst Hdata.
    apply PbfBlockIndexTable_new_header_refused; try assumption; [apply Hstates|].
    right. split; [reflexivity|]. eexists. split; [now apply Hdec|].
    unfold max_block_size. lia.
  - intros Hstates file Hlen.
    apply PbfBlockIndexTable_new_first_header_refused; try assumption; [apply Hstates|].
    right. split; [reflexivity|]. eexists. split; [now apply Hdec|].
    unfold max_block_size. lia.
Qed.

Lemma negative_datasize_is_too_large_witness :
  let hdr := [x0a; x07] ++ bytes_of "OSMData"
             ++ [x18; xff; xff; xff; xff; xff; xff; xff; xff; xff; x01] in
  decode_blob_header wire_reader hdr (bytes_of "OSMData") = inr (2 ^ 64 - 1) /\
  PbfBlockIndexTable_new true wire_reader
    (container_file example_first example_data ++ be32 20 ++ hdr ++ [x00])
  = Some (inl BlockTooLarge).
Proof.
  intros hdr.
  destruct (negative_datasize_is_too_large true wire_reader example_first example_data
              hdr [x00] (2 ^ 64 - 1) ltac:(vm_compute; reflexivity)) as [H _].
  destruct H as [Hdec Hnew].
  - split; [vm_compute; discriminate|].
    eexists. split; [vm_compute; reflexivity|]. split; reflexivity.
  - split; [exact Hdec|].
    pose proof example_well_formed as (Hfirst & Hdata & _).
    apply Hnew; [vm_compute; reflexivity | exact Hfirst | exact Hdata].
Defined.

(** X7.  A block whose header is within the bound for small headers but
    is not a good header makes the constructor fail with the error of the
    header, at the first block and after any number of well-formed blocks,
    whatever follows in the file: with the exception of the message reader
    if the header does not read; with "datasize missing or zero" if it
    states no datasize or zero, whatever type it states; with "blob does
    not have expected type" if it states a datasize and a type that is
    neither a prefix of the type expected at its place ([OSMHeader] for the
    first block, [OSMData] for the others) nor that type and a zero
    byte. *)
Theorem bad_header_fails_construction
    (sgn : bool) (read_message : list byte -> option (list field))
    (first : block) (data : list block) (hdr tail : list byte) :
  Z.of_nat (length hdr) <= max_small_blob_header_size ->
  let new := PbfBlockIndexTable_new sgn read_message in
  let refused (expected : list byte) (e : pbf_error) :=
    match read_message hdr with
    | None => e = protozero_exception
    | Some fields =>
        let ty := List.last (type_fields fields) [] in
        let ds :=
          List.last (map (fun v => to_size_t (get_int32 v)) (datasize_fields fields)) 0 in
        ds = 0 /\ e = MissingDataSize \/
        ds <> 0 /\ e = UnexpectedType /\
        ~ ((exists suffix, expected = ty ++ suffix) \/
           (exists rest, ty = expected ++ x00 :: rest))
    end in
  (forall e : pbf_error,
      refused (bytes_of "OSMData") e ->
      let file := container_file first data ++ be32 (Z.of_nat (length hdr)) ++ hdr ++ tail in
      Z.of_nat (length file) < 2 ^ 63 ->
      well_formed_block read_message (bytes_of "OSMHeader") first ->
      Forall (well_formed_block read_message (bytes_of "OSMData")) data ->
      new file = Some (inl e)) /\
  (forall e : pbf_error,
      refused (bytes_of "OSMHeader") e ->
      let file := be32 (Z.of_nat (length hdr)) ++ hdr ++ tail in
      Z.of_nat (length file) < 2 ^ 63 ->
      new file = Some (inl e)).
Proof.
  intros Hh new refused.
  assert (Hdec : forall expected e,
             Forall (fun c => uchar c <> 0) expected ->
             refused expected e -> decode_blob_header read_message hdr expected = inl e).
  { intros expected e Hnz Href. unfold refused in Href.
    destruct (read_message hdr) as [fields|] eqn:Hread.
    - destruct (decode_blob_header_fields read_message hdr expected fields Hnz Hread)
        as (Hzero & _ & Hfail).
      destruct Href as [[Hds ->]|(Hds & -> & Hty)]; [now apply Hzero | now apply Hfail].
    - subst e. unfold decode_blob_header. rewrite Hread. reflexivity. }
  split.
  - intros e Href file Hlen Hfirst Hdata.
    apply PbfBlockIndexTable_new_header_refused; try assumption.
    left. apply Hdec; [|exact Href]. repeat constructor; vm_compute; discriminate.
  - intros e Href file Hlen.
    apply PbfBlockIndexTable_new_first_header_refused; try assumption.
    left. apply Hdec; [|exact Href]. repeat constructor; vm_compute; discriminate.
Qed.

Lemma bad_header_fails_construction_witness :
  PbfBlockIndexTable_new true wire_reader
    (container_file example_first example_data
     ++ be32 13 ++ osm_header_message 3 ++ [x01; x02; x03])
  = Some (inl UnexpectedType) /\
  PbfBlockIndexTable_new true wire_reader (be32 9 ++ ([x0a; x07] ++ bytes_of "OSMData") ++ [])
  = Some (inl MissingDataSize).
Proof.
  split.
  - destruct (bad_header_fails_construction true wire_reader example_first example_data
                (osm_header_message 3) [x01; x02; x03] ltac:(vm_compute; discriminate))
      as [H _].
    pose proof example_well_formed as (Hfirst & Hdata & _).
    apply H; [| vm_compute; reflexivity | exact Hfirst | exact Hdata].
    right. split; [vm_compute; discriminate|]. split; [reflexivity|].
    intros [[suffix Hs]|[rest Hr]]; vm_compute in Hs || vm_compute in Hr; discriminate.
  - destruct (bad_header_fails_construction true wire_reader example_first example_data
                ([x0a; x07] ++ bytes_of "OSMData") [] ltac:(vm_compute; discriminate))
      as [_ H].
    apply H; [| vm_compute; reflexivity].
    left. split; reflexivity.
Defined.

(** The first bytes of a block that are no length prefix of a header. *)
Lemma digest_bad_prefix
    (sgn : bool) (read_message : list byte -> option (list field))
    (pre rest : list byte) (starts : list pbf_block_start)
    (should_index_block : bool) (file_size : Z) :
  let digest :=
    digest_and_skip_block sgn read_message
      {| m_block_starts := starts;
         m_fd := {| contents := pre ++ rest; pos := Z.of_nat (length pre) |} |}
      (Z.of_nat (length pre)) file_size should_index_block in
  ((length rest < 4)%nat -> digest = inl UnexpectedEOF_in_blob_header_size) /\
  (forall (b0 b1 b2 b3 : byte) (more : list byte),
      rest = b0 :: b1 :: b2 :: b3 :: more ->
      max_small_blob_header_size < big_endian_u32 b0 b1 b2 b3 ->
      digest = inl HeaderSizeInvalid).
Proof.
  intros digest. unfold digest, digest_and_skip_block, read_blob_header_size_from_file.
  cbn [m_fd]. split.
  - intros Hshort.
    destruct (read_exactly_short_false
                {| contents := pre ++ rest; pos := Z.of_nat (length pre) |} 4)
      as (buffer & fd' & ->); cbn [pos contents]; rewrite ?length_app; try lia.
    reflexivity.
  - intros b0 b1 b2 b3 more -> Hlarge.
    rewrite read_exactly_all
      by (cbn [pos contents]; rewrite ?length_app; cbn [length]; lia).
    cbn [pos contents negb]. rewrite Nat2Z.id, drop_app_length.
    change (take (Z.to_nat 4) (b0 :: b1 :: b2 :: b3 :: more)) with [b0; b1; b2; b3].
    rewrite check_small_size_any_char.
    unfold check_small_size, max_small_blob_header_size, to_uint32 in *.
    change (64 mod 2 ^ 32) with 64.
    destruct (Z.gtb_spec (big_endian_u32 b0 b1 b2 b3) 64); [reflexivity | lia].
Qed.

(** X8.  Where a block should start, at the start of the file or after
    any number of well-formed blocks, and the file has fewer than four
    bytes left (after a block: one to three bytes; at the start: also the
    empty file), the constructor fails with "unexpected EOF in blob header
    size"; where the next four bytes have a big-endian value over 64, it
    fails with "invalid small BlobHeader size", on every platform. *)
Theorem bad_length_prefix_fails_construction
    (sgn : bool) (read_message : list byte -> option (list field))
    (first : block) (data : list block) (rest : list byte) :
  let new := PbfBlockIndexTable_new sgn read_message in
  (Z.of_nat (length (container_file first data ++ rest)) < 2 ^ 63 ->
   well_formed_block read_message (bytes_of "OSMHeader") first ->
   Forall (well_formed_block read_message (bytes_of "OSMData")) data ->
   ((0 < length rest < 4)%nat ->
    new (container_file first data ++ rest) = Some (inl UnexpectedEOF_in_blob_header_size)) /\
   (forall (b0 b1 b2 b3 : byte) (more : list byte),
       rest = b0 :: b1 :: b2 :: b3 :: more ->
       max_small_blob_header_size < big_endian_u32 b0 b1 b2 b3 ->
       new (container_file first data ++ rest) = Some (inl HeaderSizeInvalid))) /\
  (Z.of_nat (length rest) < 2 ^ 63 ->
   ((length rest < 4)%nat -> new rest = Some (inl UnexpectedEOF_in_blob_header_size)) /\
   (forall (b0 b1 b2 b3 : byte) (more : list byte),
       rest = b0 :: b1 :: b2 :: b3 :: more ->
       max_small_blob_header_size < big_endian_u32 b0 b1 b2 b3 ->
       new rest = Some (inl HeaderSizeInvalid))).
Proof.
  intros new. split.
  - intros Hlen Hfirst Hdata. split.
    + intros Hrest.
      apply PbfBlockIndexTable_new_after_well_formed; try assumption.
      * intros ->. cbn in Hrest. lia.
      * intros starts digest. left.
        apply (digest_bad_prefix sgn read_message (container_file first data) rest). lia.
    + intros b0 b1 b2 b3 more Hbytes Hlarge.
      apply PbfBlockIndexTable_new_after_well_formed; try assumption.
      * rewrite Hbytes. discriminate.
      * intros starts digest. left.
        eapply (digest_bad_prefix sgn read_message (container_file first data) rest);
          eassumption.
  - intros Hlen. split.
    + intros Hrest. apply PbfBlockIndexTable_new_first_block; [assumption|]. left.
      apply (digest_bad_prefix sgn read_message [] rest). exact Hrest.
    + intros b0 b1 b2 b3 more Hbytes Hlarge.
      apply PbfBlockIndexTable_new_first_block; [assumption|]. left.
      eapply (digest_bad_prefix sgn read_message [] rest); eassumption.
Qed.

Lemma bad_length_prefix_fails_construction_witness :
  PbfBlockIndexTable_new true wire_reader [] = Some (inl UnexpectedEOF_in_blob_header_size) /\
  PbfBlockIndexTable_new true wire_reader (example_file ++ [x00; x00])
  = Some (inl UnexpectedEOF_in_blob_header_size) /\
  PbfBlockIndexTable_new true wire_reader (example_file ++ [x00; x00; x00; x41; x0a])
  = Some (inl HeaderSizeInvalid).
Proof.
  pose proof example_well_formed as (Hfirst & Hdata & _).
  split; [|split].
  - destruct (bad_length_prefix_fails_construction true wire_reader example_first
                example_data []) as [_ H].
    apply H; [vm_compute; reflexivity | cbn; lia].
  - destruct (bad_length_prefix_fails_construction true wire_reader example_first
                example_data [x00; x00]) as [H _].
    apply H; [vm_compute; reflexivity | exact Hfirst | exact Hdata | cbn; lia].
  - destruct (bad_length_prefix_fails_construction true wire_reader example_first
                example_data [x00; x00; x00; x41; x0a]) as [H _].
    destruct (H ltac:(vm_compute; reflexivity) Hfirst Hdata) as [_ H'].
    apply (H' x00 x00 x00 x41 [x0a]); [reflexivity | vm_compute; reflexivity].
Defined.

(** ** The entries of a table *)

Lemma expected_block_starts_lookup_inv (data : list block) (offset : Z) (i : nat)
    (e : pbf_block_start) :
  expected_block_starts offset data !! i = Some e ->
  exists b,
    data !! i = Some b /\
    e = block_start_at
          (offset + Z.of_nat (length (concat (map block_bytes (take i data))))) b.
Proof.
  intros He. pose proof (lookup_lt_Some _ _ _ He) as Hi.
  rewrite length_expected_block_starts in Hi.
  destruct (lookup_lt_is_Some_2 data i Hi) as [b Hb].
  exists b. split; [exact Hb|].
  rewrite (expected_block_starts_lookup data offset i b Hb) in He. congruence.
Qed.

Lemma length_block_bytes (b : block) :
  length (block_bytes b) = (4 + length (header b) + length (body b))%nat.
Proof. unfold block_bytes. rewrite !length_app, length_be32. lia. Qed.

Lemma length_concat_take_S (data : list block) (i : nat) (b : block) :
  data !! i = Some b ->
  length (concat (map block_bytes (take (S i) data)))
  = (length (concat (map block_bytes (take i data))) + length (block_bytes b))%nat.
Proof.
  intros Hb. rewrite (take_S_r data i b Hb), map_app, concat_app, length_app.
  cbn [map concat]. now rewrite app_nil_r.
Qed.

Lemma length_concat_take_le (data : list block) (n : nat) :
  (length (concat (map block_bytes (take n data)))
   <= length (concat (map block_bytes data)))%nat.
Proof.
  rewrite <- (take_drop n data) at 2. rewrite map_app, concat_app, length_app. lia.
Qed.

(** X9.  The entries of a table that the constructor returned, for any
    file: every entry has a datasize from 1 to [max_block_size] and lies
    in the file, after the header block; the entries are in the order of
    the file and do not overlap, each starts at least four bytes (a length
    prefix) after the one before it ends; the last one ends where the file
    ends. *)
Theorem block_starts_lie_in_the_file
    (sgn : bool) (read_message : list byte -> option (list field))
    (file_contents : list byte) (this : PbfBlockIndexTable) :
  Z.of_nat (length file_contents) < 2 ^ 63 ->
  PbfBlockIndexTable_new sgn read_message file_contents = Some (inr this) ->
  (forall (i : nat) (e : pbf_block_start),
      block_starts this !! i = Some e ->
      1 <= datasize e <= max_block_size /\
      9 <= file_offset e /\
      file_offset e + datasize e <= Z.of_nat (length file_contents)) /\
  (forall (i : nat) (e e' : pbf_block_start),
      block_starts this !! i = Some e ->
      block_starts this !! S i = Some e' ->
      file_offset e + datasize e + 4 <= file_offset e') /\
  (forall e : pbf_block_start,
      last (block_starts this) = Some e ->
      file_offset e + datasize e = Z.of_nat (length file_contents)).
Proof.
  intros Hlen Hnew.
  destruct (PbfBlockIndexTable_new_complete _ _ _ _ Hlen Hnew)
    as (first & data & Hfile & Hfirst & Hdata & Hstarts).
  rewrite Hstarts. clear Hnew Hstarts.
  assert (Hflen : length file_contents
                  = (length (block_bytes first) + length (concat (map block_bytes data)))%nat).
  { rewrite Hfile. unfold container_file. apply length_app. }
  pose proof (length_block_bytes first) as Lfirst.
  destruct Hfirst as (_ & _ & Hbody1).
  assert (Hentry : forall i e,
             expected_block_starts (Z.of_nat (length (block_bytes first))) data !! i = Some e ->
             exists b,
               data !! i = Some b /\
               1 <= datasize e <= max_block_size /\
               file_offset e
               = Z.of_nat (length (block_bytes first))
                 + Z.of_nat (length (concat (map block_bytes (take i data))))
                 + 4 + Z.of_nat (length (header b)) /\
               file_offset e + datasize e
               = Z.of_nat (length (block_bytes first))
                 + Z.of_nat (length (concat (map block_bytes (take (S i) data))))).
  { intros i e He.
    destruct (expected_block_starts_lookup_inv _ _ _ _ He) as (b & Hb & ->).
    exists b. split; [exact Hb|].
    pose proof (Forall_lookup_1 _ _ _ _ Hdata Hb) as (_ & _ & Hbody).
    rewrite (length_concat_take_S data i b Hb), (length_block_bytes b).
    unfold block_start_at. cbn [datasize file_offset]. lia. }
  split; [|split].
  - intros i e He. destruct (Hentry i e He) as (b & Hb & Hds & Hoff & Hend).
    pose proof (length_concat_take_le data (S i)).
    split; [exact Hds|]. split; lia.
  - intros i e e' He He'.
    destruct (Hentry i e He) as (b & Hb & Hds & Hoff & Hend).
    destruct (Hentry (S i) e' He') as (b' & Hb' & Hds' & Hoff' & Hend').
    lia.
  - intros e Hlast. rewrite last_lookup in Hlast.
    destruct (Hentry _ e Hlast) as (b & Hb & Hds & Hoff & Hend).
    rewrite length_expected_block_starts in Hb, Hend.
    pose proof (lookup_lt_Some _ _ _ Hb) as Hi.
    replace (S (Init.Nat.pred (length data))) with (length data) in Hend by lia.
    rewrite firstn_all in Hend. lia.
Qed.

Lemma block_starts_lie_in_the_file_witness :
  (forall (i : nat) (e : pbf_block_start),
      block_starts example_table !! i = Some e ->
      1 <= datasize e <= max_block_size /\
      9 <= file_offset e /\
      file_offset e + datasize e <= Z.of_nat (length example_file)) /\
  (forall e : pbf_block_start,
      last (block_starts example_table) = Some e ->
      file_offset e + datasize e = 72).
Proof.
  destruct (block_starts_lie_in_the_file true wire_reader example_file example_table
              ltac:(vm_compute; reflexivity) ltac:(vm_compute; reflexivity))
    as (Hin & _ & Hlast).
  split; [exact Hin | exact Hlast].
Defined.

(** ** Reading the blocks back *)

Lemma read_blob_header_size_contents (sgn : bool) (fd fd' : file) (size : Z) :
  read_blob_header_size_from_file sgn fd = inr (size, fd') -> contents fd' = contents fd.
Proof.
  unfold read_blob_header_size_from_file. intros E.
  pose proof (read_exactly_contents fd 4) as Hc.
  destruct (read_exactly fd 4) as [[ok buffer] fd1]. cbn [snd] in Hc.
  destruct ok; cbn [negb] in E; [|discriminate].
  destruct (check_small_size _); inversion E; subst. exact Hc.
Qed.

Lemma file_seek_contents (fd : file) (offset : Z) :
  contents (file_seek fd offset) = contents fd.
Proof. unfold file_seek. destruct (offset <? 2 ^ 63); reflexivity. Qed.

Lemma digest_and_skip_block_contents
    (sgn : bool) (read_message : list byte -> option (list field))
    (this this' : PbfBlockIndexTable) (offset offset' file_size : Z)
    (should_index_block : bool) :
  digest_and_skip_block sgn read_message this offset file_size should_index_block
    = inr (offset', this') ->
  contents (m_fd this') = contents (m_fd this).
Proof.
  unfold digest_and_skip_block. intros E.
  destruct (read_blob_header_size_from_file sgn (m_fd this)) as [e|[h fd1]] eqn:R1;
    cbn [bind_error] in E; [discriminate|].
  apply read_blob_header_size_contents in R1.
  pose proof (read_exactly_contents fd1 h) as Hc.
  destruct (read_exactly fd1 h) as [[ok buffer] fd2]. cbn [snd] in Hc.
  destruct ok; cbn [negb] in E; [|discriminate].
  destruct (decode_blob_header read_message buffer _) as [e|ds];
    cbn [bind_error] in E; [discriminate|].
  destruct (ds >? max_block_size); [discriminate|].
  inversion E; subst. cbn [m_fd]. rewrite file_seek_contents. congruence.
Qed.

Lemma index_data_blocks_contents
    (sgn : bool) (read_message : list byte -> option (list field)) (fuel : nat) :
  forall (this this' : PbfBlockIndexTable) (offset offset' file_size : Z),
  index_data_blocks sgn read_message fuel this offset file_size = Some (inr (offset', this')) ->
  contents (m_fd this') = contents (m_fd this).
Proof.
  induction fuel as [|fuel IH]; intros this this' offset offset' file_size E;
    cbn [index_data_blocks] in E.
  - destruct (offset <? file_size); [discriminate|]. inversion E; reflexivity.
  - destruct (offset <? file_size); [|inversion E; reflexivity].
    destruct (digest_and_skip_block sgn read_message this offset file_size true)
      as [e|[offset1 this1]] eqn:D; [discriminate|].
    apply digest_and_skip_block_contents in D. apply IH in E. congruence.
Qed.

Lemma PbfBlockIndexTable_new_contents
    (sgn : bool) (read_message : list byte -> option (list field))
    (file_contents : list byte) (this : PbfBlockIndexTable) :
  PbfBlockIndexTable_new sgn read_message file_contents = Some (inr this) ->
  contents (m_fd this) = file_contents.
Proof.
  unfold PbfBlockIndexTable_new, PbfBlockIndexTable_new_with. intros E.
  destruct (digest_and_skip_block sgn read_message _ 0 _ false)
    as [e|[offset this0]] eqn:D; [discriminate|].
  apply digest_and_skip_block_contents in D. cbn [m_fd open_for_reading contents] in D.
  destruct (index_data_blocks sgn read_message _ this0 offset _)
    as [[e|[offset' this']]|] eqn:L; try discriminate.
  apply index_data_blocks_contents in L.
  destruct (offset' >? _); inversion E; subst. congruence.
Qed.

Lemma get_parsed_block_contents
    (data_blob_parser : PBFDataBlobDecoder -> option memory.Buffer)
    (this : PbfBlockIndexTable) (block_index : nat) (read_metadata0 : read_meta) :
  contents (m_fd (snd (get_parsed_block data_blob_parser this block_index read_metadata0)))
  = contents (m_fd this).
Proof.
  unfold get_parsed_block.
  destruct (m_block_starts this !! block_index) as [block_start|]; [|reflexivity].
  unfold read_block.
  pose proof (read_exactly_contents
                (file_seek (m_fd this) (file_offset block_start)) (datasize block_start))
    as Hc.
  rewrite file_seek_contents in Hc.
  destruct (read_exactly _ _) as [[ok buffer] fd]. cbn [snd] in Hc.
  destruct ok; cbn [negb]; [|exact Hc].
  destruct (data_blob_parser _) as [decoded|]; [|exact Hc].
  destruct (item_type_eqb _ _); [|exact Hc].
  destruct (memory.begin_OSMObject decoded); exact Hc.
Qed.

Lemma run_calls_contents
    (data_blob_parser : PBFDataBlobDecoder -> option memory.Buffer) (calls : list call) :
  forall this : PbfBlockIndexTable,
  contents (m_fd (fst (run_calls data_blob_parser this calls))) = contents (m_fd this).
Proof.
  induction calls as [|c calls IH]; intros this; cbn [run_calls]; [reflexivity|].
  pose proof (get_parsed_block_contents data_blob_parser this (fst c) (snd c)) as Hc.
  destruct (get_parsed_block data_blob_parser this (fst c) (snd c)) as [r this1].
  specialize (IH this1).
  destruct (run_calls data_blob_parser this1 calls) as [this2 trace].
  cbn [fst snd] in *. congruence.
Qed.

Lemma fill_first_item_range (e : pbf_block_start) (o : option memory.Item) :
  file_offset (fill_first_item e o) = file_offset e /\
  datasize (fill_first_item e o) = datasize e.
Proof.
  unfold fill_first_item. destruct (first_item_type_or_zero e), o; split; reflexivity.
Qed.

(** A call for an entry whose bytes are in the file. *)
Lemma get_parsed_block_in_range
    (data_blob_parser : PBFDataBlobDecoder -> option memory.Buffer)
    (this : PbfBlockIndexTable) (block_index : nat) (read_metadata0 : read_meta)
    (e : pbf_block_start) :
  m_block_starts this !! block_index = Some e ->
  0 <= file_offset e < 2 ^ 63 -> 0 <= datasize e ->
  file_offset e + datasize e <= Z.of_nat (length (contents (m_fd this))) ->
  fst (get_parsed_block data_blob_parser this block_index read_metadata0) =
    match data_blob_parser
            {| input_buffer :=
                 take (Z.to_nat (datasize e))
                   (drop (Z.to_nat (file_offset e)) (contents (m_fd this)));
               read_types := osm_entity_bits.all;
               read_metadata := read_metadata0 |} with
    | Some buffer => returned buffer
    | None => thrown decoder_exception
    end.
Proof.
  intros He Hoff Hds Hfit. unfold get_parsed_block. rewrite He. unfold read_block, file_seek.
  destruct (Z.ltb_spec (file_offset e) (2 ^ 63)); [|lia].
  rewrite read_exactly_all by (cbn [pos contents]; lia).
  cbn [pos contents negb].
  destruct (data_blob_parser _) as [buffer|]; [|reflexivity].
  destruct (item_type_eqb _ _); [|reflexivity].
  destruct (memory.begin_OSMObject buffer); reflexivity.
Qed.

Lemma body_in_container (first : block) (data : list block) (i : nat) (b : block) :
  data !! i = Some b ->
  take (length (body b))
    (drop (Z.to_nat (body_offset first data i b)) (container_file first data))
  = body b.
Proof.
  intros Hb. unfold container_file.
  rewrite <- (list.take_drop_middle data i b Hb) at 2.
  rewrite map_app, concat_app. cbn [map concat]. unfold block_bytes at 3.
  set (pre := block_bytes first ++ concat (map block_bytes (take i data))
              ++ be32 (Z.of_nat (length (header b))) ++ header b).
  replace (block_bytes first ++ concat (map block_bytes (take i data))
           ++ (be32 (Z.of_nat (length (header b))) ++ header b ++ body b)
           ++ concat (map block_bytes (drop (S i) data)))
    with (pre ++ body b ++ concat (map block_bytes (drop (S i) data)))
    by (unfold pre; now rewrite <- !app_assoc).
  apply take_drop_middle; [|reflexivity].
  unfold body_offset, pre. rewrite !length_app, length_be32. lia.
Qed.

(** X10.  Index, then read: for a well-formed container file the
    constructor returns a table, and on this table, after any calls of
    [get_parsed_block] with valid indices, a call for block [i] hands the
    decoder exactly the bytes of the body of data block [i] of the file,
    with all entity kinds asked for and the metadata flag of the caller,
    and returns the buffer that the decoder returns (or passes on its
    exception); it never fails with "unexpected EOF". *)
Theorem get_parsed_block_decodes_the_body
    (sgn : bool) (read_message : list byte -> option (list field))
    (data_blob_parser : PBFDataBlobDecoder -> option memory.Buffer)
    (first : block) (data : list block) :
  well_formed_container read_message first data ->
  exists this,
    PbfBlockIndexTable_new sgn read_message (container_file first data) = Some (inr this) /\
    forall (calls : list call) (i : nat) (b : block) (read_metadata0 : read_meta),
      Forall (fun c : call => (fst c < length (block_starts this))%nat) calls ->
      data !! i = Some b ->
      fst (get_parsed_block data_blob_parser
             (fst (run_calls data_blob_parser this calls)) i read_metadata0) =
        match data_blob_parser
                {| input_buffer := body b;
                   read_types := osm_entity_bits.all;
                   read_metadata := read_metadata0 |} with
        | Some buffer => returned buffer
        | None => thrown decoder_exception
        end.
Proof.
  intros Hwf.
  destruct (PbfBlockIndexTable_new_well_formed sgn read_message first data Hwf)
    as (this & Hnew & Hstarts).
  exists this. split; [exact Hnew|].
  intros calls i b read_metadata0 _ Hb.
  pose proof (PbfBlockIndexTable_new_contents _ _ _ _ Hnew) as Hcontents.
  pose proof (expected_block_starts_lookup data (Z.of_nat (length (block_bytes first))) i b Hb)
    as He.
  rewrite <- Hstarts in He. unfold block_starts in He.
  pose proof (run_calls_entry data_blob_parser calls this i _ He) as Hentry.
  pose proof (run_calls_contents data_blob_parser calls this) as Hc.
  destruct (run_calls data_blob_parser this calls) as [this' trace]. cbn [fst] in *.
  set (e' := fill_first_item _ _) in Hentry.
  assert (Hrange : file_offset e' = body_offset first data i b /\
                   datasize e' = Z.of_nat (length (body b))).
  { unfold e'. destruct (fill_first_item_range
                           (block_start_at
                              (Z.of_nat (length (block_bytes first))
                               + Z.of_nat (length (concat (map block_bytes (take i data))))) b)
                           (first_decoded_item i trace)) as [-> ->].
    unfold block_start_at, body_offset. cbn [file_offset datasize]. split; lia. }
  destruct Hrange as [Hoff Hds].
  destruct Hwf as (_ & _ & Hlen).
  assert (Hend : body_offset first data i b + Z.of_nat (length (body b))
                 <= Z.of_nat (length (container_file first data))).
  { unfold container_file, body_offset. rewrite length_app.
    pose proof (length_concat_take_le data (S i)) as Hle.
    rewrite (length_concat_take_S data i b Hb), length_block_bytes in Hle. lia. }
  assert (Hoff0 : 0 <= body_offset first data i b) by (unfold body_offset; lia).
  rewrite (get_parsed_block_in_range data_blob_parser this' i read_metadata0 e' Hentry)
    by (rewrite ?Hoff, ?Hds, ?Hc, ?Hcontents; lia).
  rewrite Hoff, Hds, Hc, Hcontents, Nat2Z.id, body_in_container by exact Hb.
  reflexivity.
Qed.

Lemma get_parsed_block_decodes_the_body_witness :
  exists this,
    PbfBlockIndexTable_new true wire_reader example_file = Some (inr this) /\
    fst (get_parsed_block example_decoder
           (fst (run_calls example_decoder this [(2%nat, read_meta_no); (0%nat, read_meta_no)]))
           2 read_meta_yes)
    = returned [ {| memory.type := node; memory.id := 49 |};
                 {| memory.type := node; memory.id := 50 |};
                 {| memory.type := node; memory.id := 51 |};
                 {| memory.type := node; memory.id := 52 |} ].
Proof.
  destruct (get_parsed_block_decodes_the_body true wire_reader example_decoder
              example_first example_data example_well_formed) as (this & Hnew & Hcall).
  exists this. split; [exact Hnew|].
  rewrite (Hcall [(2%nat, read_meta_no); (0%nat, read_meta_no)] 2%nat
             {| header := osm_data_message 4; body := [x31; x32; x33; x34] |} read_meta_yes).
  - reflexivity.
  - assert (E : this = example_table).
    { assert (H : PbfBlockIndexTable_new true wire_reader example_file
                  = Some (inr example_table)) by (vm_compute; reflexivity).
      unfold example_file in H. congruence. }
    rewrite E. repeat constructor.
  - reflexivity.
Defined.

(** X11.  A call of [get_parsed_block] for an entry whose bytes are not
    all in the file (the file is shorter than it was when it was indexed)
    fails with "unexpected EOF"; the entries of the table stay as they
    are. *)
Theorem get_parsed_block_past_the_end
    (data_blob_parser : PBFDataBlobDecoder -> option memory.Buffer)
    (this : PbfBlockIndexTable) (block_index : nat) (read_metadata0 : read_meta)
    (e : pbf_block_start) :
  block_starts this !! block_index = Some e ->
  0 <= file_offset e < 2 ^ 63 -> 0 < datasize e ->
  Z.of_nat (length (contents (m_fd this))) < file_offset e + datasize e ->
  exists fd,
    get_parsed_block data_blob_parser this block_index read_metadata0
    = (thrown UnexpectedEOF, {| m_block_starts := block_starts this; m_fd := fd |}) /\
    contents fd = contents (m_fd this).
Proof.
  intros He Hoff Hds Hshort. unfold block_starts in *.
  pose proof (get_parsed_block_contents data_blob_parser this block_index read_metadata0)
    as Hc.
  unfold get_parsed_block in *. rewrite He in *. unfold read_block, file_seek in *.
  destruct (Z.ltb_spec (file_offset e) (2 ^ 63)); [|lia].
  destruct (read_exactly_short_false
              {| contents := contents (m_fd this); pos := file_offset e |} (datasize e))
    as (buffer & fd' & E); cbn [pos contents]; try lia.
  rewrite E in *. cbn [negb snd m_fd] in *.
  exists fd'. split; [reflexivity | exact Hc].
Qed.

Lemma get_parsed_block_past_the_end_witness :
  exists fd,
    get_parsed_block example_decoder
      {| m_block_starts := block_starts example_table;
         m_fd := {| contents := take 70 example_file; pos := 0 |} |} 2 read_meta_no
    = (thrown UnexpectedEOF, {| m_block_starts := block_starts example_table; m_fd := fd |}) /\
    contents fd = take 70 example_file.
Proof.
  apply (get_parsed_block_past_the_end example_decoder
           {| m_block_starts := block_starts example_table;
              m_fd := {| contents := take 70 example_file; pos := 0 |} |} 2 read_meta_no
           {| file_offset := 68; first_item_id_or_zero := 0; datasize := 4;
              first_item_type_or_zero := undefined |}).
  - reflexivity.
  - cbn. lia.
  - cbn. lia.
  - vm_compute. reflexivity.
Defined.

(** * Further properties of the builders *)

Module builder_extras.

Import builder builder_facts.
Local Open Scope nat_scope.

(** ** Bytes at the end of the buffer *)

Lemma write_bytes_end (d bytes u : list byte) :
  length u = length bytes -> write_bytes (length d) bytes (d ++ u) = d ++ bytes.
Proof.
  intros Hu. unfold write_bytes. rewrite take_app_length.
  rewrite drop_ge by (rewrite length_app; lia). now rewrite app_nil_r.
Qed.

Lemma write_bytes_app_r (pre x bs : list byte) (off : nat) :
  write_bytes (length pre + off) bs (pre ++ x) = pre ++ write_bytes off bs x.
Proof.
  unfold write_bytes. rewrite take_app_add, <- Nat.add_assoc, drop_app_add.
  now rewrite <- app_assoc.
Qed.

Lemma length_write_bytes_inside (off : nat) (bs x : list byte) :
  off + length bs <= length x -> length (write_bytes off bs x) = length x.
Proof. apply length_write_bytes. Qed.

Lemma untouched_weaken (n0 n1 : nat) (hs : list nat) (d d' : list byte) :
  n0 <= n1 -> untouched n1 hs d d' -> untouched n0 hs d d'.
Proof.
  intros Hn [L H]. split; [exact L|]. intros p Hp Hout. apply H; [lia | exact Hout].
Qed.

Lemma nested_items_mono (this : Builder) (bound bound' : nat) :
  nested_items this bound -> bound <= bound' -> nested_items this bound'.
Proof.
  destruct this as [pos|pos parent]; cbn [nested_items]; [lia|].
  intros [Hp Hn] Hb. split; [lia | exact Hn].
Qed.

Lemma nested_items_open (this : Builder) :
  forall bound : nat,
  nested_items this bound -> Forall (fun h => h + 4 <= bound) (open_items this).
Proof.
  induction this as [pos|pos parent IH]; cbn [nested_items open_items]; intros bound H.
  - constructor; [lia | constructor].
  - destruct H as [Hp Hn]. constructor; [lia|].
    eapply Forall_impl; [apply IH, Hn|]. cbn beta. intros h Hh. lia.
Qed.

Lemma nested_items_parent (this : Builder) (bound : nat) :
  nested_items this bound ->
  Forall (fun h => h + 4 <= item_pos this) (open_items_of (m_parent this)).
Proof.
  destruct this as [pos|pos parent]; cbn [nested_items open_items_of m_parent item_pos];
    intros H; [constructor|].
  apply nested_items_open, H.
Qed.

Lemma nested_items_pos (this : Builder) (bound : nat) :
  nested_items this bound -> item_pos this + 4 <= bound.
Proof. destruct this; cbn [nested_items item_pos]; intros H; [exact H | apply H]. Qed.

(** ** The sizes of the items *)

Lemma Item_byte_size_store (pos : nat) (v : Z) (buffer : Buffer) :
  pos + 4 <= written buffer -> (0 <= v < 2 ^ 32)%Z ->
  Item_byte_size pos (store 4 pos v buffer) = v.
Proof.
  intros Hpos Hv. unfold Item_byte_size, load, store, with_data. cbn [m_data].
  pose proof (read_write_bytes pos (le_bytes 4 v) (m_data buffer)) as Hr.
  rewrite length_le_bytes in Hr. rewrite Hr by (unfold written in *; lia).
  now apply le_value_le_bytes_4.
Qed.

Lemma Item_byte_size_app (h : nat) (buffer : Buffer) (more : list byte) :
  h + 4 <= written buffer ->
  Item_byte_size h (with_data buffer (m_data buffer ++ more)) = Item_byte_size h buffer.
Proof.
  intros Hh. unfold Item_byte_size, load, read_bytes, with_data, written in *. cbn [m_data].
  rewrite drop_app_le by lia. rewrite take_app_le by (rewrite length_drop; lia).
  reflexivity.
Qed.

Lemma Item_byte_size_write_above (h wpos : nat) (bytes : list byte) (buffer : Buffer) :
  h + 4 <= wpos -> wpos + length bytes <= written buffer ->
  Item_byte_size h (with_data buffer (write_bytes wpos bytes (m_data buffer)))
  = Item_byte_size h buffer.
Proof.
  intros Hh Hw. unfold Item_byte_size, load, with_data, written in *. cbn [m_data].
  now rewrite read_bytes_write_after.
Qed.

Lemma written_Item_add_size (pos : nat) (size : Z) (buffer : Buffer) :
  pos + 4 <= written buffer -> written (Item_add_size pos size buffer) = written buffer.
Proof.
  intros Hpos. unfold Item_add_size, store, with_data, written in *. cbn [m_data].
  apply length_write_bytes. rewrite length_le_bytes. exact Hpos.
Qed.

Lemma add_size_grows (this : Builder) (n : nat) :
  forall (buffer : Buffer) (bound : nat),
  nested_items this bound -> bound <= written buffer ->
  Forall (fun h => Item_byte_size h (add_size this n buffer)
                   = ((Item_byte_size h buffer + Z.of_nat n) mod 2 ^ 32)%Z)
    (open_items this).
Proof.
  induction this as [pos|pos parent IH]; intros buffer bound Hn Hb;
    cbn [add_size open_items nested_items] in *.
  - constructor; [|constructor]. unfold Item_add_size.
    apply Item_byte_size_store; [lia | apply Z.mod_pos_bound; lia].
  - destruct Hn as [Hp Hn].
    set (b1 := Item_add_size pos (Z.of_nat n) buffer).
    assert (Hw1 : written b1 = written buffer)
      by (apply written_Item_add_size; lia).
    pose proof (nested_items_open parent pos Hn) as Hopen.
    constructor.
    + unfold Item_byte_size at 1. unfold load, read_bytes.
      rewrite (add_size_above parent n pos b1 Hopen) by lia.
      change (le_value (take 4 (drop pos (m_data b1)))) with (Item_byte_size pos b1).
      unfold b1, Item_add_size.
      apply Item_byte_size_store; [lia | apply Z.mod_pos_bound; lia].
    + specialize (IH b1 pos Hn ltac:(lia)).
      apply Forall_forall. intros h Hh.
      rewrite (proj1 (Forall_forall _ _) IH h Hh).
      pose proof (proj1 (Forall_forall _ _) Hopen h Hh) as Hhp. cbn beta in Hhp.
      do 2 f_equal. unfold b1, Item_add_size, store.
      apply Item_byte_size_write_above; [lia | rewrite length_le_bytes; lia].
Qed.

(** ** Extending the buffer *)

Lemma extended_written (counted : list nat) (buffer buffer' : Buffer) (bytes : list byte) :
  extended counted buffer bytes buffer' ->
  written buffer' = written buffer + length bytes.
Proof.
  intros (_ & D & [L _] & _). apply (f_equal (@length byte)) in D.
  rewrite length_drop in D. unfold written in *. lia.
Qed.

Lemma extended_refl (counted : list nat) (buffer : Buffer) :
  Forall (fun h => h + 4 <= written buffer) counted ->
  extended counted buffer [] buffer.
Proof.
  intros Hc. split; [reflexivity|]. split; [|split].
  - apply drop_ge. unfold written. lia.
  - apply untouched_refl.
  - apply Forall_forall. intros h Hh. cbn [length]. rewrite Z.add_0_r.
    symmetry. apply Z.mod_small.
    unfold Item_byte_size, load.
    pose proof (proj1 (Forall_forall _ _) Hc h Hh) as Hhp. cbn beta in Hhp.
    assert (Hl : length (read_bytes h 4 (m_data buffer)) = 4).
    { unfold read_bytes, written in *. rewrite length_take, length_drop. lia. }
    destruct (read_bytes h 4 (m_data buffer)) as [|b0 [|b1 [|b2 [|b3 [|]]]]];
      try discriminate.
    cbn [le_value].
    pose proof (uchar_range b0). pose proof (uchar_range b1).
    pose proof (uchar_range b2). pose proof (uchar_range b3). lia.
Qed.

Lemma extended_append (this : Builder) (x : list byte) (n bound : nat) (buffer : Buffer) :
  nested_items this bound -> bound <= written buffer -> n = length x ->
  extended (open_items this) buffer x
    (add_size this n (with_data buffer (m_data buffer ++ x))).
Proof.
  intros Hn Hb ->. set (b1 := with_data buffer (m_data buffer ++ x)).
  assert (Hw1 : written b1 = written buffer + length x).
  { unfold b1, with_data, written. cbn [m_data]. apply length_app. }
  pose proof (nested_items_open _ _ Hn) as Hopen0.
  assert (Hopen : Forall (fun h => h + 4 <= written buffer) (open_items this)).
  { eapply Forall_impl; [exact Hopen0|]. cbn beta. intros h Hh. lia. }
  assert (Hopen1 : Forall (fun h => h + 4 <= written b1) (open_items this)).
  { eapply Forall_impl; [exact Hopen|]. cbn beta. intros h Hh. lia. }
  destruct (untouched_add_size (written buffer) (open_items this) this (length x) b1
              (incl_refl _) Hopen1) as [U C].
  split; [rewrite C; reflexivity|]. split; [|split].
  - rewrite (add_size_above this (length x) (written buffer) b1 Hopen) by lia.
    unfold b1, with_data, written. cbn [m_data]. apply drop_app_length.
  - eapply untouched_trans; [|exact U].
    unfold b1, with_data. cbn [m_data]. apply untouched_app. unfold written. lia.
  - pose proof (add_size_grows this (length x) b1 bound Hn ltac:(lia)) as G.
    apply Forall_forall. intros h Hh.
    rewrite (proj1 (Forall_forall _ _) G h Hh).
    pose proof (proj1 (Forall_forall _ _) Hopen h Hh) as Hhp. cbn beta in Hhp.
    unfold b1. now rewrite Item_byte_size_app.
Qed.

Lemma extended_trans (counted : list nat) (b b1 b2 : Buffer) (x y : list byte) :
  Forall (fun h => h + 4 <= written b) counted ->
  extended counted b x b1 -> extended counted b1 y b2 ->
  extended counted b (x ++ y) b2.
Proof.
  intros Hc E1 E2.
  pose proof (extended_written _ _ _ _ E1) as W1.
  pose proof (extended_written _ _ _ _ E2) as W2.
  destruct E1 as (C1 & D1 & U1 & S1). destruct E2 as (C2 & D2 & U2 & S2).
  split; [congruence|]. split; [|split].
  - rewrite (drop_split (m_data b2) (written b) (length x)).
    rewrite <- W1, D2. f_equal.
    transitivity (read_bytes (written b) (length x) (m_data b1)).
    + apply read_bytes_ext; unfold written in *; try lia.
      intros p Hp. apply U2; [unfold written; lia|].
      intros h Hh. right.
      pose proof (proj1 (List.Forall_forall _ _) Hc h Hh) as Hhp. cbn beta in Hhp.
      unfold written in *. lia.
    + unfold read_bytes. rewrite D1. apply firstn_all.
  - eapply untouched_trans; [exact U1|]. eapply untouched_weaken; [|exact U2]. lia.
  - apply Forall_forall. intros h Hh.
    rewrite (proj1 (Forall_forall _ _) S2 h Hh), (proj1 (Forall_forall _ _) S1 h Hh).
    rewrite length_app, Nat2Z.inj_add, Zplus_mod_idemp_l. f_equal. lia.
Qed.

Lemma extended_write (counted : list nat) (b b1 : Buffer) (x bs : list byte) (off : nat) :
  Forall (fun h => h + 4 <= written b) counted ->
  extended counted b x b1 -> off + length bs <= length x ->
  extended counted b (write_bytes off bs x)
    (with_data b1 (write_bytes (written b + off) bs (m_data b1))).
Proof.
  intros Hc E Hin. pose proof (extended_written _ _ _ _ E) as W1.
  destruct E as (C1 & D1 & U1 & S1).
  assert (Hpre : exists pre, m_data b1 = pre ++ x /\ written b = length pre).
  { exists (take (written b) (m_data b1)). split.
    - rewrite <- D1. symmetry. apply take_drop.
    - rewrite length_take. unfold written in *. lia. }
  destruct Hpre as (pre & Hd1 & Hlt).
  split; [exact C1|]. split; [|split].
  - unfold with_data. cbn [m_data].
    rewrite Hd1, Hlt, write_bytes_app_r. apply drop_app_length.
  - eapply untouched_trans; [exact U1|]. unfold with_data. cbn [m_data].
    apply untouched_write; unfold written in *; lia.
  - apply Forall_forall. intros h Hh.
    pose proof (proj1 (Forall_forall _ _) Hc h Hh) as Hhp. cbn beta in Hhp.
    rewrite Item_byte_size_write_above by (unfold written in *; lia).
    rewrite (proj1 (Forall_forall _ _) S1 h Hh).
    now rewrite length_write_bytes_inside.
Qed.

Section Appending.

Variable uninitialized : nat -> byte.

Lemma append_appends (data : list byte) (buffer : Buffer) :
  append uninitialized data buffer
  = (length data, with_data buffer (m_data buffer ++ data)).
Proof.
  unfold append, reserve_space, with_data, written. cbn [m_data m_committed].
  rewrite write_bytes_end by (now rewrite length_map, length_seq). reflexivity.
Qed.

Lemma append_with_zero_appends (data : list byte) (buffer : Buffer) :
  append_with_zero uninitialized data buffer
  = (length data + 1, with_data buffer (m_data buffer ++ data ++ [x00])).
Proof.
  unfold append_with_zero, reserve_space, with_data, written. cbn [m_data m_committed].
  set (u := map uninitialized _).
  assert (Hu : length u = length data + 1)
    by (unfold u; now rewrite length_map, length_seq).
  assert (E1 : write_bytes (length (m_data buffer)) data (m_data buffer ++ u)
               = (m_data buffer ++ data) ++ drop (length data) u).
  { unfold write_bytes. rewrite take_app_length, drop_app_add, <- app_assoc. reflexivity. }
  rewrite E1.
  replace (length (m_data buffer) + length data) with (length (m_data buffer ++ data))
    by (rewrite length_app; lia).
  rewrite write_bytes_end by (rewrite length_drop; cbn [length]; lia).
  now rewrite <- app_assoc.
Qed.

Lemma reserve_and_write (bytes : list byte) (n : nat) (buffer : Buffer) :
  n = length bytes ->
  (let '(target, buffer1) := reserve_space uninitialized n buffer in
   (target, with_data buffer1 (write_bytes target bytes (m_data buffer1))))
  = (written buffer, with_data buffer (m_data buffer ++ bytes)).
Proof.
  intros ->. unfold reserve_space, with_data, written. cbn [m_data m_committed].
  rewrite write_bytes_end by (now rewrite length_map, length_seq). reflexivity.
Qed.

End Appending.

(** ** Padding *)

Lemma add_padding_self (uninitialized : nat -> byte) (this : Builder) (bound : nat)
    (buffer : Buffer) :
  nested_items this bound -> bound <= written buffer ->
  exists padding,
    padding < align_bytes /\
    extended (open_items this) buffer (repeat x00 padding)
      (add_padding uninitialized this true buffer) /\
    ((size this buffer + Z.of_nat padding) mod 8 = 0)%Z.
Proof.
  intros Hn Hb. unfold add_padding.
  pose proof (Z.mod_pos_bound (size this buffer) 8 ltac:(lia)) as Hm.
  pose proof (Z.div_mod (size this buffer) 8 ltac:(lia)) as Hdm.
  change (Z.of_nat align_bytes) with 8%Z. change align_bytes with 8.
  set (m := (size this buffer mod 8)%Z) in *.
  destruct (Nat.eqb_spec (8 - Z.to_nat m) 8) as [E|E].
  - exists 0. split; [lia|]. split.
    + apply extended_refl. eapply Forall_impl; [apply (nested_items_open _ _ Hn)|].
      cbn beta. intros h Hh. lia.
    + rewrite Z.add_0_r. fold m. lia.
  - exists (8 - Z.to_nat m). split; [lia|]. split.
    + unfold reserve_space, with_data, written. cbn [m_data m_committed].
      rewrite write_bytes_end by (now rewrite length_map, length_seq, repeat_length).
      apply (extended_append this (repeat x00 (8 - Z.to_nat m)) (8 - Z.to_nat m) bound buffer);
        [assumption | assumption | now rewrite repeat_length].
    + replace (size this buffer + Z.of_nat (8 - Z.to_nat m))%Z
        with ((size this buffer / 8 + 1) * 8)%Z by lia.
      apply Z.mod_mul. lia.
Qed.

Lemma add_padding_parents (uninitialized : nat -> byte) (this : Builder) (bound : nat)
    (buffer : Buffer) :
  nested_items this bound -> bound <= written buffer ->
  exists padding,
    padding < align_bytes /\
    extended (open_items_of (m_parent this)) buffer (repeat x00 padding)
      (add_padding uninitialized this false buffer) /\
    size this (add_padding uninitialized this false buffer) = size this buffer /\
    ((size this buffer + Z.of_nat padding) mod 8 = 0)%Z.
Proof.
  intros Hn Hb. unfold add_padding.
  pose proof (Z.mod_pos_bound (size this buffer) 8 ltac:(lia)) as Hm.
  pose proof (Z.div_mod (size this buffer) 8 ltac:(lia)) as Hdm.
  pose proof (nested_items_pos _ _ Hn) as Hpos.
  change (Z.of_nat align_bytes) with 8%Z. change align_bytes with 8.
  set (m := (size this buffer mod 8)%Z) in *.
  destruct (Nat.eqb_spec (8 - Z.to_nat m) 8) as [E|E].
  - exists 0. split; [lia|]. split; [|split; [reflexivity|]].
    + apply extended_refl. eapply Forall_impl; [apply (nested_items_parent _ _ Hn)|].
      cbn beta. intros h Hh. lia.
    + rewrite Z.add_0_r. fold m. lia.
  - exists (8 - Z.to_nat m). split; [lia|].
    unfold reserve_space, with_data, written. cbn [m_data m_committed].
    rewrite write_bytes_end by (now rewrite length_map, length_seq, repeat_length).
    set (x := repeat x00 (8 - Z.to_nat m)).
    assert (Hx : 8 - Z.to_nat m = length x) by (unfold x; now rewrite repeat_length).
    split; [|split].
    + destruct this as [pos|pos parent]; cbn [m_parent open_items_of].
      * split; [reflexivity|]. split; [apply drop_app_length|].
        split; [apply untouched_app; unfold written; lia | constructor].
      * destruct Hn as [_ Hn]. cbn [item_pos] in Hpos.
        apply (extended_append parent x _ pos buffer); [assumption | lia | assumption].
    + unfold size.
      destruct this as [pos|pos parent]; cbn [m_parent item_pos] in *.
      * apply (Item_byte_size_app pos buffer x). lia.
      * destruct Hn as [_ Hn]. unfold Item_byte_size at 1. unfold load, read_bytes.
        rewrite (add_size_above parent _ pos) by
          (try apply (nested_items_open _ _ Hn); unfold written; cbn [m_data];
           rewrite length_app; unfold written in *; lia).
        apply (Item_byte_size_app pos buffer x). lia.
    + replace (size this buffer + Z.of_nat (8 - Z.to_nat m))%Z
        with ((size this buffer / 8 + 1) * 8)%Z by lia.
      apply Z.mod_mul. lia.
Qed.

(** ** Tags *)

(** X12.  [add_tag] with a key and a value within the bound on the length
    of strings returns, in each of its forms for strings of the caller
    (zero-terminated strings, pointers with lengths, [std::string]) with
    the same buffer: the key, a zero byte, the value and a zero byte are
    appended at the end of the buffer and counted in the size of the tag
    list and of every enclosing item; what was written before stays as it
    was; key and value read back from the buffer as zero-terminated
    strings. *)
Theorem add_tag_appends_key_and_value
    (uninitialized : nat -> byte) (max_osm_string_length : nat)
    (this : Builder) (key value : list byte) (buffer : Buffer) :
  length key <= max_osm_string_length -> length value <= max_osm_string_length ->
  nested_items this (written buffer) ->
  exists buffer',
    add_tag uninitialized max_osm_string_length this key value buffer = returns buffer' /\
    add_tag_with_length uninitialized max_osm_string_length this key value buffer
      = returns buffer' /\
    add_tag_string uninitialized max_osm_string_length this key value buffer
      = returns buffer' /\
    extended (open_items this) buffer (key ++ [x00] ++ value ++ [x00]) buffer' /\
    (Forall (fun c => c <> x00) key -> c_str (written buffer) buffer' = key) /\
    (Forall (fun c => c <> x00) value ->
     c_str (written buffer + length key + 1) buffer' = value).
Proof.
  intros Hk Hv Hn.
  unfold add_tag, add_tag_with_length, add_tag_string.
  destruct (Nat.ltb_spec max_osm_string_length (length key)); [lia|].
  destruct (Nat.ltb_spec max_osm_string_length (length value)); [lia|].
  rewrite !append_appends, !append_with_zero_appends.
  rewrite !length_app. cbn [length].
  set (b1 := add_size this (length key + 1)
               (with_data buffer (m_data buffer ++ key ++ [x00]))).
  pose proof (nested_items_open _ _ Hn) as Hopen.
  assert (E1 : extended (open_items this) buffer (key ++ [x00]) b1).
  { apply (extended_append this (key ++ [x00]) _ (written buffer) buffer);
      [assumption | lia | rewrite length_app; reflexivity]. }
  pose proof (extended_written _ _ _ _ E1) as W1.
  assert (E2 : extended (open_items this) b1 (value ++ [x00])
                 (add_size this (length value + 1)
                    (with_data b1 (m_data b1 ++ value ++ [x00])))).
  { apply (extended_append this (value ++ [x00]) _ (written buffer) b1);
      [assumption | lia | rewrite length_app; reflexivity]. }
  pose proof (extended_trans _ _ _ _ _ _ Hopen E1 E2) as E.
  rewrite <- app_assoc in E.
  eexists. split; [reflexivity|]. split; [reflexivity|]. split; [reflexivity|].
  split; [exact E|].
  destruct E as (_ & D & _). split.
  - intros Hnz. unfold c_str. rewrite D. now apply c_str_of_terminated.
  - intros Hnz. unfold c_str.
    rewrite <- Nat.add_assoc, <- drop_drop, D, app_assoc.
    rewrite drop_app_length' by (rewrite length_app; reflexivity).
    now apply (c_str_of_terminated value []).
Qed.

Lemma add_tag_appends_key_and_value_witness :
  exists buffer',
    add_tag builder_examples.uninitialized builder_examples.max_osm_string_length
      builder_examples.list_builder (bytes_of "highway") (bytes_of "primary")
      builder_examples.list_under_construction = returns buffer' /\
    drop 24 (m_data buffer') = bytes_of "highway" ++ [x00] ++ bytes_of "primary" ++ [x00] /\
    c_str 24 buffer' = bytes_of "highway" /\
    c_str 32 buffer' = bytes_of "primary" /\
    size builder_examples.list_builder buffer' = 24%Z.
Proof.
  destruct (add_tag_appends_key_and_value builder_examples.uninitialized
              builder_examples.max_osm_string_length builder_examples.list_builder
              (bytes_of "highway") (bytes_of "primary")
              builder_examples.list_under_construction
              ltac:(vm_compute; lia) ltac:(vm_compute; lia) ltac:(vm_compute; lia))
    as (buffer' & Hret & _ & _ & Hext & Hkey & Hvalue).
  exists buffer'. split; [exact Hret|].
  destruct Hext as (_ & D & _ & S).
  split; [exact D|].
  split; [apply Hkey; repeat constructor; discriminate|].
  split; [apply Hvalue; repeat constructor; discriminate|].
  inversion S as [|h l Hs _]; subst. exact Hs.
Defined.

(** ** The steps of the member functions *)

Lemma write_reserved (bytes u : list byte) (buffer : Buffer) :
  length u = length bytes ->
  with_data (with_data buffer (m_data buffer ++ u))
    (write_bytes (written buffer) bytes (m_data (with_data buffer (m_data buffer ++ u))))
  = with_data buffer (m_data buffer ++ bytes).
Proof.
  intros Hu. unfold with_data, written. cbn [m_data m_committed].
  now rewrite write_bytes_end.
Qed.


Lemma extended_size (this : Builder) (b b' : Buffer) (x : list byte) :
  extended (open_items this) b x b' ->
  size this b' = ((size this b + Z.of_nat (length x)) mod 2 ^ 32)%Z.
Proof.
  intros (_ & _ & _ & S). rewrite open_items_m_parent in S.
  inversion S; subst. assumption.
Qed.

Lemma mod8_of_mod32 (a p : Z) : ((a mod 2 ^ 32 + p) mod 8 = (a + p) mod 8)%Z.
Proof.
  rewrite <- (Zplus_mod_idemp_l (a mod 2 ^ 32)).
  rewrite Z.mod_mod_divide by (exists (2 ^ 29)%Z; reflexivity).
  apply Zplus_mod_idemp_l.
Qed.

Section Steps.

Variable uninitialized : nat -> byte.

Lemma step_reserve_write (this : Builder) (bound n : nat) (bytes : list byte)
    (buffer : Buffer) :
  n = length bytes -> nested_items this bound -> bound <= written buffer ->
  let '(target, b0) := reserve_space uninitialized n buffer in
  target = written buffer /\
  extended (open_items this) buffer bytes
    (add_size this n (with_data b0 (write_bytes target bytes (m_data b0)))).
Proof.
  intros Hlen Hn Hb. unfold reserve_space. split; [reflexivity|].
  rewrite write_reserved by (now rewrite length_map, length_seq).
  now apply (extended_append this bytes n bound buffer).
Qed.

Lemma step_append_with_zero (this : Builder) (bound : nat) (s : list byte)
    (buffer : Buffer) :
  nested_items this bound -> bound <= written buffer ->
  let '(n, b1) := append_with_zero uninitialized s buffer in
  extended (open_items this) buffer (s ++ [x00]) (add_size this n b1).
Proof.
  intros Hn Hb. rewrite append_with_zero_appends.
  apply (extended_append this (s ++ [x00]) _ bound buffer);
    [assumption | assumption | rewrite length_app; reflexivity].
Qed.

Lemma step_add_item (this : Builder) (bound : nat) (item : list byte) (buffer : Buffer) :
  nested_items this bound -> bound <= written buffer ->
  extended (open_items this) buffer item (add_item uninitialized this item buffer).
Proof.
  intros Hn Hb. unfold add_item.
  pose proof (step_reserve_write this bound (length item) item buffer eq_refl Hn Hb) as H.
  destruct (reserve_space uninitialized (length item) buffer) as [target b0].
  apply H.
Qed.

End Steps.

(** ** Relation members *)

(** X13.  [add_member] with a role within the bound on the length of
    strings returns.  It appends, at the end of the buffer, the member as
    constructed with its role size set to the length of the role plus one,
    the role and a zero byte, fewer than eight zero bytes of padding, and
    the full member if one is given; all of them are counted in the size
    of the member list and of every enclosing item, and what was written
    before stays as it was.  The padding brings the size of the member
    list, with the member and its role, to a multiple of eight. *)
Theorem add_member_appends_member_and_role
    (uninitialized : nat -> byte) (max_osm_string_length : nat)
    (sizeof_RelationMember : nat) (RelationMember_new : Z -> item_type -> bool -> list byte)
    (offsetof_role_size : nat)
    (this : Builder) (type : item_type) (ref : Z) (role : list byte)
    (full_member : option (list byte)) (buffer : Buffer) :
  let member := RelationMember_new ref type (bool_decide (full_member <> None)) in
  length role <= max_osm_string_length ->
  (Z.of_nat max_osm_string_length < 65535)%Z ->
  length member = sizeof_RelationMember ->
  offsetof_role_size + 2 <= sizeof_RelationMember ->
  nested_items this (written buffer) ->
  exists (buffer' : Buffer) (padding : nat),
    add_member uninitialized max_osm_string_length sizeof_RelationMember
      RelationMember_new offsetof_role_size this type ref role full_member buffer
      = returns buffer' /\
    padding < align_bytes /\
    extended (open_items this) buffer
      (write_bytes offsetof_role_size (le_bytes 2 (Z.of_nat (length role) + 1)) member
       ++ role ++ [x00] ++ repeat x00 padding
       ++ match full_member with Some item => item | None => [] end)
      buffer' /\
    ((size this buffer
      + Z.of_nat (sizeof_RelationMember + length role + 1 + padding)) mod 8 = 0)%Z.
Proof.
  intros member Hlen Hmax Hmember Hoff Hn.
  pose proof (nested_items_open _ _ Hn) as Hopen.
  unfold add_member. fold member.
  pose proof (step_reserve_write uninitialized this (written buffer) sizeof_RelationMember
                member buffer (eq_sym Hmember) Hn (Nat.le_refl _)) as HA.
  destruct (reserve_space uninitialized sizeof_RelationMember buffer) as [target b0].
  destruct HA as [-> EA].
  set (bA := add_size this sizeof_RelationMember _) in *.
  pose proof (extended_written _ _ _ _ EA) as WA.
  unfold add_role.
  destruct (Nat.ltb_spec max_osm_string_length (length role)); [lia|].
  rewrite (Z.mod_small (Z.of_nat (length role))) by lia.
  rewrite Z.mod_small by lia.
  pose proof (extended_write _ _ _ _ (le_bytes 2 (Z.of_nat (length role) + 1))
                offsetof_role_size Hopen EA
                ltac:(rewrite length_le_bytes; lia)) as EB.
  change (with_data bA (write_bytes (written buffer + offsetof_role_size)
                          (le_bytes 2 (Z.of_nat (length role) + 1)) (m_data bA)))
    with (store 2 (written buffer + offsetof_role_size) (Z.of_nat (length role) + 1) bA)
    in EB.
  set (bB := store 2 _ _ bA) in *.
  pose proof (extended_written _ _ _ _ EB) as WB.
  pose proof (step_append_with_zero uninitialized this (written buffer) role bB Hn
                ltac:(lia)) as EC.
  destruct (append_with_zero uninitialized role bB) as [n bC0].
  set (bC := add_size this n bC0) in *.
  pose proof (extended_written _ _ _ _ EC) as WC.
  destruct (add_padding_self uninitialized this (written buffer) bC Hn ltac:(lia))
    as (padding & Hp & ED & Hmod).
  set (bD := add_padding uninitialized this true bC) in *.
  pose proof (extended_written _ _ _ _ ED) as WD.
  pose proof (extended_trans _ _ _ _ _ _ Hopen EB EC) as EBC.
  pose proof (extended_trans _ _ _ _ _ _ Hopen EBC ED) as EBD.
  assert (Hsize : ((size this buffer
                    + Z.of_nat (sizeof_RelationMember + length role + 1 + padding)) mod 8
                   = 0)%Z).
  { rewrite (extended_size _ _ _ _ EBC) in Hmod. rewrite mod8_of_mod32 in Hmod.
    rewrite length_app, length_write_bytes_inside in Hmod
      by (rewrite length_le_bytes; lia).
    rewrite length_app in Hmod. cbn [length] in Hmod. rewrite Hmember in Hmod.
    rewrite <- Hmod. f_equal. lia. }
  destruct full_member as [item|].
  - pose proof (step_add_item uninitialized this (written buffer) item bD Hn ltac:(lia))
      as EE.
    pose proof (extended_trans _ _ _ _ _ _ Hopen EBD EE) as E.
    exists (add_item uninitialized this item bD), padding.
    split; [reflexivity|]. split; [exact Hp|]. split; [|exact Hsize].
    rewrite <- !app_assoc in E. exact E.
  - exists bD, padding.
    split; [reflexivity|]. split; [exact Hp|]. split; [|exact Hsize].
    rewrite <- !app_assoc in EBD. rewrite app_nil_r. exact EBD.
Qed.

Lemma add_member_appends_member_and_role_witness :
  exists buffer',
    add_member builder_examples.uninitialized builder_examples.max_osm_string_length
      builder_examples.sizeof_RelationMember builder_examples.RelationMember_new
      builder_examples.offsetof_role_size builder_examples.list_builder
      way 17 (bytes_of "outer") None builder_examples.list_under_construction
    = returns buffer' /\
    drop 24 (m_data buffer')
    = [x11; x00; x00; x00; x00; x00; x00; x00; x00; x00; x06; x00; x00; x00; x00; x00]
      ++ bytes_of "outer" ++ [x00; x00; x00] /\
    size builder_examples.list_builder buffer' = 32%Z.
Proof.
  destruct (add_member_appends_member_and_role builder_examples.uninitialized
              builder_examples.max_osm_string_length
              builder_examples.sizeof_RelationMember builder_examples.RelationMember_new
              builder_examples.offsetof_role_size builder_examples.list_builder
              way 17 (bytes_of "outer") None builder_examples.list_under_construction
              ltac:(vm_compute; lia) ltac:(vm_compute; reflexivity)
              ltac:(vm_compute; reflexivity) ltac:(vm_compute; lia)
              ltac:(vm_compute; lia))
    as (buffer' & padding & Hret & Hp & Hext & Hmod).
  exists buffer'. split; [exact Hret|].
  vm_compute in Hret. inversion Hret; subst buffer'. split; reflexivity.
Defined.

(** X14.  [add_member] with a role that is too long throws after the
    member was appended: the buffer it leaves has the member as
    constructed, with no role, at its end, counted in the size of the
    member list and of every enclosing item. *)
Theorem add_member_too_long_leaves_the_member
    (uninitialized : nat -> byte) (max_osm_string_length : nat)
    (sizeof_RelationMember : nat) (RelationMember_new : Z -> item_type -> bool -> list byte)
    (offsetof_role_size : nat)
    (this : Builder) (type : item_type) (ref : Z) (role : list byte)
    (full_member : option (list byte)) (buffer : Buffer) :
  let member := RelationMember_new ref type (bool_decide (full_member <> None)) in
  max_osm_string_length < length role ->
  length member = sizeof_RelationMember ->
  nested_items this (written buffer) ->
  exists buffer' : Buffer,
    add_member uninitialized max_osm_string_length sizeof_RelationMember
      RelationMember_new offsetof_role_size this type ref role full_member buffer
      = length_error "OSM relation member role is too long" buffer' /\
    extended (open_items this) buffer member buffer'.
Proof.
  intros member Hlong Hmember Hn.
  unfold add_member. fold member.
  pose proof (step_reserve_write uninitialized this (written buffer) sizeof_RelationMember
                member buffer (eq_sym Hmember) Hn (Nat.le_refl _)) as HA.
  destruct (reserve_space uninitialized sizeof_RelationMember buffer) as [target b0].
  destruct HA as [-> EA].
  unfold add_role.
  destruct (Nat.ltb_spec max_osm_string_length (length role)); [|lia].
  eexists. split; [reflexivity | exact EA].
Qed.

Lemma add_member_too_long_leaves_the_member_witness :
  exists buffer' : Buffer,
    add_member builder_examples.uninitialized builder_examples.max_osm_string_length
      builder_examples.sizeof_RelationMember builder_examples.RelationMember_new
      builder_examples.offsetof_role_size builder_examples.list_builder
      way 17 builder_examples.long_string None builder_examples.list_under_construction
    = length_error "OSM relation member role is too long" buffer' /\
    written buffer' = 40 /\
    size builder_examples.list_builder buffer' = 24%Z.
Proof.
  destruct (add_member_too_long_leaves_the_member builder_examples.uninitialized
              builder_examples.max_osm_string_length
              builder_examples.sizeof_RelationMember builder_examples.RelationMember_new
              builder_examples.offsetof_role_size builder_examples.list_builder
              way 17 builder_examples.long_string None
              builder_examples.list_under_construction
              ltac:(vm_compute; lia) ltac:(vm_compute; reflexivity) ltac:(vm_compute; lia))
    as (buffer' & Hret & Hext).
  exists buffer'. split; [exact Hret|]. split.
  - rewrite (extended_written _ _ _ _ Hext). reflexivity.
  - rewrite (extended_size _ _ _ _ Hext). reflexivity.
Defined.

(** ** Changeset comments *)

(** X15.  [add_comment] with a user name that is too long throws after
    the comment was appended and made the pending comment: the buffer it
    leaves has the comment as constructed, with no user name, at its end,
    counted in the sizes; on the builder it leaves, [add_comment] and the
    destructor fail the assertion, and only [add_comment_text] goes on. *)
Theorem add_comment_too_long_leaves_the_comment
    (uninitialized : nat -> byte) (max_osm_string_length : nat)
    (sizeof_ChangesetComment : nat) (ChangesetComment_new : Z -> Z -> list byte)
    (offsetof_user_size offsetof_text_size : nat)
    (this : ChangesetDiscussionBuilder) (date uid : Z) (user : list byte)
    (buffer : Buffer) :
  m_comment this = None ->
  max_osm_string_length < length user ->
  length (ChangesetComment_new date uid) = sizeof_ChangesetComment ->
  nested_items (discussion_builder this) (written buffer) ->
  exists (this' : ChangesetDiscussionBuilder) (buffer' : Buffer),
    add_comment uninitialized max_osm_string_length sizeof_ChangesetComment
      ChangesetComment_new offsetof_user_size this date uid user buffer
      = length_error "OSM user name is too long" (this', buffer') /\
    extended (open_items (discussion_builder this)) buffer
      (ChangesetComment_new date uid) buffer' /\
    discussion_builder this' = discussion_builder this /\
    m_comment this' = Some (written buffer) /\
    (forall (date' uid' : Z) (user' : list byte) (b : Buffer),
        add_comment uninitialized max_osm_string_length sizeof_ChangesetComment
          ChangesetComment_new offsetof_user_size this' date' uid' user' b
        = assertion_failed comment_assertion) /\
    (forall b : Buffer,
        ChangesetDiscussionBuilder_delete uninitialized this' b
        = assertion_failed comment_assertion) /\
    (forall (text : list byte) (b : Buffer),
        add_comment_text uninitialized offsetof_text_size this' text b
        <> assertion_failed comment_assertion).
Proof.
  intros Hnone Hlong Hcomment Hn.
  unfold add_comment at 1. rewrite Hnone.
  pose proof (step_reserve_write uninitialized (discussion_builder this) (written buffer)
                sizeof_ChangesetComment (ChangesetComment_new date uid) buffer
                (eq_sym Hcomment) Hn (Nat.le_refl _)) as HA.
  destruct (reserve_space uninitialized sizeof_ChangesetComment buffer) as [target b0].
  destruct HA as [-> EA].
  cbn [discussion_builder with_comment]. unfold add_user.
  destruct (Nat.ltb_spec max_osm_string_length (length user)); [|lia].
  eexists _, _. split; [reflexivity|]. split; [exact EA|].
  split; [reflexivity|]. split; [reflexivity|]. split; [|split].
  - intros date' uid' user' b. apply add_comment_pending. cbn [m_comment]. eauto.
  - intros b. apply delete_pending. cbn [m_comment]. eauto.
  - intros text b. unfold add_comment_text. cbn [m_comment with_comment]. unfold add_text.
    destruct (_ <? _)%Z; [discriminate|].
    destruct (append_with_zero _ _ _). discriminate.
Qed.

Lemma add_comment_too_long_leaves_the_comment_witness :
  exists (this' : ChangesetDiscussionBuilder) (buffer' : Buffer),
    add_comment builder_examples.uninitialized builder_examples.max_osm_string_length
      builder_examples.sizeof_ChangesetComment builder_examples.ChangesetComment_new
      builder_examples.offsetof_user_size
      {| discussion_builder := builder_examples.list_builder; m_comment := None |}
      1 2 builder_examples.long_string builder_examples.list_under_construction
    = length_error "OSM user name is too long" (this', buffer') /\
    m_comment this' = Some 24 /\
    written buffer' = 40.
Proof.
  destruct (add_comment_too_long_leaves_the_comment builder_examples.uninitialized
              builder_examples.max_osm_string_length
              builder_examples.sizeof_ChangesetComment builder_examples.ChangesetComment_new
              builder_examples.offsetof_user_size builder_examples.offsetof_text_size
              {| discussion_builder := builder_examples.list_builder; m_comment := None |}
              1%Z 2%Z builder_examples.long_string builder_examples.list_under_construction
              eq_refl ltac:(vm_compute; lia) ltac:(vm_compute; reflexivity)
              ltac:(vm_compute; lia))
    as (this' & buffer' & Hret & Hext & _ & Hpending & _).
  exists this', buffer'. split; [exact Hret|]. split; [exact Hpending|].
  rewrite (extended_written _ _ _ _ Hext). reflexivity.
Defined.



(** ** Lists: the constructor, the elements and the destructor *)

Lemma le_bytes_S (width : nat) (v : Z) :
  le_bytes (S width) v = byte_of_Z v :: le_bytes width (v / 256).
Proof.
  unfold le_bytes. cbn [seq map]. f_equal.
  - change (2 ^ (8 * Z.of_nat 0))%Z with 1%Z. now rewrite Z.div_1_r.
  - rewrite <- seq_shift, map_map. apply map_ext. intros i. f_equal.
    replace (8 * Z.of_nat (S i))%Z with (8 + 8 * Z.of_nat i)%Z by lia.
    rewrite Z.pow_add_r by lia. change (2 ^ 8)%Z with 256%Z.
    rewrite Z.div_div by (try apply Z.pow_pos_nonneg; lia). reflexivity.
Qed.

Lemma le_bytes_le_value (bs : list byte) : le_bytes (length bs) (le_value bs) = bs.
Proof.
  induction bs as [|b bs IH]; [reflexivity|].
  cbn [length le_value]. rewrite le_bytes_S.
  pose proof (uchar_range b) as Hb. f_equal.
  - apply uchar_inj. rewrite uchar_byte_of_Z.
    rewrite (Z.mul_comm 256), Z.mod_add by lia. apply Z.mod_small. lia.
  - rewrite (Z.mul_comm 256), Z.div_add by lia.
    rewrite (Z.div_small (uchar b)) by lia. exact IH.
Qed.

Lemma le_value_le_bytes_mod (v : Z) : le_value (le_bytes 4 v) = (v mod 2 ^ 32)%Z.
Proof.
  unfold le_bytes. rewrite le_value_from.
  change (2 ^ (8 * Z.of_nat 0))%Z with 1%Z. now rewrite Z.div_1_r.
Qed.

Lemma untouched_tail (n0 h0 : nat) (hs : list nat) (d d' : list byte) :
  n0 <= h0 -> untouched n0 (h0 :: hs) d d' -> untouched n0 hs d d'.
Proof.
  intros Hh [L H]. split; [exact L|]. intros p Hp Hout. apply H; [exact Hp|].
  intros h [<-|Hin]; [left; lia | now apply Hout].
Qed.

Lemma length_T_new (L : object_layout) : length (T_new L) = sizeof_T L.
Proof. unfold T_new. rewrite length_app, length_le_bytes. apply T_fields_length. Qed.

(** The bytes that were appended for an item and then for its content,
    seen from the enclosing item: the size field of the item holds what
    the content added. *)
Lemma extended_sub (counted : list nat) (b b1 b2 : Buffer) (y x : list byte) :
  Forall (fun h => h + 4 <= written b) counted -> 4 <= length y ->
  extended counted b y b1 -> extended (written b :: counted) b1 x b2 ->
  extended counted b
    (le_bytes 4 (Item_byte_size (written b) b2) ++ drop 4 y ++ x) b2.
Proof.
  intros Hc Hy E0 E2.
  pose proof (extended_written _ _ _ _ E0) as W1.
  pose proof (extended_written _ _ _ _ E2) as W2.
  destruct E0 as (C0 & D0 & U0 & S0). destruct E2 as (C2 & D2 & U2 & S2).
  split; [congruence|]. split; [|split].
  - rewrite <- (take_drop 4 (drop (written b) (m_data b2))). f_equal.
    + unfold Item_byte_size, load, read_bytes.
      set (bs := take 4 (drop (written b) (m_data b2))).
      assert (Hl : length bs = 4).
      { unfold bs. rewrite length_take, length_drop. unfold written in *. lia. }
      rewrite <- Hl. symmetry. apply le_bytes_le_value.
    + rewrite drop_drop.
      rewrite <- (take_drop (length y - 4) (drop (written b + 4) (m_data b2))). f_equal.
      * transitivity (read_bytes (written b + 4) (length y - 4) (m_data b1)).
        -- apply read_bytes_ext; unfold written in *; try lia.
           intros p Hp. destruct U2 as [_ U2]. apply U2; [unfold written in *; lia|].
           intros h [<-|Hin]; right; [unfold written in *; lia|].
           pose proof (proj1 (List.Forall_forall _ _) Hc h Hin) as Hhp. cbn beta in Hhp.
           unfold written in *. lia.
        -- unfold read_bytes. rewrite <- drop_drop, D0. apply take_ge.
           rewrite length_drop. lia.
      * rewrite drop_drop.
        replace (written b + 4 + (length y - 4)) with (written b1) by lia. exact D2.
  - eapply untouched_trans; [exact U0|]. apply (untouched_tail _ (written b)); [lia|].
    eapply untouched_weaken; [|exact U2]. lia.
  - apply Forall_forall. intros h Hh.
    pose proof (List.Forall_inv_tail S2) as S2'.
    rewrite (proj1 (Forall_forall _ _) S2' h Hh), (proj1 (Forall_forall _ _) S0 h Hh).
    rewrite Zplus_mod_idemp_l. f_equal.
    rewrite !length_app, length_le_bytes, length_drop. lia.
Qed.

Section Lists.

Variable uninitialized : nat -> byte.

Lemma list_builder_new_extends (L : object_layout) (buffer : Buffer)
    (parent : option Builder) :
  match parent with Some p => nested_items p (written buffer) | None => True end ->
  exists buffer',
    list_builder_new uninitialized L buffer parent
    = (Builder_at (written buffer) parent, buffer') /\
    extended (open_items_of parent) buffer (T_new L) buffer'.
Proof.
  intros Hn. unfold list_builder_new, Builder_new, reserve_space.
  rewrite write_reserved by (now rewrite length_map, length_seq, repeat_length).
  rewrite item_pos_Builder_at.
  eexists. split; [reflexivity|].
  pose proof (length_T_new L) as HT.
  assert (Hw0 : write_bytes 0 (T_new L) (repeat x00 (sizeof_T L)) = T_new L).
  { unfold write_bytes. cbn [take app Nat.add].
    rewrite drop_ge by (rewrite repeat_length; lia). apply app_nil_r. }
  destruct parent as [p|]; cbn [open_items_of].
  - pose proof (nested_items_open _ _ Hn) as Hopen.
    pose proof (extended_append p (repeat x00 (sizeof_T L)) (sizeof_T L) (written buffer)
                  buffer Hn (Nat.le_refl _) ltac:(now rewrite repeat_length)) as E0.
    pose proof (extended_write _ _ _ _ (T_new L) 0 Hopen E0
                  ltac:(rewrite repeat_length; lia)) as E1.
    rewrite Hw0, Nat.add_0_r in E1. exact E1.
  - unfold with_data, written. cbn [m_data m_committed].
    rewrite write_bytes_end by (rewrite repeat_length; lia).
    split; [reflexivity|]. split; [apply drop_app_length|].
    split; [apply untouched_app; unfold written; lia | constructor].
Qed.

(** The destructor of the list builder of a list that was made at the end
    of [b] and holds [x] since. *)
Lemma sub_list_closed (parent : Builder) (L : object_layout) (b b1 b2 : Buffer)
    (x : list byte) :
  nested_items parent (written b) ->
  extended (open_items parent) b (T_new L) b1 ->
  extended (open_items (nested (written b) parent)) b1 x b2 ->
  exists padding,
    padding < align_bytes /\
    extended (open_items parent) b
      (le_bytes 4 (Z.of_nat (sizeof_T L + length x) mod 2 ^ 32) ++ T_fields L ++ x
       ++ repeat x00 padding)
      (list_builder_delete uninitialized (nested (written b) parent) b2) /\
    (Z.of_nat (sizeof_T L + length x + padding) mod 8 = 0)%Z.
Proof.
  intros Hn E0 E2.
  pose proof (length_T_new L) as HT. pose proof (T_fields_length L) as HF.
  pose proof (extended_written _ _ _ _ E0) as W1.
  pose proof (extended_written _ _ _ _ E2) as W2.
  pose proof (nested_items_open _ _ Hn) as Hopen.
  set (sub := nested (written b) parent) in *.
  assert (Hsub : nested_items sub (written b1)).
  { unfold sub. cbn [nested_items]. split; [lia | exact Hn]. }
  assert (Hs1 : size sub b1 = (Z.of_nat (sizeof_T L) mod 2 ^ 32)%Z).
  { unfold size, sub, Item_byte_size, load, read_bytes. cbn [item_pos].
    pose proof E0 as (_ & D0 & _). rewrite D0. unfold T_new.
    rewrite take_app_length' by (now rewrite length_le_bytes).
    apply le_value_le_bytes_mod. }
  assert (Hs2 : size sub b2 = (Z.of_nat (sizeof_T L + length x) mod 2 ^ 32)%Z).
  { rewrite (extended_size sub b1 b2 x E2), Hs1, Zplus_mod_idemp_l.
    now rewrite Nat2Z.inj_add. }
  pose proof (extended_sub (open_items parent) b b1 b2 (T_new L) x Hopen ltac:(lia) E0 E2)
    as E.
  change (Item_byte_size (written b) b2) with (size sub b2) in E. rewrite Hs2 in E.
  replace (drop 4 (T_new L)) with (T_fields L) in E
    by (unfold T_new; now rewrite drop_app_length' by (now rewrite length_le_bytes)).
  destruct (add_padding_parents uninitialized sub (written b1) b2 Hsub ltac:(lia))
    as (padding & Hp & EP & _ & Hmod).
  exists padding. split; [exact Hp|]. split.
  - pose proof (extended_trans _ _ _ _ _ _ Hopen E EP) as ET.
    rewrite <- !app_assoc in ET. exact ET.
  - rewrite Hs2, mod8_of_mod32, <- Nat2Z.inj_add in Hmod. exact Hmod.
Qed.

Variable max_osm_string_length : nat.

Lemma add_tag_extends (this : Builder) (bound : nat) (key value : list byte)
    (buffer : Buffer) :
  length key <= max_osm_string_length -> length value <= max_osm_string_length ->
  nested_items this bound -> bound <= written buffer ->
  exists buffer',
    add_tag uninitialized max_osm_string_length this key value buffer = returns buffer' /\
    extended (open_items this) buffer (key ++ [x00] ++ value ++ [x00]) buffer'.
Proof.
  intros Hk Hv Hn Hb. unfold add_tag.
  destruct (Nat.ltb_spec max_osm_string_length (length key)); [lia|].
  destruct (Nat.ltb_spec max_osm_string_length (length value)); [lia|].
  rewrite !append_appends. rewrite !length_app. cbn [length].
  set (b1 := add_size this (length key + 1)
               (with_data buffer (m_data buffer ++ key ++ [x00]))).
  assert (Hopen : Forall (fun h => h + 4 <= written buffer) (open_items this)).
  { eapply Forall_impl; [apply (nested_items_open _ _ Hn)|]. cbn beta. intros h Hh. lia. }
  assert (E1 : extended (open_items this) buffer (key ++ [x00]) b1).
  { apply (extended_append this (key ++ [x00]) _ bound buffer);
      [assumption | lia | rewrite length_app; reflexivity]. }
  pose proof (extended_written _ _ _ _ E1) as W1.
  assert (E2 : extended (open_items this) b1 (value ++ [x00])
                 (add_size this (length value + 1)
                    (with_data b1 (m_data b1 ++ value ++ [x00])))).
  { apply (extended_append this (value ++ [x00]) _ bound b1);
      [assumption | lia | rewrite length_app; reflexivity]. }
  pose proof (extended_trans _ _ _ _ _ _ Hopen E1 E2) as E.
  rewrite <- app_assoc in E.
  eexists. split; [reflexivity | exact E].
Qed.

Lemma add_tags_loop_extends (tl : Builder) (bound : nat)
    (rest : list (list byte * list byte)) :
  match rest with
  | [] => True
  | p :: _ => max_osm_string_length < length (fst p) \/
              max_osm_string_length < length (snd p)
  end ->
  nested_items tl bound ->
  forall (good : list (list byte * list byte)) (buffer : Buffer),
  Forall (fun p => length (fst p) <= max_osm_string_length /\
                   length (snd p) <= max_osm_string_length) good ->
  bound <= written buffer ->
  exists buffer1,
    extended (open_items tl) buffer
      (flat_map (fun p => fst p ++ [x00] ++ snd p ++ [x00]) good) buffer1 /\
    add_tags_loop uninitialized max_osm_string_length tl (good ++ rest) buffer
    = match rest with
      | [] => returns (list_builder_delete uninitialized tl buffer1)
      | p :: _ =>
          length_error
            (if max_osm_string_length <? length (fst p)
             then "OSM tag key is too long" else "OSM tag value is too long")
            (list_builder_delete uninitialized tl buffer1)
      end.
Proof.
  intros Hrest Hn good.
  induction good as [|p good IH]; intros buffer Hgood Hb.
  - exists buffer. split.
    + apply extended_refl. eapply Forall_impl; [apply (nested_items_open _ _ Hn)|].
      cbn beta. intros h Hh. lia.
    + cbn [app]. destruct rest as [|p rest]; [reflexivity|].
      cbn [add_tags_loop]. unfold add_tag.
      destruct (Nat.ltb_spec max_osm_string_length (length (fst p))); [reflexivity|].
      destruct (Nat.ltb_spec max_osm_string_length (length (snd p))); [reflexivity|].
      lia.
  - inversion Hgood as [|p' good' [Hk Hv] Hgood']; subst.
    destruct (add_tag_extends tl bound (fst p) (snd p) buffer Hk Hv Hn Hb)
      as (b1 & Hret & E1).
    pose proof (extended_written _ _ _ _ E1) as W1.
    destruct (IH b1 Hgood' ltac:(lia)) as (b2 & E2 & Hloop).
    exists b2. split.
    + cbn [flat_map]. rewrite <- !app_assoc.
      assert (Hopen : Forall (fun h => h + 4 <= written buffer) (open_items tl)).
      { eapply Forall_impl; [apply (nested_items_open _ _ Hn)|].
        cbn beta. intros h Hh. lia. }
      pose proof (extended_trans _ _ _ _ _ _ Hopen E1 E2) as E.
      rewrite <- !app_assoc in E. exact E.
    + cbn [app add_tags_loop]. rewrite Hret. exact Hloop.
Qed.

Variable sizeof_NodeRef : nat.

Lemma add_node_refs_loop_extends (this : Builder) (bound : nat) (nodes : list (list byte)) :
  nested_items this bound ->
  Forall (fun r => length r = sizeof_NodeRef) nodes ->
  forall buffer : Buffer,
  bound <= written buffer ->
  extended (open_items this) buffer (concat nodes)
    (fold_left (fun buffer node_ref => add_node_ref uninitialized sizeof_NodeRef this
                                         node_ref buffer) nodes buffer).
Proof.
  intros Hn Hnodes. induction Hnodes as [|r nodes Hr _ IH]; intros buffer Hb.
  - cbn [fold_left concat]. apply extended_refl.
    eapply Forall_impl; [apply (nested_items_open _ _ Hn)|]. cbn beta. intros h Hh. lia.
  - cbn [fold_left concat].
    assert (E1 : extended (open_items this) buffer r
                   (add_node_ref uninitialized sizeof_NodeRef this r buffer)).
    { unfold add_node_ref.
      pose proof (step_reserve_write uninitialized this bound sizeof_NodeRef r buffer
                    (eq_sym Hr) Hn Hb) as H.
      destruct (reserve_space uninitialized sizeof_NodeRef buffer) as [target b0].
      apply H. }
    pose proof (extended_written _ _ _ _ E1) as W1.
    assert (Hopen : Forall (fun h => h + 4 <= written buffer) (open_items this)).
    { eapply Forall_impl; [apply (nested_items_open _ _ Hn)|]. cbn beta. intros h Hh. lia. }
    apply (extended_trans _ _ _ _ _ _ Hopen E1). apply IH. lia.
Qed.

Lemma length_concat_same (n : nat) (nodes : list (list byte)) :
  Forall (fun r => length r = n) nodes -> length (concat nodes) = length nodes * n.
Proof.
  induction 1 as [|r nodes Hr _ IH]; [reflexivity|].
  cbn [concat length]. rewrite length_app, IH, Hr. lia.
Qed.

End Lists.

(** X17.  The constructor of a list builder ([TagListBuilder],
    [NodeRefListBuilder], [RelationMemberListBuilder],
    [ChangesetDiscussionBuilder]) appends the list as constructed, with
    its size field holding [sizeof] of the list, at the end of the buffer;
    the builder is bound to the position where the buffer ended and to its
    parent.  The bytes are counted in the size of the item of the parent
    and of every item that encloses it (in no item if there is no parent),
    and what was written before stays as it was.  A discussion builder has
    no comment pending. *)
Theorem list_builder_constructor_appends_the_list
    (uninitialized : nat -> byte)
    (L : object_layout) (buffer : Buffer) (parent : option Builder) :
  match parent with Some p => nested_items p (written buffer) | None => True end ->
  (Z.of_nat (sizeof_T L) < 2 ^ 32)%Z ->
  exists buffer',
    let this := Builder_at (written buffer) parent in
    TagListBuilder_new uninitialized L buffer parent = (this, buffer') /\
    NodeRefListBuilder_new uninitialized L buffer parent = (this, buffer') /\
    RelationMemberListBuilder_new uninitialized L buffer parent = (this, buffer') /\
    ChangesetDiscussionBuilder_new uninitialized L buffer parent
    = ({| discussion_builder := this; m_comment := None |}, buffer') /\
    extended (open_items_of parent) buffer (T_new L) buffer' /\
    size this buffer' = Z.of_nat (sizeof_T L) /\
    nested_items this (written buffer').
Proof.
  intros Hn HL.
  destruct (list_builder_new_extends uninitialized L buffer parent Hn) as (buffer' & Hnew & E).
  pose proof (extended_written _ _ _ _ E) as W. rewrite length_T_new in W.
  pose proof (T_fields_length L) as HF.
  exists buffer'. cbn zeta.
  unfold TagListBuilder_new, NodeRefListBuilder_new, RelationMemberListBuilder_new,
    ChangesetDiscussionBuilder_new.
  rewrite Hnew. repeat (split; [reflexivity|]). split; [exact E|]. split.
  - unfold size, Item_byte_size, load, read_bytes. rewrite item_pos_Builder_at.
    pose proof E as (_ & D & _). rewrite D. unfold T_new.
    rewrite take_app_length' by (now rewrite length_le_bytes).
    rewrite le_value_le_bytes_mod. apply Z.mod_small. lia.
  - destruct parent as [p|]; cbn [Builder_at nested_items]; [split; [lia | exact Hn] | lia].
Qed.

Lemma list_builder_constructor_appends_the_list_witness :
  exists buffer',
    TagListBuilder_new builder_examples.uninitialized builder_examples.TagList
      builder_examples.node_under_construction (Some builder_examples.node_builder)
    = (nested 48 builder_examples.node_builder, buffer') /\
    drop 48 (m_data buffer') = le_bytes 4 8 ++ [x11; x00; x00; x00] /\
    size (nested 48 builder_examples.node_builder) buffer' = 8%Z /\
    size builder_examples.node_builder buffer' = 56%Z.
Proof.
  destruct (list_builder_constructor_appends_the_list builder_examples.uninitialized
              builder_examples.TagList builder_examples.node_under_construction
              (Some builder_examples.node_builder)
              ltac:(vm_compute; lia) ltac:(reflexivity))
    as (buffer' & Hnew & _ & _ & _ & E & Hsize & _).
  exists buffer'. split; [exact Hnew|].
  destruct E as (_ & D & _ & S).
  split; [exact D|]. split; [exact Hsize|].
  pose proof (List.Forall_inv S) as Hs. exact Hs.
Defined.

(** X18.  [add_tags] of an object builder, given tags of which the first
    [good] are within the bound on the length of strings and the next one,
    if there is one, is not: it appends a tag list at the end of the
    buffer, made of the size field, which holds [sizeof(TagList)] plus
    the bytes of the tags, the other fields of the tag list as constructed,
    for every tag of [good] its key, a zero byte, its value and a zero
    byte, and fewer than eight zero bytes of padding that bring the whole
    to a multiple of eight bytes; all of it is counted in the size of the
    object and of every enclosing item, and what was written before stays
    as it was.  With every tag within the bound it returns; otherwise it
    throws [std::length_error] for the first tag that is too long, with
    the tag list of the tags before it in the buffer, padded. *)
Theorem add_tags_appends_a_padded_tag_list
    (uninitialized : nat -> byte) (max_osm_string_length : nat)
    (TagList : object_layout) (this : Builder)
    (good rest : list (list byte * list byte)) (buffer : Buffer) :
  nested_items this (written buffer) ->
  Forall (fun p => length (fst p) <= max_osm_string_length /\
                   length (snd p) <= max_osm_string_length) good ->
  match rest with
  | [] => True
  | p :: _ => max_osm_string_length < length (fst p) \/
              max_osm_string_length < length (snd p)
  end ->
  exists buffer' padding,
    let body := flat_map (fun p => fst p ++ [x00] ++ snd p ++ [x00]) good in
    add_tags uninitialized max_osm_string_length TagList this (good ++ rest) buffer
    = match rest with
      | [] => returns buffer'
      | p :: _ =>
          length_error
            (if max_osm_string_length <? length (fst p)
             then "OSM tag key is too long" else "OSM tag value is too long")
            buffer'
      end /\
    padding < align_bytes /\
    extended (open_items this) buffer
      (le_bytes 4 (Z.of_nat (sizeof_T TagList + length body) mod 2 ^ 32)
       ++ T_fields TagList ++ body ++ repeat x00 padding)
      buffer' /\
    (Z.of_nat (sizeof_T TagList + length body + padding) mod 8 = 0)%Z.
Proof.
  intros Hn Hgood Hrest. unfold add_tags, TagListBuilder_new.
  destruct (list_builder_new_extends uninitialized TagList buffer (Some this) Hn) as (b1 & Hnew & E0).
  rewrite Hnew. cbn [Builder_at open_items_of] in *.
  pose proof (extended_written _ _ _ _ E0) as W1. rewrite length_T_new in W1.
  pose proof (T_fields_length TagList) as HF.
  set (sub := nested (written buffer) this) in *.
  assert (Hsub : nested_items sub (written b1)).
  { unfold sub. cbn [nested_items]. split; [lia | exact Hn]. }
  destruct (add_tags_loop_extends uninitialized max_osm_string_length sub (written b1) rest Hrest Hsub good b1 Hgood
              (Nat.le_refl _)) as (b2 & E2 & Hloop).
  destruct (sub_list_closed uninitialized this TagList buffer b1 b2 _ Hn E0 E2)
    as (padding & Hp & E & Hmod).
  exists (list_builder_delete uninitialized sub b2), padding. cbn zeta.
  split; [exact Hloop|]. split; [exact Hp|]. split; [exact E | exact Hmod].
Qed.

Lemma add_tags_appends_a_padded_tag_list_witness :
  exists buffer',
    add_tags builder_examples.uninitialized builder_examples.max_osm_string_length
      builder_examples.TagList builder_examples.node_builder
      [(bytes_of "highway", bytes_of "primary");
       (bytes_of "name", builder_examples.long_string)]
      builder_examples.node_under_construction
    = length_error "OSM tag value is too long" buffer' /\
    drop 48 (m_data buffer')
    = le_bytes 4 24 ++ [x11; x00; x00; x00]
      ++ bytes_of "highway" ++ [x00] ++ bytes_of "primary" ++ [x00] /\
    size builder_examples.node_builder buffer' = 72%Z.
Proof.
  destruct (add_tags_appends_a_padded_tag_list builder_examples.uninitialized
              builder_examples.max_osm_string_length builder_examples.TagList
              builder_examples.node_builder
              [(bytes_of "highway", bytes_of "primary")]
              [(bytes_of "name", builder_examples.long_string)]
              builder_examples.node_under_construction
              ltac:(vm_compute; lia)
              ltac:(constructor; [split; vm_compute; lia | constructor])
              ltac:(right; vm_compute; lia))
    as (buffer' & padding & Hret & Hp & E & Hmod).
  assert (Hpad : padding = 0).
  { unfold align_bytes in Hp.
    do 8 (destruct padding as [|padding];
          [first [reflexivity | vm_compute in Hmod; discriminate]|]).
    lia. }
  subst padding. exists buffer'. split; [exact Hret|].
  destruct E as (_ & D & _ & S).
  split; [exact D|].
  pose proof (List.Forall_inv S) as Hs. exact Hs.
Defined.

(** X19.  [add_node_refs] of a way builder appends a way node list at the
    end of the buffer: the size field, which holds [sizeof(WayNodeList)]
    plus [sizeof(NodeRef)] for every node reference, the other fields of
    the list as constructed, the node references in their order, and
    fewer than eight zero bytes of padding that bring the whole to a
    multiple of eight bytes.  All of it is counted in the size of the way
    and of every enclosing item, and what was written before stays as it
    was. *)
Theorem add_node_refs_appends_a_padded_node_list
    (uninitialized : nat -> byte) (sizeof_NodeRef : nat)
    (WayNodeList : object_layout) (this : Builder) (nodes : list (list byte))
    (buffer : Buffer) :
  nested_items this (written buffer) ->
  Forall (fun r => length r = sizeof_NodeRef) nodes ->
  exists padding,
    padding < align_bytes /\
    extended (open_items this) buffer
      (le_bytes 4 (Z.of_nat (sizeof_T WayNodeList + length nodes * sizeof_NodeRef)
                   mod 2 ^ 32)
       ++ T_fields WayNodeList ++ concat nodes ++ repeat x00 padding)
      (add_node_refs uninitialized sizeof_NodeRef WayNodeList this nodes buffer) /\
    (Z.of_nat (sizeof_T WayNodeList + length nodes * sizeof_NodeRef + padding) mod 8
     = 0)%Z.
Proof.
  intros Hn Hnodes. unfold add_node_refs, NodeRefListBuilder_new.
  destruct (list_builder_new_extends uninitialized WayNodeList buffer (Some this) Hn)
    as (b1 & Hnew & E0).
  rewrite Hnew. cbn [Builder_at open_items_of] in *.
  pose proof (extended_written _ _ _ _ E0) as W1. rewrite length_T_new in W1.
  pose proof (T_fields_length WayNodeList) as HF.
  set (sub := nested (written buffer) this) in *.
  assert (Hsub : nested_items sub (written b1)).
  { unfold sub. cbn [nested_items]. split; [lia | exact Hn]. }
  pose proof (add_node_refs_loop_extends uninitialized sizeof_NodeRef sub (written b1) nodes Hsub Hnodes b1
                (Nat.le_refl _)) as E2.
  destruct (sub_list_closed uninitialized this WayNodeList buffer b1 _ _ Hn E0 E2)
    as (padding & Hp & E & Hmod).
  rewrite (length_concat_same sizeof_NodeRef nodes Hnodes) in E, Hmod.
  exists padding. split; [exact Hp|]. split; [exact E | exact Hmod].
Qed.

Lemma add_node_refs_appends_a_padded_node_list_witness :
  let buffer' :=
    add_node_refs builder_examples.uninitialized builder_examples.sizeof_NodeRef
      builder_examples.WayNodeList builder_examples.node_builder
      [builder_examples.NodeRef_new 1; builder_examples.NodeRef_new 2]
      builder_examples.node_under_construction in
  drop 48 (m_data buffer')
  = le_bytes 4 40 ++ [x12; x00; x00; x00]
    ++ builder_examples.NodeRef_new 1 ++ builder_examples.NodeRef_new 2 /\
  size builder_examples.node_builder buffer' = 88%Z.
Proof.
  destruct (add_node_refs_appends_a_padded_node_list builder_examples.uninitialized
              builder_examples.sizeof_NodeRef builder_examples.WayNodeList
              builder_examples.node_builder
              [builder_examples.NodeRef_new 1; builder_examples.NodeRef_new 2]
              builder_examples.node_under_construction
              ltac:(vm_compute; lia)
              ltac:(repeat constructor))
    as (padding & Hp & E & Hmod).
  assert (Hpad : padding = 0).
  { unfold align_bytes in Hp.
    do 8 (destruct padding as [|padding];
          [first [reflexivity | vm_compute in Hmod; discriminate]|]).
    lia. }
  subst padding. cbn zeta.
  destruct E as (_ & D & _ & S).
  split; [exact D|].
  pose proof (List.Forall_inv S) as Hs. exact Hs.
Defined.

(** ** The user name: calls that the assertion refuses, and the other
    overloads *)

Lemma write_bytes_same (pos n : nat) (d : list byte) :
  write_bytes pos (read_bytes pos n d) d = d.
Proof.
  unfold write_bytes, read_bytes. rewrite <- drop_drop.
  set (X := drop pos d).
  assert (H : take n X ++ drop (length (take n X)) X = X).
  { rewrite length_take. destruct (Nat.le_gt_cases n (length X)) as [Hn|Hn].
    - rewrite Nat.min_l by lia. apply take_drop.
    - rewrite Nat.min_r by lia. rewrite take_ge, drop_ge by lia. apply app_nil_r. }
  rewrite H. apply take_drop.
Qed.

Lemma with_data_same (buffer : Buffer) : with_data buffer (m_data buffer) = buffer.
Proof. destruct buffer. reflexivity. Qed.

Lemma store_loaded (width pos : nat) (buffer : Buffer) :
  pos + width <= written buffer ->
  store width pos (load width pos buffer) buffer = buffer.
Proof.
  intros Hpos. unfold store, load.
  assert (Hl : length (read_bytes pos width (m_data buffer)) = width).
  { unfold read_bytes, written in *. rewrite length_take, length_drop. lia. }
  rewrite <- Hl at 1. rewrite le_bytes_le_value, write_bytes_same.
  apply with_data_same.
Qed.

Lemma load_store_2 (pos : nat) (v : Z) (buffer : Buffer) :
  pos + 2 <= written buffer -> (0 <= v < 2 ^ 16)%Z ->
  load 2 pos (store 2 pos v buffer) = v.
Proof.
  intros Hpos Hv. unfold load, store, with_data. cbn [m_data].
  pose proof (read_write_bytes pos (le_bytes 2 v) (m_data buffer)) as Hr.
  rewrite length_le_bytes in Hr. rewrite Hr by (unfold written in *; lia).
  now apply le_value_le_bytes_2.
Qed.

Section UserAgain.

Variable uninitialized : nat -> byte.

Lemma set_user_at_refused (this : Builder) (usp np avail bound : nat)
    (user : list byte) (buffer : Buffer) :
  load 2 usp buffer <> 1%Z \/ (Z.of_nat bound < size this buffer)%Z ->
  set_user_at uninitialized this usp np avail bound user buffer
  = assertion_failed set_user_assertion.
Proof.
  intros H. unfold set_user_at.
  destruct (Z.eqb_spec (load 2 usp buffer) 1) as [E|E];
    destruct (Z.leb_spec (size this buffer) (Z.of_nat bound)) as [L|L];
    cbn [andb negb]; try reflexivity.
  destruct H; [congruence | lia].
Qed.

Lemma set_user_at_empty (this : Builder) (usp np avail bound : nat) (buffer : Buffer) :
  load 2 usp buffer = 1%Z -> (size this buffer <= Z.of_nat bound)%Z ->
  usp + 2 <= written buffer ->
  set_user_at uninitialized this usp np avail bound [] buffer = returns buffer.
Proof.
  intros Hsize1 Hbound Hpos. unfold set_user_at. rewrite Hsize1.
  destruct (Z.leb_spec (size this buffer) (Z.of_nat bound)) as [_|]; [|lia].
  cbn [Z.eqb Pos.eqb andb negb length].
  destruct (Nat.ltb_spec avail 0); [lia|].
  replace (write_bytes np [] (m_data buffer)) with (m_data buffer)
    by (unfold write_bytes; cbn [app length]; now rewrite Nat.add_0_r, take_drop).
  rewrite with_data_same.
  change ((Z.of_nat 0 + 1) mod 2 ^ 16)%Z with 1%Z.
  rewrite <- Hsize1 at 1. now rewrite store_loaded.
Qed.

Lemma set_user_at_returns (this : Builder) (usp np avail bound : nat)
    (user : list byte) (buffer : Buffer) :
  load 2 usp buffer = 1%Z -> (size this buffer <= Z.of_nat bound)%Z ->
  written buffer = np + avail + 1 -> usp + 2 <= np ->
  Forall (fun h => h + 4 <= np) (open_items this) ->
  read_bytes np (avail + 1) (m_data buffer) = repeat x00 (avail + 1) ->
  exists buffer',
    set_user_at uninitialized this usp np avail bound user buffer = returns buffer' /\
    load 2 usp buffer' = ((Z.of_nat (length user) + 1) mod 2 ^ 16)%Z.
Proof.
  intros Hsize1 Hbound Hw Hpos Hrange Hslot.
  assert (Hslot' : drop np (m_data buffer) = repeat x00 (avail + 1)).
  { rewrite <- Hslot. unfold read_bytes. symmetry. apply take_ge.
    rewrite length_drop. unfold written in Hw. lia. }
  unfold set_user_at. rewrite Hsize1.
  destruct (Z.leb_spec (size this buffer) (Z.of_nat bound)) as [_|]; [|lia].
  cbn [Z.eqb Pos.eqb andb negb].
  set (b3 := if avail <? length user then _ else buffer).
  assert (H3 : written buffer <= written b3).
  { unfold b3. destruct (avail <? length user); [|lia].
    pose proof (set_user_reservation uninitialized this np avail
                  (padded_length (length user - avail)) buffer Hw Hrange Hslot') as H.
    cbn zeta in H. destruct H as (H & _). rewrite H. lia. }
  eexists. split; [reflexivity|].
  apply load_store_2; [|apply Z.mod_pos_bound; lia].
  unfold with_data, written in *. cbn [m_data].
  pose proof (length_write_bytes_ge np user (m_data b3) ltac:(lia)). lia.
Qed.

End UserAgain.

(** X20.  [set_user] of an object builder and of a changeset builder, in
    the state that the constructor leaves, called with a name that is not
    empty, returns, and every call of [set_user] after it fails the
    assertion, whatever the name.  Called with the empty name it leaves
    the buffer as it is, so that [set_user] can be called again. *)
Theorem set_user_a_second_time_fails_the_assertion
    (uninitialized : nat -> byte) (T : object_layout) (C : changeset_layout)
    (this : Builder) (user : list byte) (buffer : Buffer) :
  (Z.of_nat (length user) < 65535)%Z ->
  (before_set_user T this buffer ->
   exists buffer',
     set_user uninitialized T this user buffer = returns buffer' /\
     (user = [] -> buffer' = buffer) /\
     (user <> [] ->
      forall user2,
        set_user uninitialized T this user2 buffer'
        = assertion_failed set_user_assertion)) /\
  (Changeset_before_set_user C this buffer ->
   exists buffer',
     Changeset_set_user uninitialized C this user buffer = returns buffer' /\
     (user = [] -> buffer' = buffer) /\
     (user <> [] ->
      forall user2,
        Changeset_set_user uninitialized C this user2 buffer'
        = assertion_failed set_user_assertion)).
Proof.
  intros Hlen. split.
  - intros Hbefore.
    destruct (set_user_stores uninitialized T this user buffer Hbefore Hlen)
      as (buffer' & Hret & Hsize & _).
    exists buffer'. split; [exact Hret|]. split.
    + intros ->. destruct Hbefore as (Hsize1 & Hs & Hw & _).
      assert (He : set_user uninitialized T this [] buffer = returns buffer);
        [|congruence].
      apply (set_user_at_empty uninitialized this (user_position T this)
               (item_pos this + (sizeof_T T + sizeof_string_size_type))
               (min_size_for_user - sizeof_string_size_type - 1)
               (sizeof_T T + sizeof_string_size_type + padded_length 1) buffer Hsize1).
      * rewrite Hs. change min_size_for_user with 8.
        change (padded_length 1) with 8. change sizeof_string_size_type with 2. lia.
      * unfold user_position. change min_size_for_user with 8 in Hw. lia.
    + intros Hne user2.
      apply (set_user_at_refused uninitialized this (user_position T this)
               (item_pos this + (sizeof_T T + sizeof_string_size_type))
               (min_size_for_user - sizeof_string_size_type - 1)
               (sizeof_T T + sizeof_string_size_type + padded_length 1) user2 buffer').
      left. rewrite Hsize. destruct user; [congruence|]. cbn [length]. lia.
  - intros Hbefore.
    destruct (Changeset_set_user_stores uninitialized C this user buffer Hbefore Hlen)
      as (buffer' & Hret & Hsize & _).
    destruct (m_user_size_inside C) as [Hoff1 Hoff2].
    exists buffer'. split; [exact Hret|]. split.
    + intros ->. destruct Hbefore as (Hsize1 & Hs & Hw & _).
      assert (He : Changeset_set_user uninitialized C this [] buffer = returns buffer);
        [|congruence].
      apply (set_user_at_empty uninitialized this
               (item_pos this + offsetof_m_user_size C)
               (item_pos this + sizeof_T (Changeset_object C))
               (Changeset_min_size_for_user - 1)
               (sizeof_T (Changeset_object C) + padded_length 1) buffer Hsize1).
      * rewrite Hs. change Changeset_min_size_for_user with 8.
        change (padded_length 1) with 8. lia.
      * change Changeset_min_size_for_user with 8 in Hw. lia.
    + intros Hne user2.
      apply (set_user_at_refused uninitialized this
               (item_pos this + offsetof_m_user_size C)
               (item_pos this + sizeof_T (Changeset_object C))
               (Changeset_min_size_for_user - 1)
               (sizeof_T (Changeset_object C) + padded_length 1) user2 buffer').
      left. rewrite Hsize. destruct user; [congruence|]. cbn [length]. lia.
Qed.

Lemma set_user_a_second_time_fails_the_assertion_witness :
  exists buffer',
    set_user builder_examples.uninitialized builder_examples.Node
      builder_examples.node_builder (bytes_of "a mapper")
      builder_examples.node_under_construction = returns buffer' /\
    set_user builder_examples.uninitialized builder_examples.Node
      builder_examples.node_builder (bytes_of "another")
      buffer' = assertion_failed set_user_assertion.
Proof.
  destruct (set_user_a_second_time_fails_the_assertion builder_examples.uninitialized
              builder_examples.Node builder_examples.Changeset
              builder_examples.node_builder (bytes_of "a mapper")
              builder_examples.node_under_construction ltac:(vm_compute; reflexivity))
    as [Hobject _].
  destruct Hobject as (buffer' & Hret & _ & Hagain).
  - repeat split; try (vm_compute; reflexivity). constructor.
  - exists buffer'. split; [exact Hret|]. apply Hagain. discriminate.
Defined.

(** X21.  Once a sub-builder of an object builder or of a changeset
    builder was made (a tag list builder, a node list builder, a member
    list builder, a discussion builder), every call of [set_user] fails
    the assertion. *)
Theorem set_user_after_a_sub_builder_fails_the_assertion
    (uninitialized : nat -> byte) (T L : object_layout) (C : changeset_layout)
    (this : Builder) (buffer : Buffer) :
  nested_items this (written buffer) ->
  (before_set_user T this buffer ->
   (Z.of_nat (sizeof_T T + min_size_for_user + sizeof_T L) < 2 ^ 32)%Z ->
   forall user,
     set_user uninitialized T this user
       (snd (list_builder_new uninitialized L buffer (Some this)))
     = assertion_failed set_user_assertion) /\
  (Changeset_before_set_user C this buffer ->
   (Z.of_nat (sizeof_T (Changeset_object C) + Changeset_min_size_for_user + sizeof_T L)
    < 2 ^ 32)%Z ->
   forall user,
     Changeset_set_user uninitialized C this user
       (snd (list_builder_new uninitialized L buffer (Some this)))
     = assertion_failed set_user_assertion).
Proof.
  intros Hn.
  destruct (list_builder_new_extends uninitialized L buffer (Some this) Hn)
    as (buffer' & Hnew & E).
  rewrite Hnew. cbn [snd open_items_of] in *.
  pose proof (extended_size _ _ _ _ E) as Hs. rewrite length_T_new in Hs.
  pose proof (T_fields_length L) as HL.
  split.
  - intros (_ & Hsize & _) Hsmall user.
    apply (set_user_at_refused uninitialized this (user_position T this)
             (item_pos this + (sizeof_T T + sizeof_string_size_type))
             (min_size_for_user - sizeof_string_size_type - 1)
             (sizeof_T T + sizeof_string_size_type + padded_length 1) user buffer').
    right. rewrite Hs, Hsize. change min_size_for_user with 8 in *.
    change (padded_length 1) with 8. change sizeof_string_size_type with 2.
    rewrite Z.mod_small by lia. lia.
  - intros (_ & Hsize & _) Hsmall user.
    apply (set_user_at_refused uninitialized this
             (item_pos this + offsetof_m_user_size C)
             (item_pos this + sizeof_T (Changeset_object C))
             (Changeset_min_size_for_user - 1)
             (sizeof_T (Changeset_object C) + padded_length 1) user buffer').
    right. rewrite Hs, Hsize. change Changeset_min_size_for_user with 8 in *.
    change (padded_length 1) with 8.
    rewrite Z.mod_small by lia. lia.
Qed.

Lemma set_user_after_a_sub_builder_fails_the_assertion_witness :
  set_user builder_examples.uninitialized builder_examples.Node
    builder_examples.node_builder (bytes_of "a mapper")
    (snd (TagListBuilder_new builder_examples.uninitialized builder_examples.TagList
            builder_examples.node_under_construction
            (Some builder_examples.node_builder)))
  = assertion_failed set_user_assertion.
Proof.
  destruct (set_user_after_a_sub_builder_fails_the_assertion
              builder_examples.uninitialized builder_examples.Node
              builder_examples.TagList builder_examples.Changeset
              builder_examples.node_builder builder_examples.node_under_construction
              ltac:(vm_compute; lia))
    as [Hobject _].
  apply Hobject.
  - repeat split; try (vm_compute; reflexivity). constructor.
  - vm_compute. reflexivity.
Defined.

(** X22.  The overloads of [set_user] that take a zero-terminated string
    or a [std::string]: with a name of fewer than [2^16 - 1] bytes they do
    what [set_user(user, length)] does with the length of the name.  With
    a longer name the two overloads of an object builder and the
    [std::string] overload of a changeset builder fail their assertion.
    The overload of a changeset builder for a zero-terminated string
    fails its assertion with a name of more than [2^16 - 1] bytes only:
    with a name of [2^16 - 1] bytes, in the state that the constructor
    leaves, it returns and the user size of the changeset is 0. *)
Theorem set_user_of_a_string_checks_the_length
    (uninitialized : nat -> byte) (T : object_layout) (C : changeset_layout)
    (this : Builder) (user : list byte) (buffer : Buffer) :
  let len := Z.of_nat (length user) in
  ((len < 65535)%Z ->
   set_user_c_str uninitialized T this user buffer
   = set_user uninitialized T this user buffer /\
   set_user_string uninitialized T this user buffer
   = set_user uninitialized T this user buffer /\
   Changeset_set_user_c_str uninitialized C this user buffer
   = Changeset_set_user uninitialized C this user buffer /\
   Changeset_set_user_string uninitialized C this user buffer
   = Changeset_set_user uninitialized C this user buffer) /\
  ((65535 <= len)%Z ->
   set_user_c_str uninitialized T this user buffer
   = assertion_failed "len < std::numeric_limits<string_size_type>::max()" /\
   set_user_string uninitialized T this user buffer
   = assertion_failed "user.size() < std::numeric_limits<string_size_type>::max()" /\
   Changeset_set_user_string uninitialized C this user buffer
   = assertion_failed "user.size() < std::numeric_limits<string_size_type>::max()") /\
  ((65535 < len)%Z ->
   Changeset_set_user_c_str uninitialized C this user buffer
   = assertion_failed "len <= std::numeric_limits<string_size_type>::max()") /\
  (len = 65535%Z -> Changeset_before_set_user C this buffer ->
   exists buffer',
     Changeset_set_user_c_str uninitialized C this user buffer = returns buffer' /\
     Changeset_user_size C this buffer' = 0%Z).
Proof.
  intros len.
  assert (Htake : (len < 65536)%Z -> take (to_string_size_type (length user)) user = user).
  { intros H. unfold to_string_size_type. fold len.
    rewrite Z.mod_small by (unfold len; lia). unfold len. rewrite Nat2Z.id.
    apply firstn_all. }
  unfold set_user_c_str, set_user_string, Changeset_set_user_c_str,
    Changeset_set_user_string, string_size_type_max. fold len.
  split; [|split; [|split]].
  - intros H. rewrite Htake by lia.
    destruct (Z.ltb_spec len 65535) as [_|]; [|lia].
    destruct (Z.leb_spec len 65535) as [_|]; [|lia].
    cbn [negb]. repeat split.
  - intros H. destruct (Z.ltb_spec len 65535) as [|_]; [lia|].
    cbn [negb]. repeat split.
  - intros H. destruct (Z.leb_spec len 65535) as [|_]; [lia|]. reflexivity.
  - intros H (Hsize1 & Hsize & Hw & Hslot & Hparents). rewrite Htake by lia.
    destruct (Z.leb_spec len 65535) as [_|]; [|lia]. cbn [negb].
    pose proof (T_fields_length (Changeset_object C)) as HT.
    destruct (m_user_size_inside C) as [Hoff1 Hoff2].
    change Changeset_min_size_for_user with 8 in *. cbn [Nat.sub] in *.
    destruct (set_user_at_returns uninitialized this
                (item_pos this + offsetof_m_user_size C)
                (item_pos this + sizeof_T (Changeset_object C)) 7
                (sizeof_T (Changeset_object C) + padded_length 1) user buffer)
      as (buffer' & Hret & Hload).
    + exact Hsize1.
    + rewrite Hsize. change (padded_length 1) with 8. lia.
    + lia.
    + lia.
    + rewrite open_items_m_parent. constructor; [lia|].
      eapply Forall_impl; [exact Hparents|]. intros h Hh. cbn beta in *. lia.
    + exact Hslot.
    + exists buffer'. split; [exact Hret|].
      unfold Changeset_user_size. rewrite Hload. fold len. rewrite H. reflexivity.
Qed.

Lemma set_user_of_a_string_checks_the_length_witness :
  exists buffer',
    Changeset_set_user_c_str builder_examples.uninitialized builder_examples.Changeset
      builder_examples.changeset_builder builder_examples.longest_name
      builder_examples.changeset_under_construction = returns buffer' /\
    Changeset_user_size builder_examples.Changeset builder_examples.changeset_builder
      buffer' = 0%Z.
Proof.
  destruct (set_user_of_a_string_checks_the_length builder_examples.uninitialized
              builder_examples.Node builder_examples.Changeset
              builder_examples.changeset_builder builder_examples.longest_name
              builder_examples.changeset_under_construction)
    as (_ & _ & _ & Hedge).
  apply Hedge.
  - vm_compute. reflexivity.
  - repeat split; try (vm_compute; reflexivity). constructor.
Defined.

End builder_extras.
